(** * surreal_demo_ts: the generic CRUD / Active-Record data-access layer

    A shallow embedding of [src/models/db/surreal.ts] (the service used by
    [BaseModel]), of its older sibling [src/utils/surreal.ts], and of
    [src/models/BaseModel.ts].

    Definitions:
    - [Js]        the fragment of the JavaScript runtime the sources rely on:
                  values, [String(v)], [JSON.stringify], truthiness, string
                  slicing, [Math.ceil] of a quotient;
    - [Eff]       the effect monad: a world (connection singleton, store state,
                  console, journal of client calls) threaded through calls
                  that may throw, and the interface of the client library;
    - [Conn]      the connection manager ([initSurrealDB], [getSurrealDB],
                  [closeSurrealDB]);
    - [Query]     conditions and [buildWhereClause], the same in both services;
    - [Service]   [SurrealService] of [src/models/db/surreal.ts];
    - [Legacy]    [SurrealService] of [src/utils/surreal.ts];
    - [Model]     [BaseModel];
    - [MemStore]  a small in-memory store to run the code on concrete inputs.

    Properties: [StringFacts], [QueryFacts], [ConnFacts], [ServiceFacts],
    [LegacyFacts], [NumFacts], [Contract], [ModelFacts], and the modules
    that follow them.

    Strings are byte strings (UTF-8); the only characters the sources inspect
    are the ASCII ['%'], [':'] and ['_'].  Numbers are IEEE 754 binary64
    values, with the arithmetic of the Standard Library's [SpecFloat].
    [async] functions are run to completion one after the other;
    [Promise.all] runs its members in list order. *)

From Stdlib Require Import String Ascii ZArith List Bool Lia DecimalString.
From Stdlib Require SpecFloat.
Import ListNotations.
Local Open Scope string_scope.
Set Warnings "-register-all".

(* ================================================================== *)
(** * The JavaScript fragment *)
(* ================================================================== *)

Module Js.

(** A JavaScript number: an IEEE 754 binary64 value.  [Fin z] is the
    integer [z], [Fin 0] being [+0]; [Frac neg m e] is [m / 2^e], negated
    when [neg], for an odd [m], so never an integer.  [is_double] below tells
    which of these are values of the format. *)
Inductive JsNum : Type :=
| Fin (z : Z)
| NaN
| PosInf
| NegInf
| NegZero
| Frac (neg : bool) (m e : positive).

(** The binary64 format. *)
Definition prec : Z := 53.
Definition emax : Z := 1024.

(** A number as a mantissa and an exponent. *)
Definition to_float (n : JsNum) : SpecFloat.spec_float :=
  match n with
  | Fin Z0 => SpecFloat.S754_zero false
  | Fin (Zpos p) => SpecFloat.S754_finite false p 0
  | Fin (Zneg p) => SpecFloat.S754_finite true p 0
  | NaN => SpecFloat.S754_nan
  | PosInf => SpecFloat.S754_infinity false
  | NegInf => SpecFloat.S754_infinity true
  | NegZero => SpecFloat.S754_zero true
  | Frac neg m e => SpecFloat.S754_finite neg m (Zneg e)
  end.

(** [m / 2^k] in lowest terms: the mantissa halved while it is even and
    there is something left to divide by. *)
Fixpoint reduce (m : positive) (k : Z) : positive * Z :=
  match m with
  | xO m' => if (0 <? k)%Z then reduce m' (k - 1) else (m, k)
  | _ => (m, k)
  end.

Definition signed (neg : bool) (z : Z) : Z := if neg then (- z)%Z else z.

Definition of_float (f : SpecFloat.spec_float) : JsNum :=
  match f with
  | SpecFloat.S754_zero false => Fin 0
  | SpecFloat.S754_zero true => NegZero
  | SpecFloat.S754_infinity false => PosInf
  | SpecFloat.S754_infinity true => NegInf
  | SpecFloat.S754_nan => NaN
  | SpecFloat.S754_finite s m e =>
      if (0 <=? e)%Z then Fin (signed s (Z.shiftl (Zpos m) e))
      else
        let (m', k) := reduce m (- e) in
        if (k =? 0)%Z then Fin (signed s (Zpos m')) else Frac s m' (Z.to_pos k)
  end.

(** Rounding to the format: to nearest, ties to even. *)
Definition normalize (f : SpecFloat.spec_float) : SpecFloat.spec_float :=
  match f with
  | SpecFloat.S754_finite s m e => SpecFloat.binary_round prec emax s m e
  | _ => f
  end.

Definition num_same (a b : JsNum) : bool :=
  match a, b with
  | Fin x, Fin y => Z.eqb x y
  | NaN, NaN | PosInf, PosInf | NegInf, NegInf | NegZero, NegZero => true
  | Frac s m e, Frac s' m' e' => Bool.eqb s s' && Pos.eqb m m' && Pos.eqb e e'
  | _, _ => false
  end.


(** [a === b] on numbers. *)
Definition num_eqb (a b : JsNum) : bool :=
  match a, b with
  | NaN, _ | _, NaN => false
  | NegZero, Fin y => Z.eqb 0 y
  | Fin x, NegZero => Z.eqb x 0
  | _, _ => num_same a b
  end.

(** ** Arithmetic *)

(** [a - b], [a * b] and [a / b]: the exact result rounded to the format. *)
Definition num_sub (a b : JsNum) : JsNum :=
  of_float (SpecFloat.SFsub prec emax (to_float a) (to_float b)).

Definition num_mul (a b : JsNum) : JsNum :=
  of_float (SpecFloat.SFmul prec emax (to_float a) (to_float b)).

Definition num_div (a b : JsNum) : JsNum :=
  of_float (SpecFloat.SFdiv prec emax (to_float a) (to_float b)).

(** [Math.ceil(n)]; a negative fraction above [-1] gives [-0]. *)
Definition math_ceil (n : JsNum) : JsNum :=
  match n with
  | Frac false m e => Fin (Z.shiftr (Zpos m) (Zpos e) + 1)
  | Frac true m e =>
      let q := Z.shiftr (Zpos m) (Zpos e) in
      if (q =? 0)%Z then NegZero else Fin (- q)
  | _ => n
  end.

(** [Math.ceil(a / b)]: the quotient is rounded to the format first. *)
Definition ceil_div (a b : JsNum) : JsNum := math_ceil (num_div a b).

(** ** [String(n)] for a number *)

Definition digits_of (z : Z) : string := NilZero.string_of_int (Z.to_int z).

Fixpoint zeros (n : nat) : string :=
  match n with
  | O => ""
  | Datatypes.S n' => String "0" (zeros n')
  end.

(** [x < 10^n] for [x = xN / D]. *)
Definition below (xN D n : Z) : bool :=
  if (0 <=? n)%Z then (xN <? D * 10 ^ n)%Z else (xN * 10 ^ (- n) <? D)%Z.

(** The least [n] from [n] on with [x < 10^n]. *)
Fixpoint decimal_exponent (fuel : nat) (n xN D : Z) : Z :=
  match fuel with
  | O => n
  | Datatypes.S fuel' =>
      if below xN D n then n else decimal_exponent fuel' (n + 1)%Z xN D
  end.

(** The digits [s] and the exponent [n] of Number::toString: the least
    number [k] of digits, from [k] on, for which some [s * 10^(n - k)] with
    [k] digits rounds to [x = xN / D], that is, lies between [lN / D] and
    [hN / D], the ends counting when [closed]; of two such [s] the one
    nearer to [x], and the even one when they are as near.  Only the two
    neighbours of [x] among the [k]-digit decimals can qualify. *)
Fixpoint shortest (fuel : nat) (k n0 xN lN hN D : Z) (closed : bool) : Z * Z :=
  match fuel with
  | O => (0, 0)%Z
  | Datatypes.S fuel' =>
      let p := (n0 - k)%Z in
      let pn := (10 ^ Z.max p 0)%Z in
      let pd := (10 ^ Z.max (- p) 0)%Z in
      let lo := ((xN * pd) / (D * pn))%Z in
      let hi := (lo + 1)%Z in
      let inside := fun s =>
        let c := (s * pn * D)%Z in
        if closed then (lN * pd <=? c)%Z && (c <=? hN * pd)%Z
        else (lN * pd <? c)%Z && (c <? hN * pd)%Z in
      let carry := if (hi =? 10 ^ k)%Z then (10 ^ (k - 1), n0 + 1)%Z else (hi, n0) in
      let dlo := (xN * pd - lo * pn * D)%Z in
      let dhi := (hi * pn * D - xN * pd)%Z in
      match inside lo, inside hi with
      | true, true =>
          if (dlo <? dhi)%Z then (lo, n0)
          else if (dhi <? dlo)%Z then carry
          else if Z.even lo then (lo, n0) else carry
      | true, false => (lo, n0)
      | false, true => carry
      | false, false => shortest fuel' (k + 1)%Z n0 xN lN hN D closed
      end
  end.

(** The digits laid out: plain up to 21 integer digits and down to six
    leading zeros, with an exponent otherwise. *)
Definition layout (s n : Z) : string :=
  let d := digits_of s in
  let k := Z.of_nat (String.length d) in
  if (k <=? n)%Z && (n <=? 21)%Z then d ++ zeros (Z.to_nat (n - k))
  else if (0 <? n)%Z && (n <=? 21)%Z then
    substring 0 (Z.to_nat n) d ++ "." ++ substring (Z.to_nat n) (Z.to_nat (k - n)) d
  else if (-6 <? n)%Z && (n <=? 0)%Z then "0." ++ zeros (Z.to_nat (- n)) ++ d
  else
    let e := (n - 1)%Z in
    (if (k =? 1)%Z then d
     else substring 0 1 d ++ "." ++ substring 1 (Z.to_nat (k - 1)) d)
    ++ "e" ++ (if (e <? 0)%Z then "-" else "+") ++ digits_of (Z.abs e).

(** [String(x)] for the positive value [x = m * 2^e] of the format.  The
    numbers that round to [x] lie between the midpoints to its two
    neighbours, which are half a unit in the last place away, the lower one
    a quarter when [x] is a power of two; the midpoints themselves round to
    [x] when [m] is even.  All of them are counted in quarters of a unit.
    The search for the decimal exponent starts two below an estimate made
    from the binary exponent, which is never too high. *)
Definition positive_to_string (m : positive) (e : Z) : string :=
  let boundary := (Zpos m =? 2 ^ 52)%Z && (-1074 <? e)%Z in
  let u := (2 ^ Z.max (e - 2) 0)%Z in
  let D := (2 ^ Z.max (2 - e) 0)%Z in
  let xN := (4 * Zpos m * u)%Z in
  let lN := ((4 * Zpos m - (if boundary then 1 else 2)) * u)%Z in
  let hN := ((4 * Zpos m + 2) * u)%Z in
  let start := ((Z.log2 xN - Z.log2 D) * 30103 / 100000 - 2)%Z in
  let n0 := decimal_exponent 8 start xN D in
  let (s, n) := shortest 17 1 n0 xN lN hN D (Z.even (Zpos m)) in
  layout s n.

Definition general_to_string (n : JsNum) : string :=
  match normalize (to_float n) with
  | SpecFloat.S754_zero _ => "0"
  | SpecFloat.S754_nan => "NaN"
  | SpecFloat.S754_infinity false => "Infinity"
  | SpecFloat.S754_infinity true => "-Infinity"
  | SpecFloat.S754_finite s m e =>
      (if s then "-" else "") ++ positive_to_string m e
  end.

(** [String(n)] for a number; an integer below [2^53] is its digits. *)
Definition num_to_string (n : JsNum) : string :=
  match n with
  | Fin z => if (Z.abs z <? 9007199254740992)%Z then digits_of z
             else general_to_string n
  | _ => general_to_string n
  end.

(** JavaScript values.  An object is the list of its own enumerable
    properties in enumeration order; a function is kept by its source text. *)
Inductive JsValue : Type :=
| JUndefined
| JNull
| JBool (b : bool)
| JNum (n : JsNum)
| JStr (s : string)
| JArr (items : list JsValue)
| JObj (props : list (string * JsValue))
| JFun (src : string).

(** [xs.join(sep)] on an array of strings. *)
Definition join (sep : string) (xs : list string) : string := String.concat sep xs.

(** [String(v)]: the abstract operation ToString on plain data. *)
Fixpoint toStr (v : JsValue) : string :=
  match v with
  | JUndefined => "undefined"
  | JNull => "null"
  | JBool true => "true"
  | JBool false => "false"
  | JNum n => num_to_string n
  | JStr s => s
  | JArr items =>
      join "," (map (fun x => match x with
                              | JUndefined | JNull => ""
                              | _ => toStr x
                              end) items)
  | JObj _ => "[object Object]"
  | JFun src => src
  end.

(** Truthiness (ToBoolean). *)
Definition truthy (v : JsValue) : bool :=
  match v with
  | JUndefined | JNull => false
  | JBool b => b
  | JNum (Fin z) => negb (Z.eqb z 0)
  | JNum NaN | JNum NegZero => false
  | JNum _ => true
  | JStr s => negb (String.eqb s "")
  | JArr _ | JObj _ | JFun _ => true
  end.

(** [typeof v === 'object'] *)
Definition typeof_object (v : JsValue) : bool :=
  match v with
  | JNull | JArr _ | JObj _ => true
  | _ => false
  end.

(** [typeof v === 'function'] *)
Definition typeof_function (v : JsValue) : bool :=
  match v with
  | JFun _ => true
  | _ => false
  end.

(** [v === null] *)
Definition is_null (v : JsValue) : bool :=
  match v with
  | JNull => true
  | _ => false
  end.

(** [Array.isArray(v)] *)
Definition isArray (v : JsValue) : bool :=
  match v with
  | JArr _ => true
  | _ => false
  end.

Fixpoint assoc (k : string) (ps : list (string * JsValue)) : option JsValue :=
  match ps with
  | [] => None
  | (k', v) :: rest => if String.eqb k k' then Some v else assoc k rest
  end.

(** [k in v], for the property names the sources ask about ([id], [tb],
    [result], [status], [count]): none of them lives on a prototype, so the
    answer is own-property membership. *)
Definition has_prop (k : string) (v : JsValue) : bool :=
  match v with
  | JObj ps => match assoc k ps with Some _ => true | None => false end
  | _ => false
  end.

(** [v.k] for the same property names. *)
Definition get_prop (k : string) (v : JsValue) : JsValue :=
  match v with
  | JObj ps => match assoc k ps with Some x => x | None => JUndefined end
  | _ => JUndefined
  end.

(** [o.k = x] on an object: an existing property keeps its place, a new one
    is appended. *)
Fixpoint set_assoc (k : string) (x : JsValue) (ps : list (string * JsValue))
  : list (string * JsValue) :=
  match ps with
  | [] => [(k, x)]
  | (k', v) :: rest =>
      if String.eqb k k' then (k', x) :: rest else (k', v) :: set_assoc k x rest
  end.

Definition set_prop (k : string) (x : JsValue) (v : JsValue) : JsValue :=
  match v with
  | JObj ps => JObj (set_assoc k x ps)
  | _ => v
  end.

(** [arr[i]] *)
Definition index (i : nat) (items : list JsValue) : JsValue :=
  nth i items JUndefined.

(** [Object.assign(target, source)] on property lists. *)
Definition assign (target : list (string * JsValue)) (source : JsValue)
  : list (string * JsValue) :=
  match source with
  | JObj ps => fold_left (fun acc kv => set_assoc (fst kv) (snd kv) acc) ps target
  | _ => target
  end.

(** ** Strings *)

(** [s.startsWith(p)] *)
Definition startsWith (s p : string) : bool := String.prefix p s.

(** [s.endsWith(p)] *)
Definition endsWith (s p : string) : bool :=
  let ls := String.length s in
  let lp := String.length p in
  Nat.leb lp ls && String.eqb (substring (ls - lp) lp s) p.

(** [s.includes(p)] *)
Definition includes (s p : string) : bool :=
  match String.index 0 p s with
  | Some _ => true
  | None => match p with EmptyString => true | _ => false end
  end.

(** A relative index of [slice], resolved against the length. *)
Definition clamp_index (len : nat) (i : Z) : nat :=
  if (i <? 0)%Z then Z.to_nat (Z.max (Z.of_nat len + i) 0)
  else Nat.min (Z.to_nat i) len.

(** [s.slice(b, e)]; [e = None] is the one-argument form. *)
Definition slice (s : string) (b : Z) (e : option Z) : string :=
  let len := String.length s in
  let from := clamp_index len b in
  let to := match e with Some i => clamp_index len i | None => len end in
  substring from (to - from) s.

(** ** JSON.stringify *)

Definition hex_digit (n : nat) : ascii :=
  match n with
  | 0 => "0" | 1 => "1" | 2 => "2" | 3 => "3" | 4 => "4" | 5 => "5"
  | 6 => "6" | 7 => "7" | 8 => "8" | 9 => "9" | 10 => "a" | 11 => "b"
  | 12 => "c" | 13 => "d" | 14 => "e" | _ => "f"
  end%char.

(** The double-quote character, as a string. *)
Definition dquote : string := String (ascii_of_nat 34) EmptyString.

(** The escape of one character inside a JSON string literal. *)
Definition escape_char (c : ascii) : string :=
  let n := nat_of_ascii c in
  if Nat.eqb n 34 then "\" ++ dquote
  else if Nat.eqb n 92 then "\\"
  else if Nat.eqb n 8 then "\b"
  else if Nat.eqb n 12 then "\f"
  else if Nat.eqb n 10 then "\n"
  else if Nat.eqb n 13 then "\r"
  else if Nat.eqb n 9 then "\t"
  else if Nat.ltb n 32 then
    "\u00" ++ String (hex_digit (n / 16)) (String (hex_digit (n mod 16)) "")
  else String c "".

Fixpoint escape (s : string) : string :=
  match s with
  | EmptyString => ""
  | String c rest => escape_char c ++ escape rest
  end.

(** [JSON.stringify(s)] for a string: the quoted literal. *)
Definition quote (s : string) : string := dquote ++ escape s ++ dquote.

(** [JSON.stringify(v)]; [None] is the result [undefined]. *)
Fixpoint stringify (v : JsValue) : option string :=
  match v with
  | JUndefined => None
  | JFun _ => None
  | JNull => Some "null"
  | JBool true => Some "true"
  | JBool false => Some "false"
  | JNum (NaN | PosInf | NegInf) => Some "null"
  | JNum n => Some (num_to_string n)
  | JStr s => Some (quote s)
  | JArr items =>
      Some ("[" ++ join "," (map (fun x => match stringify x with
                                           | Some t => t
                                           | None => "null"
                                           end) items) ++ "]")
  | JObj ps =>
      Some ("{" ++ join ","
              ((fix members (l : list (string * JsValue)) : list string :=
                  match l with
                  | [] => []
                  | (k, x) :: rest =>
                      match stringify x with
                      | Some t => (quote k ++ ":" ++ t) :: members rest
                      | None => members rest
                      end
                  end) ps) ++ "}")
  end.

(** A template literal hole [${e}] where [e] may be [undefined]. *)
Definition interp (o : option string) : string :=
  match o with
  | Some s => s
  | None => "undefined"
  end.

(** An array element inside [join], where [undefined] renders empty. *)
Definition join_item (o : option string) : string :=
  match o with
  | Some s => s
  | None => ""
  end.

(** ** Values used where the source expects an array *)

(** [v[0]] on a value that is not [null] or [undefined]. *)
Definition elem0 (v : JsValue) : JsValue :=
  match v with
  | JArr items => index 0 items
  | JStr (String c _) => JStr (String c "")
  | JObj ps => match assoc "0" ps with Some x => x | None => JUndefined end
  | _ => JUndefined
  end.

(** [v.length] on plain data. *)
Definition length_of (v : JsValue) : JsValue :=
  match v with
  | JArr items => JNum (Fin (Z.of_nat (List.length items)))
  | JStr s => JNum (Fin (Z.of_nat (String.length s)))
  | JObj ps => match assoc "length" ps with Some x => x | None => JUndefined end
  | _ => JUndefined
  end.

(** [v === 0] *)
Definition is_zero (v : JsValue) : bool :=
  match v with
  | JNum (Fin z) => Z.eqb z 0
  | JNum NegZero => true
  | _ => false
  end.

(** [a || b] *)
Definition or_else (a b : JsValue) : JsValue := if truthy a then a else b.

Section ToNumber.
(** StringToNumber, the numeric reading of a string, is left to the runtime. *)
Variable StringToNumber : string -> JsNum.

(** The abstract operation ToNumber on plain data. *)
Definition ToNumber (v : JsValue) : JsNum :=
  match v with
  | JUndefined => NaN
  | JNull => Fin 0
  | JBool true => Fin 1
  | JBool false => Fin 0
  | JNum n => n
  | JStr s => StringToNumber s
  | JArr _ | JObj _ | JFun _ => StringToNumber (toStr v)
  end.

(** [v > 0] *)
Definition gt_zero (v : JsValue) : bool :=
  match ToNumber v with
  | Fin z => Z.ltb 0 z
  | PosInf | Frac false _ _ => true
  | _ => false
  end.
End ToNumber.

(** [s.split(sep)] for a one-character separator. *)
Fixpoint split (sep : ascii) (s : string) : list string :=
  match s with
  | EmptyString => [EmptyString]
  | String c rest =>
      if Ascii.eqb c sep then EmptyString :: split sep rest
      else match split sep rest with
           | piece :: pieces => String c piece :: pieces
           | [] => [String c EmptyString]
           end
  end.

End Js.

(* ================================================================== *)
(** * Effects: a world threaded through calls that may throw *)
(* ================================================================== *)

Module Eff.
Import Js.

(** The identity of a [Surreal] client object. *)
Definition Handle : Type := nat.

(** What the sources throw, and what the client library rejects with. *)
Inductive Err : Type :=
| StoreError (msg : string)          (* a rejection of the client library *)
| NotInitialized                     (* getSurrealDB before init *)
| CreateNoResult                     (* add / create: no record returned *)
| InvalidId (id : string)            (* update with an empty id *)
| RecordNotFound (recordId : string) (* update: the record does not exist *)
| ModelNoId                          (* BaseModel.update without an id *)
| TypeError (what : string).         (* a method missing on a value *)

Inductive Res (A : Type) : Type :=
| Ok (a : A)
| Throw (e : Err).
Arguments Ok {A} a.
Arguments Throw {A} e.

(** The operation a [console.error] line belongs to. *)
Inductive Op : Type :=
| OpAdd | OpAddMany | OpFindById | OpFindAll | OpFindBy | OpFindOne
| OpUpdate | OpUpdateMany | OpUpdateBy | OpUpsert | OpDelete | OpDeleteAll
| OpDeleteMany | OpDeleteBy | OpQuery | OpCount | OpPaginate.

(** One [console.error] line. *)
Inductive LogEntry : Type :=
| LogConnectFailed (e : Err)                      (* getDb *)
| LogInitFailed (e : Err)                         (* initSurrealDB *)
| LogInvalidId (id : string)                      (* findById, delete *)
| LogQueryError (detail : string)                 (* a status 'ERR' answer *)
| LogFailed (op : Op) (table : string) (id : option string) (e : Err).

(** One call into the client library. *)
Inductive Call : Type :=
| CallNew (h : Handle)
| CallConnect (h : Handle) (url username password : string)
| CallUse (h : Handle) (namespace database : string)
| CallClose (h : Handle)
| CallQuery (h : Handle) (q : string)
| CallCreate (h : Handle) (table : string) (data : JsValue)
| CallSelect (h : Handle) (thing : string)
| CallUpdate (h : Handle) (thing : string) (data : JsValue)
| CallDelete (h : Handle) (thing : string).

(** The client library [surrealdb], over a store state [S].  Every method
    but [close] may reject; [close] resolves, which is what [getDb] relies
    on when it awaits it, unguarded, inside its own [catch]. *)
Record Client (S : Type) : Type := {
  new_surreal : S -> Handle * S;
  connect : Handle -> string -> string -> string -> S -> Res unit * S;
  use : Handle -> string -> string -> S -> Res unit * S;
  close : Handle -> S -> S;
  query : Handle -> string -> S -> Res (list JsValue) * S;
  create : Handle -> string -> JsValue -> S -> Res JsValue * S;
  select : Handle -> string -> S -> Res JsValue * S;
  update_ : Handle -> string -> JsValue -> S -> Res JsValue * S;
  delete_ : Handle -> string -> S -> Res JsValue * S
}.
Arguments new_surreal {S}.
Arguments connect {S}.
Arguments use {S}.
Arguments close {S}.
Arguments query {S}.
Arguments create {S}.
Arguments select {S}.
Arguments update_ {S}.
Arguments delete_ {S}.

(** What a claim about a record being gone takes of the store behind the
    client: a [DELETE] of a record id that the store completes removes the
    record, so that a [SELECT] of the same record id that it completes next
    returns no row; and likewise for the [delete] and [select] methods. *)
Definition removes_deleted {S} (cl : Client S) : Prop :=
  forall h rid s r s',
    query cl h ("DELETE " ++ rid)%string s = (Ok r, s') ->
    forall res s'',
      query cl h ("SELECT * FROM " ++ rid)%string s' = (Ok res, s'') ->
      res = [JArr []].

Definition removes_deleted_thing {S} (cl : Client S) : Prop :=
  forall h rid s r s',
    delete_ cl h rid s = (Ok r, s') ->
    forall v s'', select cl h rid s' = (Ok v, s'') -> v = JUndefined.

(** The process: the module-level [dbInstance], the store behind the client,
    the console, and the journal of calls made to the client. *)
Record World (S : Type) : Type := {
  dbInstance : option Handle;
  store : S;
  console : list LogEntry;
  calls : list Call
}.
Arguments dbInstance {S}.
Arguments store {S}.
Arguments console {S}.
Arguments calls {S}.

Definition M (S A : Type) : Type := World S -> Res A * World S.

Definition ret {S A} (a : A) : M S A := fun w => (Ok a, w).

Definition bind {S A B} (m : M S A) (k : A -> M S B) : M S B :=
  fun w => match m w with
           | (Ok a, w') => k a w'
           | (Throw e, w') => (Throw e, w')
           end.

Definition throw {S A} (e : Err) : M S A := fun w => (Throw e, w).

(** [try { m } catch (error) { h error }] *)
Definition try_catch {S A} (m : M S A) (h : Err -> M S A) : M S A :=
  fun w => match m w with
           | (Ok a, w') => (Ok a, w')
           | (Throw e, w') => h e w'
           end.

(** The world after one more console line. *)
Definition with_log {S} (w : World S) (l : LogEntry) : World S :=
  {| dbInstance := dbInstance w; store := store w;
     console := console w ++ [l]; calls := calls w |}.

(** The world after a call [c] that left the store in [s]. *)
Definition with_call {S} (w : World S) (c : Call) (s : S) : World S :=
  {| dbInstance := dbInstance w; store := s;
     console := console w; calls := calls w ++ [c] |}.

(** [console.error(...)] *)
Definition log {S} (l : LogEntry) : M S unit :=
  fun w => (Ok tt, with_log w l).

Definition get_instance {S} : M S (option Handle) :=
  fun w => (Ok (dbInstance w), w).

Definition set_instance {S} (i : option Handle) : M S unit :=
  fun w => (Ok tt, {| dbInstance := i; store := store w;
                      console := console w; calls := calls w |}).

(** A call into the client: the store moves, the journal grows. *)
Definition call {S A} (c : Call) (f : S -> Res A * S) : M S A :=
  fun w => let (r, s') := f (store w) in (r, with_call w c s').

(** [await Promise.all(ms)] over the calls of [async] methods: every
    member runs, the members making their calls to the client in list order;
    the batch resolves to all results when every member does and is rejected
    otherwise.  Members are settled here in list order, the first rejection
    in that order being the one the batch is rejected with; in the source
    the rejection that comes first in time wins, and the console lines of
    members that settle later come later.  What is proved of a batch below
    depends on neither. *)
Fixpoint promise_all {S A} (ms : list (M S A)) : M S (list A) :=
  match ms with
  | [] => ret []
  | m :: rest =>
      fun w => match m w with
               | (r, w1) =>
                   match promise_all rest w1 with
                   | (rs, w2) =>
                       (match r, rs with
                        | Ok a, Ok l => Ok (a :: l)
                        | Throw e, _ => Throw e
                        | Ok _, Throw e => Throw e
                        end, w2)
                   end
               end
  end.

(** [await Promise.all([a, b])] for two members of different types, settled
    in the same way. *)
Definition promise_both {S A B} (a : M S A) (b : M S B) : M S (A * B) :=
  fun w => match a w with
           | (ra, w1) =>
               match b w1 with
               | (rb, w2) =>
                   (match ra, rb with
                    | Ok x, Ok y => Ok (x, y)
                    | Throw e, _ => Throw e
                    | Ok _, Throw e => Throw e
                    end, w2)
               end
           end.

Definition is_ok {A} (r : Res A) : bool :=
  match r with
  | Ok _ => true
  | Throw _ => false
  end.

End Eff.

Declare Scope eff_scope.
Delimit Scope eff_scope with eff.
Notation "x <- m ;; k" := (Eff.bind m (fun x => k))
  (at level 61, m at next level, right associativity) : eff_scope.
Notation "m ;; k" := (Eff.bind m (fun _ => k))
  (at level 61, right associativity) : eff_scope.

(* ================================================================== *)
(** * The connection manager *)
(* ================================================================== *)

Module Conn.
Import Js Eff.
Local Open Scope eff_scope.

Record DbConfig : Type := {
  url : string;
  namespace : string;
  database : string;
  username : string;
  password : string
}.

Definition DEFAULT_CONFIG : DbConfig := {|
  url := "ws://localhost:8000/rpc";
  namespace := "test";
  database := "test";
  username := "root";
  password := "root"
|}.

Section WithClient.
Context {S : Type} (cl : Client S).

(** [new Surreal()] *)
Definition newSurreal : M S Handle :=
  fun w => let (h, s') := new_surreal cl (store w) in
           (Ok h, with_call w (CallNew h) s').

(** [await db.close()] *)
Definition closeHandle (h : Handle) : M S unit :=
  call (CallClose h) (fun s => (Ok tt, close cl h s)).

Definition getDb (config : DbConfig) : M S Handle :=
  db <- newSurreal ;;
  try_catch
    (call (CallConnect db (url config) (username config) (password config))
          (connect cl db (url config) (username config) (password config)) ;;
     call (CallUse db (namespace config) (database config))
          (use cl db (namespace config) (database config)) ;;
     ret db)
    (fun err =>
       log (LogConnectFailed err) ;;
       closeHandle db ;;
       throw err).

Definition initSurrealDB : M S Handle :=
  inst <- get_instance ;;
  match inst with
  | Some h => ret h
  | None =>
      try_catch
        (h <- getDb DEFAULT_CONFIG ;;
         set_instance (Some h) ;;
         ret h)
        (fun error =>
           log (LogInitFailed error) ;;
           set_instance None ;;
           throw error)
  end.

Definition isSurrealDBInitialized : M S bool :=
  inst <- get_instance ;;
  ret (match inst with Some _ => true | None => false end).

Definition getSurrealDB : M S Handle :=
  inst <- get_instance ;;
  match inst with
  | None => throw NotInitialized
  | Some h => ret h
  end.

Definition closeSurrealDB : M S unit :=
  inst <- get_instance ;;
  match inst with
  | Some h => closeHandle h ;; set_instance None
  | None => ret tt
  end.

(** The three entry points, as requests a client of the module can make. *)
Inductive Request : Type :=
| ReqInit
| ReqGet
| ReqClose.

(** What a request came back with. *)
Inductive Reply : Type :=
| Returned (h : option Handle)
| Failed (e : Err).

Definition serve (r : Request) (w : World S) : Reply * World S :=
  match r with
  | ReqInit => match initSurrealDB w with
               | (Ok h, w') => (Returned (Some h), w')
               | (Throw e, w') => (Failed e, w')
               end
  | ReqGet => match getSurrealDB w with
              | (Ok h, w') => (Returned (Some h), w')
              | (Throw e, w') => (Failed e, w')
              end
  | ReqClose => match closeSurrealDB w with
                | (Ok _, w') => (Returned None, w')
                | (Throw e, w') => (Failed e, w')
                end
  end.

(** A session: requests served one after the other; every request with its
    reply, in order, and the world at the end. *)
Fixpoint session (rs : list Request) (w : World S)
  : list (Request * Reply) * World S :=
  match rs with
  | [] => ([], w)
  | r :: rest =>
      let (reply, w') := serve r w in
      let (history, w'') := session rest w' in
      ((r, reply) :: history, w'')
  end.

End WithClient.

(** [dbInstance !== null], read off a world. *)
Definition initialised {S} (w : World S) : bool :=
  match dbInstance w with
  | Some _ => true
  | None => false
  end.

(** The module as loaded: [let dbInstance = null]. *)
Definition boot {S} (s : S) : World S :=
  {| dbInstance := None; store := s; console := []; calls := [] |}.

(** The contract in the words of the specification: scanning a history of
    requests and replies, the manager is initialised when an [init] has
    succeeded and neither a failed [init] nor a [close] came after it. *)
Fixpoint initialised_after (history : list (Request * Reply)) (before : bool) : bool :=
  match history with
  | [] => before
  | (ReqInit, Returned _) :: rest => initialised_after rest true
  | (ReqInit, Failed _) :: rest => initialised_after rest false
  | (ReqGet, _) :: rest => initialised_after rest before
  | (ReqClose, _) :: rest => initialised_after rest false
  end.

End Conn.

(* ================================================================== *)
(** * SurrealService, [src/models/db/surreal.ts] *)
(* ================================================================== *)

(** Query conditions, shared by both versions of the service. *)
Module Query.
Import Js.

Inductive QueryOperator : Type :=
| OpEq | OpNe | OpGt | OpGe | OpLt | OpLe | OpLike | OpIn | OpNotIn.

Definition operator_text (o : QueryOperator) : string :=
  match o with
  | OpEq => "="
  | OpNe => "!="
  | OpGt => ">"
  | OpGe => ">="
  | OpLt => "<"
  | OpLe => "<="
  | OpLike => "LIKE"
  | OpIn => "IN"
  | OpNotIn => "NOT IN"
  end.

Record QueryCondition : Type := {
  field : string;
  operator : option QueryOperator;
  value : JsValue
}.

(** [Partial<T> | QueryCondition[]]: the source tells them apart with
    [Array.isArray]. *)
Inductive Conditions : Type :=
| ByFields (entries : list (string * JsValue))
| ByTriples (conds : list QueryCondition).

(** The body of the [map] callback over a [QueryCondition[]]. *)
Definition renderCondition (cond : QueryCondition) : string :=
  let field := field cond in
  let operator := match operator cond with Some o => o | None => OpEq end in
  match operator with
  | OpIn | OpNotIn =>
      let values := match value cond with
                    | JArr items => items
                    | v => [v]
                    end in
      let value := "[" ++ join ", " (map (fun v => join_item (stringify v)) values) ++ "]" in
      field ++ " " ++ operator_text operator ++ " " ++ value
  | OpLike =>
      let pattern := toStr (value cond) in
      if startsWith pattern "%" && endsWith pattern "%" then
        let searchStr := slice pattern 1 (Some (-1)%Z) in
        "string::contains(" ++ field ++ ", " ++ interp (stringify (JStr searchStr)) ++ ")"
      else if startsWith pattern "%" then
        let searchStr := slice pattern 1 None in
        "string::ends_with(" ++ field ++ ", " ++ interp (stringify (JStr searchStr)) ++ ")"
      else if endsWith pattern "%" then
        let searchStr := slice pattern 0 (Some (-1)%Z) in
        "string::starts_with(" ++ field ++ ", " ++ interp (stringify (JStr searchStr)) ++ ")"
      else
        field ++ " = " ++ interp (stringify (value cond))
  | _ =>
      let value := interp (stringify (value cond)) in
      field ++ " " ++ operator_text operator ++ " " ++ value
  end.

Definition buildWhereClause (conditions : Conditions) : string :=
  match conditions with
  | ByTriples conds => join " AND " (map renderCondition conds)
  | ByFields entries =>
      join " AND "
        (map (fun kv => fst kv ++ " = " ++ interp (stringify (snd kv))) entries)
  end.

(** [Object.entries(data).map(([key, value]) => `${key} = ${JSON.stringify(value)}`).join(', ')] *)
Definition renderAssignments (data : list (string * JsValue)) : string :=
  join ", " (map (fun kv => fst kv ++ " = " ++ interp (stringify (snd kv))) data).

(** The record id a bare key or a full id stands for. *)
Definition recordIdOf (table id : string) : string :=
  if includes id ":" then id else table ++ ":" ++ id.

End Query.

Module Service.
Import Js Eff Query.
Local Open Scope eff_scope.

(** An instance: the handle captured by the constructor and the table. *)
Record SurrealService : Type := {
  db : Handle;
  table : string
}.

Inductive Direction : Type :=
| ASC
| DESC.

Definition direction_text (d : Direction) : string :=
  match d with
  | ASC => "ASC"
  | DESC => "DESC"
  end.

(** [{ field: string; direction?: 'ASC' | 'DESC' }] *)
Record OrderBy : Type := {
  order_field : string;
  direction : option Direction
}.

Record PaginateResult : Type := {
  data : JsValue;
  total : JsValue;
  page : JsNum;
  pageSize : JsNum;
  totalPages : JsNum
}.

(** [formatRecord]: make sure [id] is a string. *)
Definition formatRecord (record : JsValue) : JsValue :=
  if truthy record && typeof_object record && has_prop "id" record then
    let rid := get_prop "id" record in
    if typeof_object rid && negb (is_null rid) && has_prop "id" rid && has_prop "tb" rid then
      set_prop "id" (JStr (toStr (get_prop "tb" rid) ++ ":" ++ toStr (get_prop "id" rid))) record
    else
      set_prop "id" (JStr (toStr rid)) record
  else record.

(** [records.map((r) => this.formatRecord(r))]: a [TypeError] when the value
    has no [map]. *)
Definition mapFormat {S} (records : JsValue) : M S (list JsValue) :=
  match records with
  | JArr items => ret (map formatRecord items)
  | _ => throw (TypeError "map is not a function")
  end.

(** The test [formatRecord] makes for a [{tb, id}] identifier. *)
Definition composite (rid : JsValue) : bool :=
  typeof_object rid && negb (is_null rid) && has_prop "id" rid && has_prop "tb" rid.

(** [records[0]] where [records] is [Array.isArray(result) ? result : [result]]. *)
Definition created (result : JsValue) : JsValue :=
  index 0 (match result with JArr items => items | r => [r] end).

(** A record as [formatRecord] hands it back. *)
Definition formatted (r : JsValue) : Prop := exists r0, r = formatRecord r0.

(** The record's [id], when it has one, is a string. *)
Definition stringId (r : JsValue) : Prop :=
  has_prop "id" r = true -> exists s, get_prop "id" r = JStr s.

(** What [findById] reads out of the answer to its [SELECT]: the first
    record of [result[0].result] or of [result[0]], formatted, or [null]. *)
Definition firstRecord (result : list JsValue) : option JsValue :=
  let firstResult := index 0 result in
  if truthy firstResult && typeof_object firstResult then
    if has_prop "result" firstResult then
      let records := or_else (get_prop "result" firstResult) (JArr []) in
      if truthy (elem0 records) then Some (formatRecord (elem0 records)) else None
    else if isArray firstResult then
      if truthy (elem0 firstResult) then Some (formatRecord (elem0 firstResult))
      else None
    else None
  else None.

(** The statement [count] sends. *)
Definition countQuery (this : SurrealService) (conditions : option Conditions)
  : string :=
  match conditions with
  | Some c => "SELECT count() FROM " ++ table this ++ " WHERE "
              ++ buildWhereClause c ++ " GROUP ALL"
  | None => "SELECT count() FROM " ++ table this ++ " GROUP ALL"
  end.

Section WithClient.
Context {S : Type} (cl : Client S).
Variable StringToNumber : string -> JsNum.

(** [new SurrealService(table)] *)
Definition construct (table : string) : M S SurrealService :=
  h <- Conn.getSurrealDB ;;
  ret {| db := h; table := table |}.

(** [await this.db.query(q)] *)
Definition dbQuery (this : SurrealService) (q : string) : M S (list JsValue) :=
  call (CallQuery (db this) q) (query cl (db this) q).

Definition add (this : SurrealService) (data : JsValue) : M S JsValue :=
  try_catch
    (result <- call (CallCreate (db this) (table this) data)
                    (create cl (db this) (table this) data) ;;
     let records := match result with JArr items => items | r => [r] end in
     if negb (truthy (index 0 records)) then throw CreateNoResult
     else ret (formatRecord (index 0 records)))
    (fun error => log (LogFailed OpAdd (table this) None error) ;; throw error).

Definition addMany (this : SurrealService) (dataArray : list JsValue)
  : M S (list JsValue) :=
  try_catch
    (promise_all (map (fun data => add this data) dataArray))
    (fun error => log (LogFailed OpAddMany (table this) None error) ;; throw error).

Definition findById (this : SurrealService) (id : string) : M S (option JsValue) :=
  try_catch
    (if negb (truthy (JStr id)) then
       log (LogInvalidId id) ;; ret None
     else
       let recordId := recordIdOf (table this) id in
       let query := "SELECT * FROM " ++ recordId in
       result <- dbQuery this query ;;
       ret (firstRecord result))
    (fun error => log (LogFailed OpFindById (table this) (Some id) error) ;; ret None).

Definition findBy (this : SurrealService) (conditions : Conditions)
  : M S (list JsValue) :=
  try_catch
    (let whereClause := buildWhereClause conditions in
     let query := "SELECT * FROM " ++ table this ++ " WHERE " ++ whereClause in
     result <- dbQuery this query ;;
     let firstResult := index 0 result in
     if truthy firstResult && typeof_object firstResult then
       if has_prop "result" firstResult then
         mapFormat (or_else (get_prop "result" firstResult) (JArr []))
       else if has_prop "status" firstResult
               && match get_prop "status" firstResult with
                  | JStr st => String.eqb st "ERR"
                  | _ => false
                  end then
         log (LogQueryError
                (toStr (or_else (get_prop "detail" firstResult)
                                (get_prop "message" firstResult)))) ;;
         ret []
       else if isArray firstResult then mapFormat firstResult
       else mapFormat (JArr result)
     else mapFormat (JArr result))
    (fun error => log (LogFailed OpFindBy (table this) None error) ;; throw error).

Definition findOne (this : SurrealService) (conditions : Conditions)
  : M S (option JsValue) :=
  try_catch
    (results <- findBy this conditions ;;
     ret (if truthy (index 0 results) then Some (index 0 results) else None))
    (fun error => log (LogFailed OpFindOne (table this) None error) ;; throw error).

Definition exists_ (this : SurrealService) (id : string) : M S bool :=
  record <- findById this id ;;
  ret (match record with Some _ => true | None => false end).

Definition update (this : SurrealService) (id : string)
  (data : list (string * JsValue)) : M S JsValue :=
  try_catch
    (if negb (truthy (JStr id)) then throw (InvalidId id)
     else
       let recordId := recordIdOf (table this) id in
       let updateData := renderAssignments data in
       let query := "UPDATE " ++ recordId ++ " SET " ++ updateData ++ " RETURN AFTER" in
       result <- dbQuery this query ;;
       let firstResult := index 0 result in
       if truthy firstResult && typeof_object firstResult then
         if has_prop "result" firstResult then
           let records := or_else (get_prop "result" firstResult) (JArr []) in
           if is_zero (length_of records) then throw (RecordNotFound recordId)
           else ret (formatRecord (elem0 records))
         else if isArray firstResult then
           if is_zero (length_of firstResult) then throw (RecordNotFound recordId)
           else ret (formatRecord (elem0 firstResult))
         else throw (RecordNotFound recordId)
       else throw (RecordNotFound recordId))
    (fun error => log (LogFailed OpUpdate (table this) (Some id) error) ;; throw error).

Definition updateMany (this : SurrealService) (ids : list string)
  (data : list (string * JsValue)) : M S (list JsValue) :=
  try_catch
    (promise_all (map (fun id => update this id data) ids))
    (fun error => log (LogFailed OpUpdateMany (table this) None error) ;; throw error).

Definition updateBy (this : SurrealService) (conditions : Conditions)
  (data : list (string * JsValue)) : M S (list JsValue) :=
  try_catch
    (let whereClause := buildWhereClause conditions in
     let updateData := renderAssignments data in
     let query := "UPDATE " ++ table this ++ " SET " ++ updateData
                  ++ " WHERE " ++ whereClause ++ " RETURN AFTER" in
     result <- dbQuery this query ;;
     let firstResult := index 0 result in
     if truthy firstResult && typeof_object firstResult then
       if has_prop "result" firstResult then
         mapFormat (or_else (get_prop "result" firstResult) (JArr []))
       else if isArray firstResult then mapFormat firstResult
       else ret []
     else ret [])
    (fun error => log (LogFailed OpUpdateBy (table this) None error) ;; throw error).

Definition upsert (this : SurrealService) (id : string)
  (data : list (string * JsValue)) : M S JsValue :=
  try_catch
    (existing <- findById this id ;;
     if match existing with Some r => truthy r | None => false end then
       update this id data
     else
       add this (JObj data))
    (fun error => log (LogFailed OpUpsert (table this) (Some id) error) ;; throw error).

Definition delete (this : SurrealService) (id : string) : M S bool :=
  try_catch
    (if negb (truthy (JStr id)) then
       log (LogInvalidId id) ;; ret false
     else
       let recordId := recordIdOf (table this) id in
       let query := "DELETE " ++ recordId in
       dbQuery this query ;;
       ret true)
    (fun error => log (LogFailed OpDelete (table this) (Some id) error) ;; ret false).

Definition deleteAll (this : SurrealService) : M S bool :=
  try_catch
    (let query := "DELETE FROM " ++ table this in
     dbQuery this query ;;
     ret true)
    (fun error => log (LogFailed OpDeleteAll (table this) None error) ;; ret false).

Definition deleteMany (this : SurrealService) (ids : list string) : M S bool :=
  try_catch
    (promise_all (map (fun id => delete this id) ids) ;;
     ret true)
    (fun error => log (LogFailed OpDeleteMany (table this) None error) ;; ret false).

(** What [count] reads out of the answer to its statement. *)
Definition readCount (result : list JsValue) : JsValue :=
  let firstResult := index 0 result in
  if truthy firstResult && typeof_object firstResult then
    let data :=
      if has_prop "result" firstResult then
        or_else (get_prop "result" firstResult) (JArr [])
      else if isArray firstResult then firstResult
      else JArr [] in
    if gt_zero StringToNumber (length_of data)
       && negb (is_null (elem0 data))
       && typeof_object (elem0 data)
       && has_prop "count" (elem0 data) then
      or_else (get_prop "count" (elem0 data)) (JNum (Fin 0))
    else JNum (Fin 0)
  else JNum (Fin 0).

Definition count (this : SurrealService) (conditions : option Conditions)
  : M S JsValue :=
  try_catch
    (let query := countQuery this conditions in
     result <- dbQuery this query ;;
     ret (readCount result))
    (fun error => log (LogFailed OpCount (table this) None error) ;; throw error).

(** The statement [paginate] sends for the page of data. *)
Definition paginateQuery (this : SurrealService) (page pageSize : JsNum)
  (conditions : option Conditions) (orderBy : option OrderBy) : string :=
  let offset := num_mul (num_sub page (Fin 1)) pageSize in
  let query := "SELECT * FROM " ++ table this in
  let query := match conditions with
               | Some c => query ++ " WHERE " ++ buildWhereClause c
               | None => query
               end in
  let query := match orderBy with
               | Some o =>
                   let direction := match direction o with
                                    | Some d => d
                                    | None => ASC
                                    end in
                   query ++ " ORDER BY " ++ order_field o ++ " " ++ direction_text direction
               | None => query
               end in
  query ++ " LIMIT " ++ num_to_string pageSize ++ " START " ++ num_to_string offset.

(** The rows [paginate] reads out of the answer to its statement. *)
Definition readPage (dataResult : list JsValue) : JsValue :=
  let firstResult := index 0 dataResult in
  if truthy firstResult && typeof_object firstResult then
    if has_prop "result" firstResult then
      or_else (get_prop "result" firstResult) (JArr [])
    else if isArray firstResult then firstResult
    else JArr []
  else JArr dataResult.

Definition paginate (this : SurrealService) (page pageSize : option JsNum)
  (conditions : option Conditions) (orderBy : option OrderBy)
  : M S PaginateResult :=
  let page := match page with Some p => p | None => Fin 1 end in
  let pageSize := match pageSize with Some p => p | None => Fin 10 end in
  try_catch
    (let query := paginateQuery this page pageSize conditions orderBy in
     both <- promise_both (dbQuery this query) (count this conditions) ;;
     let dataResult := fst both in
     let countResult := snd both in
     let data := readPage dataResult in
     let totalPages := ceil_div (ToNumber StringToNumber countResult) pageSize in
     ret {| data := data; total := countResult; page := page;
            pageSize := pageSize; totalPages := totalPages |})
    (fun error => log (LogFailed OpPaginate (table this) None error) ;; throw error).

Definition findAll (this : SurrealService) : M S (list JsValue) :=
  try_catch
    (result <- call (CallSelect (db this) (table this))
                    (select cl (db this) (table this)) ;;
     ret (match result with JArr items => items | _ => [] end))
    (fun error => log (LogFailed OpFindAll (table this) None error) ;; throw error).

Definition existsBy (this : SurrealService) (conditions : Conditions) : M S bool :=
  record <- findOne this conditions ;;
  ret (match record with Some _ => true | None => false end).

(** The statement [deleteBy] sends. *)
Definition deleteByQuery (this : SurrealService) (conditions : Conditions) : string :=
  "DELETE FROM " ++ table this ++ " WHERE " ++ buildWhereClause conditions
  ++ " RETURN BEFORE".

Definition deleteBy (this : SurrealService) (conditions : Conditions) : M S JsValue :=
  try_catch
    (let query := deleteByQuery this conditions in
     result <- dbQuery this query ;;
     let firstResult := index 0 result in
     if truthy firstResult && typeof_object firstResult
        && negb (is_null firstResult) && has_prop "result" firstResult then
       let deleted := get_prop "result" firstResult in
       ret (if truthy deleted then length_of deleted else JNum (Fin 0))
     else ret (JNum (Fin 0)))
    (fun error => log (LogFailed OpDeleteBy (table this) None error) ;; throw error).

End WithClient.
End Service.

(* ================================================================== *)
(** * SurrealService, [src/utils/surreal.ts] *)
(* ================================================================== *)

(** The older service: [create] instead of [add], the client's [select],
    [update] and [delete] instead of statements, no [formatRecord]. *)
Module Legacy.
Import Js Eff Query.
Import Service (SurrealService, db, table, OrderBy, PaginateResult, paginateQuery).
Local Open Scope eff_scope.

(** The statement [count] sends. *)
Definition countQuery (this : SurrealService) (conditions : option Conditions)
  : string :=
  match conditions with
  | Some c => "SELECT count() FROM " ++ table this ++ " WHERE "
              ++ buildWhereClause c
  | None => "SELECT count() FROM " ++ table this
  end.

Section WithClient.
Context {S : Type} (cl : Client S).
Variable StringToNumber : string -> JsNum.

Definition dbQuery (this : SurrealService) (q : string) : M S (list JsValue) :=
  call (CallQuery (db this) q) (query cl (db this) q).

Definition create (this : SurrealService) (data : JsValue) : M S JsValue :=
  try_catch
    (result <- call (CallCreate (db this) (table this) data)
                    (Eff.create cl (db this) (table this) data) ;;
     let records := match result with JArr items => items | r => [r] end in
     if negb (truthy (index 0 records)) then throw CreateNoResult
     else ret (index 0 records))
    (fun error => log (LogFailed OpAdd (table this) None error) ;; throw error).

Definition findById (this : SurrealService) (id : string) : M S (option JsValue) :=
  try_catch
    (if negb (truthy (JStr id)) then
       log (LogInvalidId id) ;; ret None
     else
       let recordId := recordIdOf (table this) id in
       result <- call (CallSelect (db this) recordId) (select cl (db this) recordId) ;;
       let records := match result with JArr items => items | r => [r] end in
       ret (if truthy (index 0 records) then Some (index 0 records) else None))
    (fun error => log (LogFailed OpFindById (table this) (Some id) error) ;; ret None).

Definition findBy (this : SurrealService) (conditions : Conditions) : M S JsValue :=
  try_catch
    (let whereClause := buildWhereClause conditions in
     let query := "SELECT * FROM " ++ table this ++ " WHERE " ++ whereClause in
     result <- dbQuery this query ;;
     let firstResult := index 0 result in
     if truthy firstResult && typeof_object firstResult
        && has_prop "result" firstResult then
       ret (or_else (get_prop "result" firstResult) (JArr []))
     else ret (JArr []))
    (fun error => log (LogFailed OpFindBy (table this) None error) ;; throw error).

Definition update (this : SurrealService) (id : string)
  (data : list (string * JsValue)) : M S JsValue :=
  try_catch
    (if negb (truthy (JStr id)) then throw (InvalidId id)
     else
       let recordId := recordIdOf (table this) id in
       result <- call (CallUpdate (db this) recordId (JObj data))
                      (update_ cl (db this) recordId (JObj data)) ;;
       let records := match result with JArr items => items | r => [r] end in
       if negb (truthy (index 0 records)) then throw (RecordNotFound recordId)
       else ret (index 0 records))
    (fun error => log (LogFailed OpUpdate (table this) (Some id) error) ;; throw error).

Definition upsert (this : SurrealService) (id : string)
  (data : list (string * JsValue)) : M S JsValue :=
  try_catch
    (existing <- findById this id ;;
     if match existing with Some r => truthy r | None => false end then
       update this id data
     else
       create this (JObj data))
    (fun error => log (LogFailed OpUpsert (table this) (Some id) error) ;; throw error).

Definition delete (this : SurrealService) (id : string) : M S bool :=
  try_catch
    (if negb (truthy (JStr id)) then
       log (LogInvalidId id) ;; ret false
     else
       let recordId := recordIdOf (table this) id in
       call (CallDelete (db this) recordId) (delete_ cl (db this) recordId) ;;
       ret true)
    (fun error => log (LogFailed OpDelete (table this) (Some id) error) ;; ret false).

Definition deleteMany (this : SurrealService) (ids : list string) : M S bool :=
  try_catch
    (promise_all (map (fun id => delete this id) ids) ;;
     ret true)
    (fun error => log (LogFailed OpDeleteMany (table this) None error) ;; ret false).

(** What [count] reads out of the answer to its statement; reading [[0]] of
    a [result] that is [null] or [undefined] is a [TypeError]. *)
Definition readCount (result : list JsValue) : Res JsValue :=
  let firstResult := index 0 result in
  if truthy firstResult && typeof_object firstResult
     && has_prop "result" firstResult then
    let countResult := get_prop "result" firstResult in
    match countResult with
    | JUndefined | JNull => Throw (TypeError "cannot read properties of null")
    | _ =>
        let first := elem0 countResult in
        let c := match first with
                 | JUndefined | JNull => JUndefined
                 | _ => get_prop "count" first
                 end in
        Ok (or_else c (JNum (Fin 0)))
    end
  else Ok (JNum (Fin 0)).

Definition count (this : SurrealService) (conditions : option Conditions)
  : M S JsValue :=
  try_catch
    (let query := countQuery this conditions in
     result <- dbQuery this query ;;
     match readCount result with
     | Ok c => ret c
     | Throw e => throw e
     end)
    (fun error => log (LogFailed OpCount (table this) None error) ;; throw error).

(** The rows [paginate] reads out of the answer to its statement. *)
Definition readPage (dataResult : list JsValue) : JsValue :=
  let firstResult := index 0 dataResult in
  if truthy firstResult && typeof_object firstResult
     && has_prop "result" firstResult then
    or_else (get_prop "result" firstResult) (JArr [])
  else JArr [].

Definition paginate (this : SurrealService) (page pageSize : option JsNum)
  (conditions : option Conditions) (orderBy : option OrderBy)
  : M S PaginateResult :=
  let page := match page with Some p => p | None => Fin 1 end in
  let pageSize := match pageSize with Some p => p | None => Fin 10 end in
  try_catch
    (let query := paginateQuery this page pageSize conditions orderBy in
     both <- promise_both (dbQuery this query) (count this conditions) ;;
     let dataResult := fst both in
     let countResult := snd both in
     let data := readPage dataResult in
     let totalPages := ceil_div (ToNumber StringToNumber countResult) pageSize in
     ret {| Service.data := data; Service.total := countResult;
            Service.page := page; Service.pageSize := pageSize;
            Service.totalPages := totalPages |})
    (fun error => log (LogFailed OpPaginate (table this) None error) ;; throw error).

Definition updateBy (this : SurrealService) (conditions : Conditions)
  (data : list (string * JsValue)) : M S JsValue :=
  try_catch
    (let whereClause := buildWhereClause conditions in
     let updateData := renderAssignments data in
     let query := "UPDATE " ++ table this ++ " SET " ++ updateData
                  ++ " WHERE " ++ whereClause ++ " RETURN AFTER" in
     result <- dbQuery this query ;;
     let firstResult := index 0 result in
     if truthy firstResult && typeof_object firstResult
        && has_prop "result" firstResult then
       ret (or_else (get_prop "result" firstResult) (JArr []))
     else ret (JArr []))
    (fun error => log (LogFailed OpUpdateBy (table this) None error) ;; throw error).

End WithClient.
End Legacy.

(* ================================================================== *)
(** * The custom [query] of both services *)
(* ================================================================== *)

Module Custom.
Import Js Eff Query.
Import Service (SurrealService, db, table).
Local Open Scope eff_scope.

Section WithClient.
Context {S : Type} (cl : Client S).

(** [this.db.query(queryStr, vars)]: the client's [query] given bindings.
    The journal keeps the statement text of either form of the call. *)
Variable query_vars :
  Handle -> string -> list (string * JsValue) -> S -> Res (list JsValue) * S.

(** [vars ? await this.db.query(queryStr, vars) : await this.db.query(queryStr)] *)
Definition send (this : SurrealService) (queryStr : string)
  (vars : option (list (string * JsValue))) : M S (list JsValue) :=
  match vars with
  | Some v => call (CallQuery (db this) queryStr) (query_vars (db this) queryStr v)
  | None => call (CallQuery (db this) queryStr) (Eff.query cl (db this) queryStr)
  end.

(** [query] of [src/models/db/surreal.ts]; its console line names no table. *)
Definition query (this : SurrealService) (queryStr : string)
  (vars : option (list (string * JsValue))) : M S JsValue :=
  try_catch
    (result <- send this queryStr vars ;;
     let firstResult := index 0 result in
     if truthy firstResult && typeof_object firstResult then
       if has_prop "result" firstResult then ret (get_prop "result" firstResult)
       else if has_prop "status" firstResult
               && match get_prop "status" firstResult with
                  | JStr st => String.eqb st "ERR"
                  | _ => false
                  end then
         log (LogQueryError
                (toStr (or_else (get_prop "detail" firstResult)
                                (get_prop "message" firstResult)))) ;;
         ret (JArr [])
       else if isArray firstResult then ret firstResult
       else ret (JArr result)
     else ret (JArr result))
    (fun error => log (LogFailed OpQuery "" None error) ;; throw error).

(** [query] of [src/utils/surreal.ts] *)
Definition legacy_query (this : SurrealService) (queryStr : string)
  (vars : option (list (string * JsValue))) : M S JsValue :=
  try_catch
    (result <- send this queryStr vars ;;
     let firstResult := index 0 result in
     if truthy firstResult && typeof_object firstResult
        && has_prop "result" firstResult then
       ret (get_prop "result" firstResult)
     else ret (JArr []))
    (fun error => log (LogFailed OpQuery "" None error) ;; throw error).

End WithClient.
End Custom.

(* ================================================================== *)
(** * BaseModel, [src/models/BaseModel.ts] *)
(* ================================================================== *)

Module Model.
Import Js Eff Query.
Local Open Scope eff_scope.

(** An instance of a concrete subclass.  [_table] is the subclass's getter;
    [id] is the declared [id?: string]; [_service] is the lazily built
    service; [fields] are the remaining own enumerable properties, in order.
    A method that resolves hands back the instance as it has become; one
    that throws hands back nothing. *)
Record BaseModel : Type := {
  _table : string;
  id : option string;
  _service : option Service.SurrealService;
  fields : list (string * JsValue)
}.

(** The service object seen as a property value. *)
Definition serviceValue (s : option Service.SurrealService) : JsValue :=
  match s with
  | Some svc => JObj [("db", JNum (Fin (Z.of_nat (Service.db svc))));
                      ("table", JStr (Service.table svc))]
  | None => JNull
  end.

(** [this.id] *)
Definition idValue (this : BaseModel) : JsValue :=
  match id this with
  | Some s => JStr s
  | None => JUndefined
  end.

(** [Object.keys(this)] with the values: the own enumerable properties.
    Class fields are defined on the instance in the order of their
    declaration, those of [BaseModel] first, so [id] is an own property
    from the start, with the value [undefined] until it is set. *)
Definition ownProps (this : BaseModel) : list (string * JsValue) :=
  ("id", idValue this) :: ("_service", serviceValue (_service this)) :: fields this.

Definition toJSON (this : BaseModel) : list (string * JsValue) :=
  filter (fun kv =>
            (String.eqb (fst kv) "id" || negb (startsWith (fst kv) "_"))
            && negb (typeof_function (snd kv)))
         (ownProps this).

(** The names an instance answers to through its class: the accessors,
    which [Object.assign] cannot write (it throws a [TypeError]), the
    methods and [_service], which a property of the same name would
    replace, and [__proto__], which it would take for the prototype. *)
Definition class_names : list string :=
  ["_service"; "_table"; "service"; "shortId"; "add"; "update"; "delete"; "toJSON";
   "__proto__"].

(** A record none of whose properties bears such a name. *)
Definition plain_record (ps : list (string * JsValue)) : Prop :=
  forall k, In k class_names -> assoc k ps = None.

(** [Object.assign(this, result)] for a result that is a plain record or
    has no properties: [id] goes to the declared field, every other
    property of the result to [fields]. *)
Definition assignResult (this : BaseModel) (svc : Service.SurrealService)
  (result : JsValue) : BaseModel :=
  {| _table := _table this;
     id := match get_prop "id" result with
           | JStr s => Some s
           | _ => id this
           end;
     _service := Some svc;
     fields := assign (fields this)
                 (match result with
                  | JObj ps => JObj (filter (fun kv => negb (String.eqb (fst kv) "id")) ps)
                  | r => r
                  end) |}.

(** The [shortId] getter: the id without its table prefix. *)
Definition shortId (this : BaseModel) : option string :=
  if negb (truthy (idValue this)) then None
  else
    let id := toStr (idValue this) in
    if includes id ":" then nth_error (split ":"%char id) 1 else Some id.

Section WithClient.
Context {S : Type} (cl : Client S).

(** The [service] getter. *)
Definition service (this : BaseModel) : M S Service.SurrealService :=
  match _service this with
  | Some svc => ret svc
  | None => Service.construct (_table this)
  end.

Definition add (this : BaseModel) : M S BaseModel :=
  let data := toJSON this in
  svc <- service this ;;
  result <- Service.add cl svc (JObj data) ;;
  ret (assignResult this svc result).

Definition update (this : BaseModel) : M S BaseModel :=
  if negb (truthy (idValue this)) then throw ModelNoId
  else
    let data := toJSON this in
    svc <- service this ;;
    result <- Service.update cl svc (toStr (idValue this)) data ;;
    ret (assignResult this svc result).

Definition delete (this : BaseModel) : M S bool :=
  if negb (truthy (idValue this)) then ret false
  else
    svc <- service this ;;
    Service.delete cl svc (toStr (idValue this)).

End WithClient.
End Model.

(* ================================================================== *)
(** * An in-memory store *)
(* ================================================================== *)

(** A store that keeps records by record id and answers the statements the
    services send: single records, equality filters, counting, paging and
    field updates with scalar values; anything else is rejected as a parse
    error, and everything is rejected once the store is unreachable.
    Deleting a record that is not there is not an error, as in SurrealDB. *)
Module MemStore.
Import Js Eff.

Record Mem : Type := {
  rows : list (string * JsValue);
  next_key : nat;
  next_handle : Handle;
  reachable : bool
}.

Definition empty : Mem :=
  {| rows := []; next_key := 1; next_handle := 0; reachable := true |}.

Definition offline : Mem :=
  {| rows := []; next_key := 1; next_handle := 0; reachable := false |}.

Definition with_rows (m : Mem) (r : list (string * JsValue)) : Mem :=
  {| rows := r; next_key := next_key m; next_handle := next_handle m;
     reachable := reachable m |}.

Definition strip_prefix (p s : string) : option string :=
  if String.prefix p s
  then Some (substring (String.length p) (String.length s - String.length p) s)
  else None.

Definition strip_suffix (p s : string) : option string :=
  if endsWith s p
  then Some (substring 0 (String.length s - String.length p) s)
  else None.

(** [s] cut at the first occurrence of [sep]. *)
Definition cut (sep s : string) : option (string * string) :=
  match String.index 0 sep s with
  | Some i =>
      Some (substring 0 i s,
            substring (i + String.length sep)
                      (String.length s - (i + String.length sep)) s)
  | None => None
  end.

(** [s.split(sep)] *)
Fixpoint split_on (sep : string) (fuel : nat) (s : string) : list string :=
  match fuel with
  | 0 => [s]
  | Datatypes.S fuel' =>
      match cut sep s with
      | Some (a, b) => a :: split_on sep fuel' b
      | None => [s]
      end
  end.

Fixpoint digits (s : string) (acc : nat) : option nat :=
  match s with
  | EmptyString => Some acc
  | String c rest =>
      let n := nat_of_ascii c in
      if Nat.leb 48 n && Nat.leb n 57 then digits rest (10 * acc + (n - 48))
      else None
  end.

Definition parse_nat (s : string) : option nat :=
  match s with
  | EmptyString => None
  | _ => digits s 0
  end.

(** A scalar as [JSON.stringify] writes it: a keyword, an integer, or a
    string free of escapes. *)
Definition parse_scalar (s : string) : option JsValue :=
  if String.eqb s "true" then Some (JBool true)
  else if String.eqb s "false" then Some (JBool false)
  else if String.eqb s "null" then Some JNull
  else match parse_nat s with
       | Some n => Some (JNum (Fin (Z.of_nat n)))
       | None =>
           match strip_prefix "-" s with
           | Some t => match parse_nat t with
                       | Some n => Some (JNum (Fin (- Z.of_nat n)))
                       | None => None
                       end
           | None =>
               match strip_prefix dquote s with
               | Some t =>
                   match strip_suffix dquote t with
                   | Some inner =>
                       if includes inner dquote || includes inner "\"
                       then None else Some (JStr inner)
                   | None => None
                   end
               | None => None
               end
           end
       end.

Definition is_name (s : string) : bool :=
  negb (String.eqb s "") && negb (includes s ":") && negb (includes s " ").

Definition is_record_id (s : string) : bool :=
  includes s ":" && negb (includes s " ").

(** [f = v<sep>g = w ...], each side kept as written. *)
Definition parse_equalities (sep s : string) : option (list (string * string)) :=
  fold_right
    (fun part acc =>
       match cut " = " part, acc with
       | Some (f, v), Some l =>
           if is_name f && negb (String.eqb v "") then Some ((f, v) :: l) else None
       | _, _ => None
       end)
    (Some []) (split_on sep (String.length s) s).

Definition remove_row (rid : string) (r : list (string * JsValue))
  : list (string * JsValue) :=
  filter (fun kv => negb (String.eqb (fst kv) rid)) r.

Definition of_table (tb : string) (r : list (string * JsValue)) : list JsValue :=
  map snd (filter (fun kv => String.prefix (tb ++ ":") (fst kv)) r).

(** The row satisfies every [field = value] of the filter. *)
Definition satisfies (conds : list (string * string)) (row : JsValue) : bool :=
  forallb (fun fv => String.eqb (interp (stringify (get_prop (fst fv) row))) (snd fv))
          conds.

Definition reject {A} (msg : string) (m : Mem) : Res A * Mem :=
  (Throw (StoreError msg), m).

(** The rows [tb] or [tb WHERE f = v AND ...] stands for. *)
Definition source (src : string) (m : Mem) : Res (list JsValue) :=
  match cut " WHERE " src with
  | Some (tb, filter_text) =>
      if is_name tb then
        match parse_equalities " AND " filter_text with
        | Some conds => Ok (filter (satisfies conds) (of_table tb (rows m)))
        | None => Throw (StoreError "parse error")
        end
      else Throw (StoreError "parse error")
  | None =>
      if is_name src then Ok (of_table src (rows m))
      else Throw (StoreError "parse error")
  end.

Definition run_select (target : string) (m : Mem) : Res (list JsValue) * Mem :=
  if is_record_id target then
    (Ok [JArr match assoc target (rows m) with Some r => [r] | None => [] end], m)
  else
    match cut " LIMIT " target with
    | Some (src, rest) =>
        match cut " START " rest with
        | Some (l, st) =>
            match parse_nat l, parse_nat st, source src m with
            | Some limit, Some start, Ok found =>
                (Ok [JArr (firstn limit (skipn start found))], m)
            | _, _, Throw e => (Throw e, m)
            | _, _, _ => reject "parse error" m
            end
        | None => reject "parse error" m
        end
    | None =>
        match source target m with
        | Ok found => (Ok [JArr found], m)
        | Throw e => (Throw e, m)
        end
    end.

Definition run_count (target : string) (m : Mem) : Res (list JsValue) * Mem :=
  match strip_suffix " GROUP ALL" target with
  | Some src =>
      match source src m with
      | Ok found =>
          match List.length found with
          | 0 => (Ok [JArr []], m)
          | n => (Ok [JArr [JObj [("count", JNum (Fin (Z.of_nat n)))]]], m)
          end
      | Throw e => (Throw e, m)
      end
  | None => reject "parse error" m
  end.

(** [UPDATE rid SET f = v, ... RETURN AFTER]: the fields are set on the
    record when it is there; its [id] stays. *)
Definition run_update_statement (body : string) (m : Mem)
  : Res (list JsValue) * Mem :=
  match cut " SET " body with
  | Some (rid, rest) =>
      match strip_suffix " RETURN AFTER" rest with
      | Some assignments =>
          match parse_equalities ", " assignments with
          | Some sets =>
              if is_record_id rid then
                match assoc rid (rows m) with
                | Some (JObj old) =>
                    match fold_left
                            (fun acc fv =>
                               match acc, parse_scalar (snd fv) with
                               | Some ps, Some v =>
                                   if String.eqb (fst fv) "id" then Some ps
                                   else Some (set_assoc (fst fv) v ps)
                               | _, _ => None
                               end) sets (Some old) with
                    | Some ps =>
                        (Ok [JArr [JObj ps]],
                         with_rows m (map (fun kv => if String.eqb (fst kv) rid
                                                     then (rid, JObj ps) else kv)
                                          (rows m)))
                    | None => reject "parse error" m
                    end
                | _ => (Ok [JArr []], m)
                end
              else reject "parse error" m
          | None => reject "parse error" m
          end
      | None => reject "parse error" m
      end
  | None => reject "parse error" m
  end.

Definition run_query (h : Handle) (q : string) (m : Mem) : Res (list JsValue) * Mem :=
  if negb (reachable m) then reject "connection closed" m
  else
    match strip_prefix "DELETE " q with
    | Some rid =>
        if is_record_id rid
        then (Ok [JArr []], with_rows m (remove_row rid (rows m)))
        else reject "parse error" m
    | None =>
        match strip_prefix "SELECT * FROM " q with
        | Some target => run_select target m
        | None =>
            match strip_prefix "SELECT count() FROM " q with
            | Some target => run_count target m
            | None =>
                match strip_prefix "UPDATE " q with
                | Some body => run_update_statement body m
                | None => reject "parse error" m
                end
            end
        end
    end.

(** [create]: the record is stored under the id carried by the data, when
    it carries one, and under a fresh key otherwise; the stored record has a
    composite [{tb, id}] identifier. *)
Definition run_create (h : Handle) (tb : string) (data : JsValue) (m : Mem)
  : Res JsValue * Mem :=
  if negb (reachable m) then reject "connection closed" m
  else
    match data with
    | JObj ps =>
        let key := match assoc "id" ps with
                   | Some (JStr k) => k
                   | _ => "r" ++ num_to_string (Fin (Z.of_nat (next_key m)))
                   end in
        let rid := Query.recordIdOf tb key in
        let record :=
          JObj (set_assoc "id" (JObj [("tb", JStr tb); ("id", JStr key)]) ps) in
        (Ok (JArr [record]),
         {| rows := remove_row rid (rows m) ++ [(rid, record)];
            next_key := Datatypes.S (next_key m);
            next_handle := next_handle m; reachable := reachable m |})
    | _ => reject "data must be an object" m
    end.

Definition run_select_thing (h : Handle) (thing : string) (m : Mem)
  : Res JsValue * Mem :=
  if negb (reachable m) then reject "connection closed" m
  else if is_record_id thing then
    (Ok match assoc thing (rows m) with Some r => r | None => JUndefined end, m)
  else if is_name thing then (Ok (JArr (of_table thing (rows m))), m)
  else reject "parse error" m.

Definition run_update (h : Handle) (thing : string) (data : JsValue) (m : Mem)
  : Res JsValue * Mem :=
  if negb (reachable m) then reject "connection closed" m
  else
    match assoc thing (rows m), data with
    | Some (JObj old), JObj ps =>
        let record :=
          JObj (fold_left (fun acc kv => if String.eqb (fst kv) "id" then acc
                                         else set_assoc (fst kv) (snd kv) acc)
                          ps old) in
        (Ok record,
         with_rows m (map (fun kv => if String.eqb (fst kv) thing
                                     then (thing, record) else kv) (rows m)))
    | _, _ => (Ok JUndefined, m)
    end.

Definition run_delete (h : Handle) (thing : string) (m : Mem) : Res JsValue * Mem :=
  if negb (reachable m) then reject "connection closed" m
  else if is_record_id thing then
    (Ok match assoc thing (rows m) with Some r => r | None => JUndefined end,
     with_rows m (remove_row thing (rows m)))
  else reject "parse error" m.

Definition client : Client Mem := {|
  new_surreal := fun m =>
    (next_handle m,
     {| rows := rows m; next_key := next_key m;
        next_handle := Datatypes.S (next_handle m); reachable := reachable m |});
  connect := fun _ _ _ _ m =>
    if reachable m then (Ok tt, m) else reject "connection refused" m;
  use := fun _ _ _ m => (Ok tt, m);
  close := fun _ m => m;
  query := run_query;
  create := run_create;
  select := run_select_thing;
  update_ := run_update;
  delete_ := run_delete
|}.

(** StringToNumber restricted to unsigned decimal integers. *)
Definition string_to_number (s : string) : JsNum :=
  match s with
  | EmptyString => Fin 0
  | _ => match digits s 0 with
         | Some n => Fin (Z.of_nat n)
         | None => NaN
         end
  end.

(** A service over an already connected handle [0]. *)
Definition users : Service.SurrealService :=
  {| Service.db := 0; Service.table := "user" |}.

(** A world with the connection made. *)
Definition connected (m : Mem) : World Mem :=
  {| dbInstance := Some 0; store := m; console := []; calls := [] |}.

Definition alice : JsValue :=
  JObj [("name", JStr "Alice"); ("age", JNum (Fin 30))].

(** The store after [addMany] of five records. *)
Definition five_users : Mem :=
  Eval vm_compute in
    store (snd (Service.addMany client users [alice; alice; alice; alice; alice]
                  (connected empty))).

(** The first two of them, as stored. *)
Definition first_two : list JsValue :=
  Eval vm_compute in firstn 2 (of_table "user" (rows five_users)).

(** An instance of the [User] model that was never saved. *)
Definition unsaved : Model.BaseModel :=
  {| Model._table := "user"; Model.id := None; Model._service := None;
     Model.fields := [("name", JStr "Alice"); ("_draft", JBool true);
                ("greet", JFun "() => 'hi'")] |}.

(** The same instance once it carries an identifier. *)
Definition saved : Model.BaseModel :=
  {| Model._table := "user"; Model.id := Some "user:r1"; Model._service := None;
     Model.fields := Model.fields unsaved |}.

End MemStore.

(** A store that gives every statement the same answer, the one it holds. *)
Module Canned.
Import Js Eff.

Definition answer_value (s : Res (list JsValue)) : Res JsValue :=
  match s with
  | Ok l => Ok (JArr l)
  | Throw e => Throw e
  end.

Definition client : Client (Res (list JsValue)) := {|
  new_surreal := fun s => (0, s);
  connect := fun _ _ _ _ s => (Ok tt, s);
  use := fun _ _ _ s => (Ok tt, s);
  close := fun _ s => s;
  query := fun _ _ s => (s, s);
  create := fun _ _ _ s => (answer_value s, s);
  select := fun _ _ s => (answer_value s, s);
  update_ := fun _ _ _ s => (answer_value s, s);
  delete_ := fun _ _ s => (answer_value s, s)
|}.

(** A connected world over the answer [a]. *)
Definition world (a : Res (list JsValue)) : World (Res (list JsValue)) :=
  {| dbInstance := Some 0; store := a; console := []; calls := [] |}.

End Canned.

(* ================================================================== *)
(** * Properties *)
(* ================================================================== *)

(** ** Strings *)

Module StringFacts.
Import Js.

Lemma length_app (s t : string) :
  String.length (s ++ t) = String.length s + String.length t.
Proof. induction s as [|c s IH]; simpl; [reflexivity | now rewrite IH]. Qed.

Lemma substring_whole (s : string) : substring 0 (String.length s) s = s.
Proof. induction s as [|c s IH]; simpl; [reflexivity | now rewrite IH]. Qed.

Lemma substring_head (s t : string) :
  substring 0 (String.length s) (s ++ t) = s.
Proof.
  induction s as [|c s IH]; simpl.
  - destruct t; reflexivity.
  - now rewrite IH.
Qed.

Lemma substring_tail (s t : string) :
  substring (String.length s) (String.length t) (s ++ t) = t.
Proof.
  induction s as [|c s IH]; simpl.
  - apply substring_whole.
  - exact IH.
Qed.

Lemma startsWith_app (p s : string) : startsWith (p ++ s) p = true.
Proof.
  unfold startsWith. apply prefix_correct. apply substring_head.
Qed.

Lemma endsWith_app (s p : string) : endsWith (s ++ p) p = true.
Proof.
  unfold endsWith. rewrite length_app.
  replace (String.length s + String.length p - String.length p)
    with (String.length s) by lia.
  rewrite substring_tail, String.eqb_refl.
  replace (Nat.leb (String.length p) (String.length s + String.length p))
    with true; [reflexivity|].
  symmetry. apply Nat.leb_le. lia.
Qed.

Lemma clamp_minus_one (n : nat) : clamp_index (Datatypes.S n) (-1) = n.
Proof.
  unfold clamp_index.
  destruct (Z.ltb_spec (-1) 0) as [_|H]; [|lia].
  rewrite Z.max_l by lia. lia.
Qed.

Lemma clamp_small (n : nat) (i : nat) :
  i <= n -> clamp_index n (Z.of_nat i) = i.
Proof.
  intros H. unfold clamp_index.
  destruct (Z.ltb_spec (Z.of_nat i) 0); [lia|].
  rewrite Nat2Z.id. lia.
Qed.

(** [("%" + inner + "%").slice(1, -1)] is [inner]. *)
Lemma slice_inner (inner : string) :
  slice ("%" ++ inner ++ "%") 1 (Some (-1)%Z) = inner.
Proof.
  unfold slice.
  replace (String.length ("%" ++ inner ++ "%"))
    with (Datatypes.S (Datatypes.S (String.length inner)))
    by (simpl; rewrite length_app; simpl; lia).
  rewrite clamp_minus_one.
  rewrite (clamp_small _ 1) by lia.
  replace (Datatypes.S (String.length inner) - 1) with (String.length inner) by lia.
  simpl. apply substring_head.
Qed.

(** [("%" + suffix).slice(1)] is [suffix]. *)
Lemma slice_suffix (suffix : string) : slice ("%" ++ suffix) 1 None = suffix.
Proof.
  unfold slice.
  replace (String.length ("%" ++ suffix)) with (Datatypes.S (String.length suffix))
    by reflexivity.
  rewrite (clamp_small _ 1) by lia.
  replace (Datatypes.S (String.length suffix) - 1) with (String.length suffix) by lia.
  simpl. apply substring_whole.
Qed.

(** [(prefix + "%").slice(0, -1)] is [prefix]. *)
Lemma slice_prefix (prefix : string) :
  slice (prefix ++ "%") 0 (Some (-1)%Z) = prefix.
Proof.
  unfold slice.
  replace (String.length (prefix ++ "%")) with (Datatypes.S (String.length prefix))
    by (rewrite length_app; simpl; lia).
  rewrite clamp_minus_one.
  rewrite (clamp_small _ 0) by lia.
  rewrite Nat.sub_0_r. apply substring_head.
Qed.

End StringFacts.

(** ** The WHERE clause *)

Module QueryFacts.
Import Js Query StringFacts.

(** The guards of the [LIKE] branch, read off the pattern. *)
Lemma like_cases (f : string) (v : JsValue) :
  let c := {| field := f; operator := Some OpLike; value := v |} in
  let pattern := toStr v in
  renderCondition c =
    if startsWith pattern "%" && endsWith pattern "%" then
      "string::contains(" ++ f ++ ", " ++ quote (slice pattern 1 (Some (-1)%Z)) ++ ")"
    else if startsWith pattern "%" then
      "string::ends_with(" ++ f ++ ", " ++ quote (slice pattern 1 None) ++ ")"
    else if endsWith pattern "%" then
      "string::starts_with(" ++ f ++ ", " ++ quote (slice pattern 0 (Some (-1)%Z)) ++ ")"
    else f ++ " = " ++ interp (stringify v).
Proof. reflexivity. Qed.

(** C1.  A [LIKE] triple is rendered in exactly one of four forms, chosen by
    the leading and trailing ['%'] of the pattern [String(value)]: both ends
    (the inner substring, empty for the lone ["%"]) give [string::contains],
    a leading one alone gives [string::ends_with] on the suffix, a trailing
    one alone gives [string::starts_with] on the prefix, and a pattern with
    neither gives [field = JSON.stringify(value)]; the clause is the
    conjuncts joined by [" AND "]. *)
Theorem buildWhereClause_like (f : string) (v : JsValue) :
  let c := {| field := f; operator := Some OpLike; value := v |} in
  let pattern := toStr v in
  (forall before after,
      buildWhereClause (ByTriples (before ++ c :: after)) =
      join " AND " (map renderCondition before ++ renderCondition c
                                                  :: map renderCondition after))
  /\ buildWhereClause (ByTriples [c]) = renderCondition c
  /\ (pattern = "%" ->
      renderCondition c = "string::contains(" ++ f ++ ", " ++ quote "" ++ ")")
  /\ (forall inner, pattern = "%" ++ inner ++ "%" ->
      renderCondition c = "string::contains(" ++ f ++ ", " ++ quote inner ++ ")")
  /\ (forall suffix, pattern = "%" ++ suffix -> endsWith pattern "%" = false ->
      renderCondition c = "string::ends_with(" ++ f ++ ", " ++ quote suffix ++ ")")
  /\ (forall prefix, pattern = prefix ++ "%" -> startsWith pattern "%" = false ->
      renderCondition c = "string::starts_with(" ++ f ++ ", " ++ quote prefix ++ ")")
  /\ (startsWith pattern "%" = false -> endsWith pattern "%" = false ->
      renderCondition c = f ++ " = " ++ interp (stringify v)).
Proof.
  intros c pattern. repeat split.
  - intros before after. unfold buildWhereClause. now rewrite map_app.
  - intros H. unfold c. rewrite like_cases. fold pattern. rewrite H. reflexivity.
  - intros inner H. unfold c. rewrite like_cases. fold pattern. rewrite H.
    rewrite (startsWith_app "%" (inner ++ "%")).
    change ("%" ++ inner ++ "%") with (("%" ++ inner) ++ "%") at 1.
    rewrite endsWith_app. simpl andb. cbv iota. now rewrite slice_inner.
  - intros suffix H E. unfold c. rewrite like_cases. fold pattern. rewrite E, H.
    rewrite (startsWith_app "%" suffix).
    simpl andb. cbv iota. now rewrite slice_suffix.
  - intros prefix H E. unfold c. rewrite like_cases. fold pattern. rewrite E.
    rewrite H, endsWith_app. simpl andb. cbv iota. now rewrite slice_prefix.
  - intros E1 E2. unfold c. rewrite like_cases. fold pattern. now rewrite E1, E2.
Qed.

(** C1 on the four patterns of the specification and on the lone ["%"]. *)
Lemma buildWhereClause_like_witness :
  let like := fun f v => {| field := f; operator := Some OpLike; value := JStr v |} in
  renderCondition (like "email" "%@x.com")
  = "string::ends_with(email, " ++ quote "@x.com" ++ ")"
  /\ renderCondition (like "name" "john%")
     = "string::starts_with(name, " ++ quote "john" ++ ")"
  /\ renderCondition (like "name" "%an%")
     = "string::contains(name, " ++ quote "an" ++ ")"
  /\ renderCondition (like "name" "exact") = "name = " ++ quote "exact"
  /\ renderCondition (like "name" "%")
     = "string::contains(name, " ++ quote "" ++ ")".
Proof.
  intros like.
  destruct (buildWhereClause_like "email" (JStr "%@x.com")) as (_ & _ & _ & _ & E & _).
  destruct (buildWhereClause_like "name" (JStr "john%")) as (_ & _ & _ & _ & _ & P & _).
  destruct (buildWhereClause_like "name" (JStr "%an%")) as (_ & _ & _ & I & _).
  destruct (buildWhereClause_like "name" (JStr "exact")) as (_ & _ & _ & _ & _ & _ & X).
  destruct (buildWhereClause_like "name" (JStr "%")) as (_ & _ & L & _).
  split; [exact (E "@x.com" eq_refl eq_refl)|].
  split; [exact (P "john" eq_refl eq_refl)|].
  split; [exact (I "an" eq_refl)|].
  split; [exact (X eq_refl eq_refl)|].
  exact (L eq_refl).
Defined.

End QueryFacts.

(** ** The connection manager *)

Module ConnFacts.
Import Js Eff Conn.

Section WithClient.
Context {S : Type} (cl : Client S).

Lemma init_connected (w : World S) (h : Handle) :
  dbInstance w = Some h -> initSurrealDB cl w = (Ok h, w).
Proof.
  intros H. unfold initSurrealDB, bind, get_instance, ret. now rewrite H.
Qed.

Lemma getDb_instance (c : DbConfig) (w : World S) :
  dbInstance (snd (getDb cl c w)) = dbInstance w.
Proof.
  unfold getDb, bind, newSurreal, try_catch, call, closeHandle, log, throw, ret.
  destruct (new_surreal cl (store w)) as [h s1]. simpl.
  destruct (connect cl h (url c) (username c) (password c) s1) as [[[]|e] s2]; simpl.
  - destruct (use cl h (namespace c) (database c) s2) as [[[]|e] s3]; reflexivity.
  - reflexivity.
Qed.

Lemma init_fresh (w : World S) :
  dbInstance w = None ->
  match initSurrealDB cl w with
  | (Ok h, w') => dbInstance w' = Some h
  | (Throw _, w') => dbInstance w' = None
  end.
Proof.
  intros H. unfold initSurrealDB, bind, get_instance, try_catch, set_instance,
    log, throw, ret.
  rewrite H. destruct (getDb cl DEFAULT_CONFIG w) as [[h|e] w1]; reflexivity.
Qed.

Lemma get_spec (w : World S) :
  getSurrealDB w = match dbInstance w with
                   | Some h => (Ok h, w)
                   | None => (Throw NotInitialized, w)
                   end.
Proof.
  unfold getSurrealDB, bind, get_instance, throw, ret.
  destruct (dbInstance w); reflexivity.
Qed.

Lemma close_spec (w : World S) :
  exists w', closeSurrealDB cl w = (Ok tt, w')
             /\ dbInstance w' = None
             /\ (dbInstance w = None -> w' = w).
Proof.
  unfold closeSurrealDB, bind, get_instance, closeHandle, call, set_instance, ret.
  destruct (dbInstance w) as [h|] eqn:E.
  - eexists. split; [reflexivity|]. split; [reflexivity|discriminate].
  - exists w. auto.
Qed.

(** One request moves the flag as the specification's reading says. *)
Lemma serve_flag (r : Request) (w : World S) :
  initialised (snd (serve cl r w)) =
  initialised_after [(r, fst (serve cl r w))] (initialised w).
Proof.
  unfold initialised. destruct r; simpl.
  - destruct (dbInstance w) as [h|] eqn:E.
    + rewrite (init_connected w h E). simpl. now rewrite E.
    + pose proof (init_fresh w E) as F.
      destruct (initSurrealDB cl w) as [[h|e] w1]; simpl; now rewrite F.
  - rewrite get_spec.
    destruct (dbInstance w) as [h|] eqn:E; simpl; now rewrite E.
  - destruct (close_spec w) as (w' & E & N & _). rewrite E. simpl.
    now rewrite N.
Qed.

Lemma initialised_after_app (h1 h2 : list (Request * Reply)) (b : bool) :
  initialised_after (h1 ++ h2) b = initialised_after h2 (initialised_after h1 b).
Proof.
  revert b. induction h1 as [|[r y] h1 IH]; intros b; [reflexivity|].
  destruct r; simpl; [destruct y|..]; apply IH.
Qed.

Lemma session_flag (rs : list Request) (w : World S) :
  initialised (snd (session cl rs w)) =
  initialised_after (fst (session cl rs w)) (initialised w).
Proof.
  revert w. induction rs as [|r rs IH]; intros w; [reflexivity|].
  simpl. pose proof (serve_flag r w) as F.
  destruct (serve cl r w) as [reply w1]. simpl in F.
  specialize (IH w1). destruct (session cl rs w1) as [history w2]. simpl in *.
  rewrite IH, F.
  exact (eq_sym (initialised_after_app [(r, reply)] history (initialised w))).
Qed.

(** C7.  The connection manager is a state machine: an [init] on an
    initialised manager returns the existing handle and leaves the world as
    it was (no call to the client, so no reconnection); after any session of
    requests from the freshly loaded module, [get] fails with NotInitialized
    exactly when no [init] has succeeded since the start, the last failed
    [init] or the last [close], and otherwise returns the handle; [close]
    always leaves the manager uninitialised and changes nothing when it
    already is. *)
Theorem connection_contract :
  (forall (w : World S) (h : Handle),
      dbInstance w = Some h -> initSurrealDB cl w = (Ok h, w))
  /\ (forall (rs : list Request) (s : S),
        let history := fst (session cl rs (boot s)) in
        let w := snd (session cl rs (boot s)) in
        (fst (getSurrealDB w) = Throw NotInitialized
         <-> initialised_after history false = false)
        /\ (initialised_after history false = true
            -> exists h, dbInstance w = Some h /\ getSurrealDB w = (Ok h, w)))
  /\ (forall w : World S,
        exists w', closeSurrealDB cl w = (Ok tt, w')
                   /\ dbInstance w' = None
                   /\ (dbInstance w = None -> w' = w)).
Proof.
  split; [exact init_connected|]. split; [|exact close_spec].
  intros rs s history w.
  pose proof (session_flag rs (boot s)) as F. fold history in F. fold w in F.
  change (initialised (boot s)) with false in F.
  rewrite <- F, get_spec. unfold initialised.
  destruct (dbInstance w) as [h|]; simpl; split.
  - split; discriminate.
  - intros _. now exists h.
  - split; reflexivity.
  - discriminate.
Qed.

End WithClient.

(** C7 on the in-memory store: a second [init] returns the handle of the
    first and makes no call; after [init; close] the manager is
    uninitialised. *)
Lemma connection_contract_witness :
  initSurrealDB MemStore.client (MemStore.connected MemStore.empty)
  = (Ok 0, MemStore.connected MemStore.empty)
  /\ (exists h, dbInstance (snd (session MemStore.client [ReqInit; ReqInit]
                                   (boot MemStore.empty))) = Some h)
  /\ dbInstance (MemStore.connected MemStore.empty) = Some 0.
Proof.
  destruct (connection_contract MemStore.client) as (I & G & _).
  split; [apply I; reflexivity|]. split; [|reflexivity].
  destruct (G [ReqInit; ReqInit] MemStore.empty) as (_ & H).
  destruct (H eq_refl) as (h & E & _). now exists h.
Defined.

End ConnFacts.

(** ** The service of [src/models/db/surreal.ts] *)

Module ServiceFacts.
Import Js Eff Query Service.

Lemma truthy_str (s : string) : truthy (JStr s) = negb (String.eqb s "").
Proof. reflexivity. Qed.

(** Unfolding of the monad operations. *)
Ltac run :=
  unfold dbQuery; unfold try_catch, bind, ret, throw, log, call; simpl.

(** Case analysis on the answer of the store to the statement sent. *)
Ltac answer cl :=
  match goal with
  | |- context [query cl ?h ?q ?s] =>
      let r := fresh "res" in let e := fresh "e" in let s' := fresh "s'" in
      destruct (query cl h q s) as [[r|e] s']; simpl
  end.

Section WithClient.
Context {S : Type} (cl : Client S).

(** What [delete] does, case by case. *)
Lemma delete_spec (this : SurrealService) (id : string) (w : World S) :
  let q := "DELETE " ++ recordIdOf (table this) id in
  delete cl this id w =
    if String.eqb id "" then (Ok false, with_log w (LogInvalidId id))
    else match query cl (db this) q (store w) with
         | (Ok _, s') => (Ok true, with_call w (CallQuery (db this) q) s')
         | (Throw e, s') =>
             (Ok false,
              with_log (with_call w (CallQuery (db this) q) s')
                       (LogFailed OpDelete (table this) (Some id) e))
         end.
Proof.
  unfold delete. rewrite truthy_str, negb_involutive. run.
  destruct (String.eqb id ""); [reflexivity|]. run.
  destruct (query cl (db this) _ (store w)) as [[r|e] s']; reflexivity.
Qed.

Lemma delete_total (this : SurrealService) (id : string) (w : World S) :
  exists b w', delete cl this id w = (Ok b, w').
Proof.
  rewrite delete_spec. cbv zeta.
  destruct (String.eqb id ""); [eauto|].
  destruct (query cl (db this) _ (store w)) as [[r|e] s']; eauto.
Qed.

Lemma promise_all_total {A} (ms : list (M S A)) :
  (forall m, In m ms -> forall w, exists a w', m w = (Ok a, w')) ->
  forall w, exists l w', promise_all ms w = (Ok l, w').
Proof.
  induction ms as [|m ms IH]; intros H w.
  - simpl. unfold ret. eauto.
  - simpl. destruct (H m (or_introl eq_refl) w) as (a & w1 & E). rewrite E.
    destruct (IH (fun m' I => H m' (or_intror I)) w1) as (l & w2 & E2).
    rewrite E2. eauto.
Qed.

(** What [findById] does, case by case. *)
Lemma findById_spec (this : SurrealService) (id : string) (w : World S) :
  let q := "SELECT * FROM " ++ recordIdOf (table this) id in
  findById cl this id w =
    if String.eqb id "" then (Ok None, with_log w (LogInvalidId id))
    else match query cl (db this) q (store w) with
         | (Ok result, s') =>
             (Ok (firstRecord result), with_call w (CallQuery (db this) q) s')
         | (Throw e, s') =>
             (Ok None,
              with_log (with_call w (CallQuery (db this) q) s')
                       (LogFailed OpFindById (table this) (Some id) e))
         end.
Proof.
  unfold findById. rewrite truthy_str, negb_involutive. run.
  destruct (String.eqb id ""); [reflexivity|]. run.
  destruct (query cl (db this) _ (store w)) as [[r|e] s']; reflexivity.
Qed.

Lemma findById_total (this : SurrealService) (id : string) (w : World S) :
  exists r w', findById cl this id w = (Ok r, w').
Proof.
  rewrite findById_spec. cbv zeta.
  destruct (String.eqb id ""); [eauto|].
  destruct (query cl (db this) _ (store w)) as [[r|e] s']; eauto.
Qed.

Lemma formatRecord_truthy (r : JsValue) :
  truthy r = true -> truthy (formatRecord r) = true.
Proof.
  intros T. unfold formatRecord.
  destruct (truthy r && typeof_object r && has_prop "id" r) eqn:G; [|exact T].
  destruct r; simpl in G; rewrite ?andb_false_r in G; try discriminate.
  destruct (_ && _ && _ && _); reflexivity.
Qed.

Lemma firstRecord_truthy (result : list JsValue) (r : JsValue) :
  firstRecord result = Some r -> truthy r = true.
Proof.
  unfold firstRecord.
  repeat match goal with
         | |- context [if ?b then _ else _] => destruct b eqn:?
         end; intros H; inversion H; subst; now apply formatRecord_truthy.
Qed.

Lemma findById_truthy (this : SurrealService) (id : string) (w w' : World S)
  (r : JsValue) :
  findById cl this id w = (Ok (Some r), w') -> truthy r = true.
Proof.
  rewrite findById_spec. cbv zeta.
  destruct (String.eqb id ""); [discriminate|].
  destruct (query cl (db this) _ (store w)) as [[res|e] s']; [|discriminate].
  intros H. inversion H. eapply firstRecord_truthy; eauto.
Qed.

(** *** [formatRecord] *)

Lemma assoc_set_assoc (k : string) (x : JsValue) (ps : list (string * JsValue)) :
  assoc k (set_assoc k x ps) = Some x.
Proof.
  induction ps as [|[k' v] ps IH]; simpl.
  - now rewrite String.eqb_refl.
  - destruct (String.eqb k k') eqn:E; simpl; rewrite E; [reflexivity | exact IH].
Qed.

Lemma formatRecord_object (ps : list (string * JsValue)) (rid : JsValue) :
  assoc "id" ps = Some rid ->
  formatRecord (JObj ps) =
    JObj (set_assoc "id"
            (JStr (if composite rid
                   then toStr (get_prop "tb" rid) ++ ":" ++ toStr (get_prop "id" rid)
                   else toStr rid)) ps).
Proof.
  intros H. unfold formatRecord, composite. simpl. rewrite H.
  destruct (_ && _ && _ && _); reflexivity.
Qed.

Lemma formatRecord_other (r : JsValue) :
  has_prop "id" r = false -> formatRecord r = r.
Proof.
  intros H. unfold formatRecord. now rewrite H, andb_false_r.
Qed.

Lemma formatted_stringId (r : JsValue) : formatted r -> stringId r.
Proof.
  intros [r0 ->] H.
  destruct (has_prop "id" r0) eqn:E.
  - destruct r0; try discriminate. simpl in E.
    destruct (assoc "id" props) as [rid|] eqn:A; [|discriminate].
    rewrite (formatRecord_object props rid A). simpl.
    rewrite assoc_set_assoc. eauto.
  - rewrite (formatRecord_other r0 E) in H. congruence.
Qed.

Lemma map_formatted (items : list JsValue) :
  Forall formatted (map formatRecord items).
Proof.
  apply Forall_forall. intros r I. apply in_map_iff in I.
  destruct I as (r0 & <- & _). now exists r0.
Qed.

Lemma mapFormat_formatted (v : JsValue) (w w' : World S) (l : list JsValue) :
  mapFormat v w = (Ok l, w') -> Forall formatted l.
Proof.
  destruct v; try discriminate. simpl. unfold ret. intros H. inversion H.
  apply map_formatted.
Qed.

Lemma firstRecord_formatted (result : list JsValue) (r : JsValue) :
  firstRecord result = Some r -> formatted r.
Proof.
  unfold firstRecord.
  repeat match goal with
         | |- context [if ?b then _ else _] => destruct b eqn:?
         end; intros H; inversion H; subst; eexists; reflexivity.
Qed.

(** *** [add], [update], [findBy], [updateBy] *)

Lemma add_spec (this : SurrealService) (data : JsValue) (w : World S) :
  let c := CallCreate (db this) (table this) data in
  add cl this data w =
    match create cl (db this) (table this) data (store w) with
    | (Ok result, s') =>
        if truthy (created result)
        then (Ok (formatRecord (created result)), with_call w c s')
        else (Throw CreateNoResult,
              with_log (with_call w c s')
                       (LogFailed OpAdd (table this) None CreateNoResult))
    | (Throw e, s') =>
        (Throw e, with_log (with_call w c s') (LogFailed OpAdd (table this) None e))
    end.
Proof.
  unfold add, created. run.
  destruct (create cl (db this) (table this) data (store w)) as [[r|e] s']; simpl;
    [|reflexivity].
  destruct (truthy _); reflexivity.
Qed.

Lemma add_formatted (this : SurrealService) (data : JsValue) (w w' : World S)
  (r : JsValue) :
  add cl this data w = (Ok r, w') -> formatted r.
Proof.
  rewrite add_spec. cbv zeta.
  destruct (create cl _ _ _ _) as [[res|e] s']; [|discriminate].
  destruct (truthy _); [|discriminate].
  intros H. inversion H. eexists; reflexivity.
Qed.

Lemma findById_formatted (this : SurrealService) (id : string) (w w' : World S)
  (r : JsValue) :
  findById cl this id w = (Ok (Some r), w') -> formatted r.
Proof.
  rewrite findById_spec. cbv zeta.
  destruct (String.eqb id ""); [discriminate|].
  destruct (query cl (db this) _ (store w)) as [[res|e] s']; [|discriminate].
  intros H. inversion H. eapply firstRecord_formatted; eauto.
Qed.

(** Case analysis on every test a goal or hypothesis branches on. *)
Ltac branches H :=
  repeat match type of H with
         | context [if ?b then _ else _] => destruct b eqn:?
         | context [match ?x with _ => _ end] => destruct x eqn:?
         end; simpl in H; try discriminate H.

(** The rows a list-returning operation hands back are all formatted. *)
Ltac rows H :=
  repeat (match type of H with
          | context [if ?b then _ else _] => destruct b eqn:?
          | context [mapFormat ?v ?x] =>
              let M := fresh "M" in
              destruct (mapFormat v x) as [[? | ?] ?] eqn:M;
              [apply mapFormat_formatted in M|]
          end; simpl in H);
  unfold ret in H; simpl in H; try discriminate H;
  inversion H; subst; auto using map_formatted.

Lemma update_formatted (this : SurrealService) (id : string)
  (data : list (string * JsValue)) (w w' : World S) (r : JsValue) :
  update cl this id data w = (Ok r, w') -> formatted r.
Proof.
  unfold update. run.
  destruct (negb (negb (String.eqb id ""))); [discriminate|]. run.
  answer cl; [|discriminate].
  intros H. branches H; inversion H; eexists; reflexivity.
Qed.

Lemma findBy_formatted (this : SurrealService) (c : Conditions) (w w' : World S)
  (l : list JsValue) :
  findBy cl this c w = (Ok l, w') -> Forall formatted l.
Proof.
  unfold findBy. run. answer cl; [|discriminate].
  intros H. rows H.
Qed.

Lemma updateBy_formatted (this : SurrealService) (c : Conditions)
  (data : list (string * JsValue)) (w w' : World S) (l : list JsValue) :
  updateBy cl this c data w = (Ok l, w') -> Forall formatted l.
Proof.
  unfold updateBy. run. answer cl; [|discriminate].
  intros H. rows H.
Qed.

(** *** [findBy] and the answers of the store *)

Lemma findBy_throw (this : SurrealService) (c : Conditions) (w : World S)
  (e : Err) (s' : S) :
  let q := "SELECT * FROM " ++ table this ++ " WHERE " ++ buildWhereClause c in
  query cl (db this) q (store w) = (Throw e, s') ->
  findBy cl this c w =
    (Throw e, with_log (with_call w (CallQuery (db this) q) s')
                       (LogFailed OpFindBy (table this) None e)).
Proof.
  intros q E. subst q. unfold findBy, dbQuery, try_catch, bind, call. cbv zeta.
  now rewrite E.
Qed.

Lemma findBy_no_rows (this : SurrealService) (c : Conditions) (w : World S)
  (s' : S) :
  let q := "SELECT * FROM " ++ table this ++ " WHERE " ++ buildWhereClause c in
  query cl (db this) q (store w) = (Ok [JArr []], s') ->
  findBy cl this c w = (Ok [], with_call w (CallQuery (db this) q) s').
Proof.
  intros q E. subst q. unfold findBy, dbQuery, try_catch, bind, call. cbv zeta.
  now rewrite E.
Qed.

Lemma findBy_status_err (this : SurrealService) (c : Conditions) (w : World S)
  (s' : S) (ps : list (string * JsValue)) (rest : list JsValue) :
  let q := "SELECT * FROM " ++ table this ++ " WHERE " ++ buildWhereClause c in
  assoc "result" ps = None ->
  assoc "status" ps = Some (JStr "ERR") ->
  query cl (db this) q (store w) = (Ok (JObj ps :: rest), s') ->
  findBy cl this c w =
    (Ok [], with_log (with_call w (CallQuery (db this) q) s')
              (LogQueryError (toStr (or_else (get_prop "detail" (JObj ps))
                                             (get_prop "message" (JObj ps)))))).
Proof.
  intros q R T E. subst q. unfold findBy, dbQuery, try_catch, bind, call.
  cbv zeta. rewrite E. simpl. now rewrite R, T.
Qed.

(** *** [upsert] *)

Lemma rethrow_spec {A} (m : M S A) (l : Err -> LogEntry) (w : World S) :
  try_catch m (fun e => bind (log (l e)) (fun _ => throw e)) w =
    match m w with
    | (Ok a, w') => (Ok a, w')
    | (Throw e, w') => (Throw e, with_log w' (l e))
    end.
Proof. unfold try_catch, bind, log, throw. destruct (m w) as [[a|e] w']; reflexivity. Qed.

Lemma upsert_spec (this : SurrealService) (id : string)
  (data : list (string * JsValue)) (w : World S) :
  let l := LogFailed OpUpsert (table this) (Some id) in
  upsert cl this id data w =
    match findById cl this id w with
    | (Ok (Some _), w1) =>
        match update cl this id data w1 with
        | (Ok a, w2) => (Ok a, w2)
        | (Throw e, w2) => (Throw e, with_log w2 (l e))
        end
    | (Ok None, w1) =>
        match add cl this (JObj data) w1 with
        | (Ok a, w2) => (Ok a, w2)
        | (Throw e, w2) => (Throw e, with_log w2 (l e))
        end
    | (Throw e, w1) => (Throw e, with_log w1 (l e))
    end.
Proof.
  intros l. unfold upsert. rewrite rethrow_spec. unfold bind at 1.
  destruct (findById cl this id w) as [[[r|]|e] w1] eqn:F; try reflexivity.
  now rewrite (findById_truthy this id w w1 r F).
Qed.

(** *** [count] and [paginate] *)

Variable StringToNumber : string -> JsNum.

Lemma count_spec (this : SurrealService) (conditions : option Conditions)
  (w : World S) :
  let c := CallQuery (db this) (countQuery this conditions) in
  count cl StringToNumber this conditions w =
    match query cl (db this) (countQuery this conditions) (store w) with
    | (Ok result, s') => (Ok (readCount StringToNumber result), with_call w c s')
    | (Throw e, s') =>
        (Throw e, with_log (with_call w c s') (LogFailed OpCount (table this) None e))
    end.
Proof.
  unfold count. run.
  destruct (query cl (db this) _ (store w)) as [[r|e] s']; reflexivity.
Qed.

Lemma paginate_spec (this : SurrealService) (page pageSize : JsNum)
  (conditions : option Conditions) (orderBy : option OrderBy) (w : World S) :
  let q := paginateQuery this page pageSize conditions orderBy in
  paginate cl StringToNumber this (Some page) (Some pageSize) conditions orderBy w =
    match query cl (db this) q (store w) with
    | (r1, s1) =>
        match count cl StringToNumber this conditions
                (with_call w (CallQuery (db this) q) s1) with
        | (r2, w2) =>
            match r1, r2 with
            | Ok dataResult, Ok countResult =>
                (Ok {| data := readPage dataResult; total := countResult;
                       page := page; pageSize := pageSize;
                       totalPages := ceil_div (ToNumber StringToNumber countResult)
                                              pageSize |}, w2)
            | Throw e, _ | Ok _, Throw e =>
                (Throw e, with_log w2 (LogFailed OpPaginate (table this) None e))
            end
        end
    end.
Proof.
  intros q. unfold paginate. rewrite rethrow_spec.
  unfold bind, promise_both, dbQuery, call, ret. fold q.
  destruct (query cl (db this) q (store w)) as [r1 s1].
  destruct (count cl StringToNumber this conditions _) as [r2 w2].
  destruct r1, r2; reflexivity.
Qed.

(** C9.  [deleteMany] returns [true] for every list of ids: each member
    [delete] resolves to a boolean, so the batch never rejects and the
    [catch] branch that would return [false] is never taken; a member that
    failed (here the empty id, which [delete] answers with [false]) does not
    show in the result. *)
Theorem deleteMany_always_true (this : SurrealService) :
  (forall (ids : list string) (w : World S),
      fst (deleteMany cl this ids w) = Ok true)
  /\ (forall (ids : list string) (w : World S),
        exists l w', promise_all (map (fun id => delete cl this id) ids) w = (Ok l, w'))
  /\ (forall (w : World S),
        fst (delete cl this "" w) = Ok false
        /\ fst (deleteMany cl this [""] w) = Ok true).
Proof.
  assert (T : forall ids w,
             exists l w', promise_all (map (fun id => delete cl this id) ids) w
                          = (Ok l, w')).
  { intros ids. apply promise_all_total. intros m I.
    apply in_map_iff in I. destruct I as (id & <- & _). apply delete_total. }
  assert (D : forall ids w, fst (deleteMany cl this ids w) = Ok true).
  { intros ids w. unfold deleteMany. run.
    destruct (T ids w) as (l & w' & E). now rewrite E. }
  split; [exact D|]. split; [exact T|].
  intros w. split; [now rewrite delete_spec | apply D].
Qed.

End WithClient.
End ServiceFacts.

(** ** The service of [src/utils/surreal.ts] *)

Module LegacyFacts.
Import Js Eff Query.
Import Service (SurrealService, db, table, OrderBy, PaginateResult, paginateQuery,
                created).
Import ServiceFacts (truthy_str, rethrow_spec).

Ltac run :=
  unfold Legacy.dbQuery; unfold try_catch, bind, ret, throw, log, call; simpl.

Section WithClient.
Context {S : Type} (cl : Client S).

Lemma legacy_delete_spec (this : SurrealService) (id : string) (w : World S) :
  let rid := recordIdOf (table this) id in
  Legacy.delete cl this id w =
    if String.eqb id "" then (Ok false, with_log w (LogInvalidId id))
    else match delete_ cl (db this) rid (store w) with
         | (Ok _, s') => (Ok true, with_call w (CallDelete (db this) rid) s')
         | (Throw e, s') =>
             (Ok false,
              with_log (with_call w (CallDelete (db this) rid) s')
                       (LogFailed OpDelete (table this) (Some id) e))
         end.
Proof.
  unfold Legacy.delete. rewrite truthy_str, negb_involutive. run.
  destruct (String.eqb id ""); [reflexivity|]. run.
  destruct (delete_ cl (db this) _ (store w)) as [[r|e] s']; reflexivity.
Qed.

Lemma legacy_findById_spec (this : SurrealService) (id : string) (w : World S) :
  let rid := recordIdOf (table this) id in
  Legacy.findById cl this id w =
    if String.eqb id "" then (Ok None, with_log w (LogInvalidId id))
    else match select cl (db this) rid (store w) with
         | (Ok result, s') =>
             (Ok (if truthy (created result) then Some (created result) else None),
              with_call w (CallSelect (db this) rid) s')
         | (Throw e, s') =>
             (Ok None,
              with_log (with_call w (CallSelect (db this) rid) s')
                       (LogFailed OpFindById (table this) (Some id) e))
         end.
Proof.
  unfold Legacy.findById. rewrite truthy_str, negb_involutive. run.
  destruct (String.eqb id ""); [reflexivity|]. run.
  destruct (select cl (db this) _ (store w)) as [[r|e] s']; reflexivity.
Qed.

Lemma legacy_findById_truthy (this : SurrealService) (id : string) (w w' : World S)
  (r : JsValue) :
  Legacy.findById cl this id w = (Ok (Some r), w') -> truthy r = true.
Proof.
  rewrite legacy_findById_spec. cbv zeta.
  destruct (String.eqb id ""); [discriminate|].
  destruct (select cl (db this) _ (store w)) as [[res|e] s']; [|discriminate].
  destruct (truthy (created res)) eqn:T; [|discriminate].
  intros H. inversion H. subst. exact T.
Qed.

Lemma legacy_findBy_throw (this : SurrealService) (c : Conditions) (w : World S)
  (e : Err) (s' : S) :
  let q := "SELECT * FROM " ++ table this ++ " WHERE " ++ buildWhereClause c in
  query cl (db this) q (store w) = (Throw e, s') ->
  Legacy.findBy cl this c w =
    (Throw e, with_log (with_call w (CallQuery (db this) q) s')
                       (LogFailed OpFindBy (table this) None e)).
Proof.
  intros q E. subst q. unfold Legacy.findBy, Legacy.dbQuery, try_catch, bind, call.
  cbv zeta. now rewrite E.
Qed.

Lemma legacy_findBy_no_result (this : SurrealService) (c : Conditions) (w : World S)
  (s' : S) (first : JsValue) (rest : list JsValue) :
  let q := "SELECT * FROM " ++ table this ++ " WHERE " ++ buildWhereClause c in
  has_prop "result" first = false ->
  query cl (db this) q (store w) = (Ok (first :: rest), s') ->
  Legacy.findBy cl this c w = (Ok (JArr []), with_call w (CallQuery (db this) q) s').
Proof.
  intros q R E. subst q. unfold Legacy.findBy, Legacy.dbQuery, try_catch, bind, call.
  cbv zeta. rewrite E. unfold index.
  change (nth 0 (first :: rest) JUndefined) with first.
  now rewrite R, andb_false_r.
Qed.

Lemma legacy_create_spec (this : SurrealService) (data : JsValue) (w : World S) :
  let c := CallCreate (db this) (table this) data in
  Legacy.create cl this data w =
    match create cl (db this) (table this) data (store w) with
    | (Ok result, s') =>
        if truthy (created result)
        then (Ok (created result), with_call w c s')
        else (Throw CreateNoResult,
              with_log (with_call w c s')
                       (LogFailed OpAdd (table this) None CreateNoResult))
    | (Throw e, s') =>
        (Throw e, with_log (with_call w c s') (LogFailed OpAdd (table this) None e))
    end.
Proof.
  unfold Legacy.create, created. run.
  destruct (create cl (db this) (table this) data (store w)) as [[r|e] s']; simpl;
    [|reflexivity].
  destruct (truthy _); reflexivity.
Qed.

Lemma legacy_upsert_spec (this : SurrealService) (id : string)
  (data : list (string * JsValue)) (w : World S) :
  let l := LogFailed OpUpsert (table this) (Some id) in
  Legacy.upsert cl this id data w =
    match Legacy.findById cl this id w with
    | (Ok (Some _), w1) =>
        match Legacy.update cl this id data w1 with
        | (Ok a, w2) => (Ok a, w2)
        | (Throw e, w2) => (Throw e, with_log w2 (l e))
        end
    | (Ok None, w1) =>
        match Legacy.create cl this (JObj data) w1 with
        | (Ok a, w2) => (Ok a, w2)
        | (Throw e, w2) => (Throw e, with_log w2 (l e))
        end
    | (Throw e, w1) => (Throw e, with_log w1 (l e))
    end.
Proof.
  intros l. unfold Legacy.upsert. rewrite rethrow_spec. unfold bind at 1.
  destruct (Legacy.findById cl this id w) as [[[r|]|e] w1] eqn:F; try reflexivity.
  now rewrite (legacy_findById_truthy this id w w1 r F).
Qed.

Variable StringToNumber : string -> JsNum.

Lemma legacy_count_spec (this : SurrealService) (conditions : option Conditions)
  (w : World S) :
  let c := CallQuery (db this) (Legacy.countQuery this conditions) in
  Legacy.count cl this conditions w =
    match query cl (db this) (Legacy.countQuery this conditions) (store w) with
    | (Ok result, s') =>
        match Legacy.readCount result with
        | Ok n => (Ok n, with_call w c s')
        | Throw e =>
            (Throw e,
             with_log (with_call w c s') (LogFailed OpCount (table this) None e))
        end
    | (Throw e, s') =>
        (Throw e, with_log (with_call w c s') (LogFailed OpCount (table this) None e))
    end.
Proof.
  unfold Legacy.count. run.
  destruct (query cl (db this) _ (store w)) as [[r|e] s']; [|reflexivity].
  destruct (Legacy.readCount r); reflexivity.
Qed.


End WithClient.
End LegacyFacts.

(** ** Numbers *)

Module NumFacts.
Import Js.












End NumFacts.

(** ** The contracts of the two services *)

Module Contract.
Import Js Eff Query.
Import Service (SurrealService, db, table, formatRecord, firstRecord, created,
                formatted, stringId, composite).

Section WithClient.
Context {S : Type} (cl : Client S).

Lemma neq_eqb (id : string) : id <> "" -> String.eqb id "" = false.
Proof. apply String.eqb_neq. Qed.

Lemma findById_answers (this : SurrealService) (id : string) (w : World S) :
  (exists r w', Service.findById cl this id w = (Ok r, w'))
  /\ (exists r w', Legacy.findById cl this id w = (Ok r, w')).
Proof.
  split; [apply ServiceFacts.findById_total|].
  rewrite LegacyFacts.legacy_findById_spec. cbv zeta.
  destruct (String.eqb id ""); [eauto|].
  destruct (select cl (db this) _ (store w)) as [[r|e] s']; eauto.
Qed.

(** C3, as the code has it.  [findById] never raises.  An empty id is
    answered with [null] and a console line, without a lookup.  Otherwise the
    lookup is made under [table:key] for a bare key and under the id itself
    when it contains a [':']; a failure of the store (a malformed id among
    them) is logged and answered with [null]; an answer without a record is
    answered with [null] and nothing is written to the console; a record
    that is there is returned.  Both versions of the service. *)
Theorem findById_contract (this : SurrealService) (id : string) (w : World S) :
  let rid := if includes id ":" then id else table this ++ ":" ++ id in
  let q := "SELECT * FROM " ++ rid in
  ((exists r w', Service.findById cl this id w = (Ok r, w'))
   /\ (exists r w', Legacy.findById cl this id w = (Ok r, w')))
  /\ (id = "" ->
      Service.findById cl this id w = (Ok None, with_log w (LogInvalidId id))
      /\ Legacy.findById cl this id w = (Ok None, with_log w (LogInvalidId id)))
  /\ (id <> "" ->
      calls (snd (Service.findById cl this id w))
      = (calls w ++ [CallQuery (db this) q])%list
      /\ calls (snd (Legacy.findById cl this id w))
         = (calls w ++ [CallSelect (db this) rid])%list)
  /\ (id <> "" -> forall e s',
        (query cl (db this) q (store w) = (Throw e, s') ->
         Service.findById cl this id w =
           (Ok None, with_log (with_call w (CallQuery (db this) q) s')
                              (LogFailed OpFindById (table this) (Some id) e)))
        /\ (select cl (db this) rid (store w) = (Throw e, s') ->
            Legacy.findById cl this id w =
              (Ok None, with_log (with_call w (CallSelect (db this) rid) s')
                                 (LogFailed OpFindById (table this) (Some id) e))))
  /\ (id <> "" -> forall s',
        (query cl (db this) q (store w) = (Ok [JArr []], s') ->
         Service.findById cl this id w
         = (Ok None, with_call w (CallQuery (db this) q) s')
         /\ console (snd (Service.findById cl this id w)) = console w)
        /\ (select cl (db this) rid (store w) = (Ok JUndefined, s') ->
            Legacy.findById cl this id w
            = (Ok None, with_call w (CallSelect (db this) rid) s')
            /\ console (snd (Legacy.findById cl this id w)) = console w))
  /\ (id <> "" -> forall r rest s', truthy r = true ->
        (query cl (db this) q (store w) = (Ok [JArr (r :: rest)], s') ->
         fst (Service.findById cl this id w) = Ok (Some (formatRecord r)))
        /\ (select cl (db this) rid (store w) = (Ok r, s') -> isArray r = false ->
            fst (Legacy.findById cl this id w) = Ok (Some r))).
Proof.
  intros rid q.
  pose proof (ServiceFacts.findById_spec cl this id w) as F.
  pose proof (LegacyFacts.legacy_findById_spec cl this id w) as L.
  cbv zeta in F, L. unfold recordIdOf in F, L. fold rid in F, L. fold q in F.
  split; [split|split; [|split; [|split; [|split]]]].
  - apply ServiceFacts.findById_total.
  - rewrite L. destruct (String.eqb id ""); [eauto|].
    destruct (select cl (db this) rid (store w)) as [[r|e] s']; eauto.
  - intros ->. split; [exact F|exact L].
  - intros N. rewrite F, L, (neq_eqb id N).
    destruct (query cl (db this) q (store w)) as [[r|e] s'];
      destruct (select cl (db this) rid (store w)) as [[r'|e'] s''];
      split; reflexivity.
  - intros N e s'. rewrite F, L, (neq_eqb id N).
    split; intros E; now rewrite E.
  - intros N s'. rewrite F, L, (neq_eqb id N).
    split; intros E; rewrite E; split; reflexivity.
  - intros N r rest s' T. rewrite F, L, (neq_eqb id N).
    split.
    + intros E. rewrite E. unfold fst, firstRecord.
      cbn [index nth truthy typeof_object has_prop isArray elem0 andb].
      now rewrite T.
    + intros E A. rewrite E. simpl.
      assert (C : created r = r) by (destruct r; try reflexivity; discriminate).
      now rewrite C, T.
Qed.

End WithClient.

(** C3 fails as stated: a lookup that finds no record is answered with
    [null] and nothing is logged.  Five records are stored; the key [r9] is
    not among them. *)
Lemma findById_missing_is_silent :
  let w := MemStore.connected MemStore.five_users in
  fst (Service.findById MemStore.client MemStore.users "r9" w) = Ok None
  /\ console (snd (Service.findById MemStore.client MemStore.users "r9" w)) = []
  /\ fst (Legacy.findById MemStore.client MemStore.users "r9" w) = Ok None
  /\ console (snd (Legacy.findById MemStore.client MemStore.users "r9" w)) = [].
Proof. vm_compute. repeat split. Qed.

(** C3 as amended, on the in-memory store: the empty id, a bare key that
    is not stored, an id the store cannot read, and a bare key that is
    stored. *)
Lemma findById_contract_witness :
  Service.findById MemStore.client MemStore.users "" (MemStore.connected MemStore.empty)
  = (Ok None, with_log (MemStore.connected MemStore.empty) (LogInvalidId ""))
  /\ calls (snd (Service.findById MemStore.client MemStore.users "r1"
                   (MemStore.connected MemStore.empty)))
     = [CallQuery 0 "SELECT * FROM user:r1"]
  /\ fst (Service.findById MemStore.client MemStore.users "r1"
            (MemStore.connected MemStore.empty)) = Ok None
  /\ fst (Service.findById MemStore.client MemStore.users "a b"
            (MemStore.connected MemStore.empty)) = Ok None
  /\ fst (Service.findById MemStore.client MemStore.users "r1"
            (MemStore.connected MemStore.five_users))
     = Ok (Some (JObj [("name", JStr "Alice"); ("age", JNum (Fin 30));
                       ("id", JStr "user:r1")])).
Proof.
  pose (w := MemStore.connected MemStore.empty).
  assert (N1 : "r1" <> "") by discriminate.
  assert (N2 : "a b" <> "") by discriminate.
  destruct (findById_contract MemStore.client MemStore.users "" w)
    as (_ & E & _).
  destruct (findById_contract MemStore.client MemStore.users "r1" w)
    as (_ & _ & C & _ & M & _).
  destruct (findById_contract MemStore.client MemStore.users "a b" w)
    as (_ & _ & _ & T & _).
  destruct (findById_contract MemStore.client MemStore.users "r1"
              (MemStore.connected MemStore.five_users))
    as (_ & _ & _ & _ & _ & F).
  split; [exact (proj1 (E eq_refl))|].
  split; [exact (proj1 (C N1))|].
  split; [exact (f_equal fst (proj1 (proj1 (M N1 MemStore.empty) eq_refl)))|].
  split.
  - pose proof (proj1 (T N2 (StoreError "parse error") MemStore.empty) eq_refl) as R.
    fold w. now rewrite R.
  - exact (proj1 (F N1 (JObj [("name", JStr "Alice"); ("age", JNum (Fin 30));
                              ("id", JObj [("tb", JStr "user"); ("id", JStr "r1")])])
                    [] MemStore.five_users eq_refl) eq_refl).
Defined.

Section Delete.
Context {S : Type} (cl : Client S).

(** C5, as the code has it.  [delete] never raises: it answers [true] when
    the id is not empty and the call to the store completes, and [false]
    otherwise, with a console line; so a second [delete] of a record that is
    gone answers [true] whenever the store completes the call, and [false]
    only when the store rejects it.  After a [delete] that answered [true],
    on a store that removes what it is told to delete, [findById] answers
    [null].  Both versions of the service. *)
Theorem delete_contract (this : SurrealService) (id : string) (w : World S) :
  let rid := recordIdOf (table this) id in
  let q := "DELETE " ++ rid in
  let w1 := snd (Service.delete cl this id w) in
  let l1 := snd (Legacy.delete cl this id w) in
  (fst (Service.delete cl this id w)
   = Ok (negb (String.eqb id "") && is_ok (fst (query cl (db this) q (store w))))
   /\ fst (Legacy.delete cl this id w)
      = Ok (negb (String.eqb id "") && is_ok (fst (delete_ cl (db this) rid (store w)))))
  /\ (fst (Service.delete cl this id w) = Ok false ->
      exists line, console w1 = (console w ++ [line])%list)
  /\ (fst (Legacy.delete cl this id w) = Ok false ->
      exists line, console l1 = (console w ++ [line])%list)
  /\ (removes_deleted cl ->
      fst (Service.delete cl this id w) = Ok true ->
      fst (Service.findById cl this id w1) = Ok None)
  /\ (removes_deleted_thing cl ->
      fst (Legacy.delete cl this id w) = Ok true ->
      fst (Legacy.findById cl this id l1) = Ok None)
  /\ (forall r e s', id <> "" ->
      (query cl (db this) q (store w1) = (Ok r, s') ->
       fst (Service.delete cl this id w1) = Ok true)
      /\ (query cl (db this) q (store w1) = (Throw e, s') ->
          fst (Service.delete cl this id w1) = Ok false)).
Proof.
  intros rid q w1 l1.
  pose proof (ServiceFacts.delete_spec cl this id w) as D.
  pose proof (LegacyFacts.legacy_delete_spec cl this id w) as L.
  cbv zeta in D, L. fold rid in D, L. fold q in D.
  split; [split|split; [|split; [|split; [|split]]]];
    [| | | | | |
     intros r e s' N; pose proof (ServiceFacts.delete_spec cl this id w1) as D1;
     cbv zeta in D1; fold rid in D1; fold q in D1;
     rewrite D1, (neq_eqb id N); split; intros E; now rewrite E].
  - rewrite D. destruct (String.eqb id ""); [reflexivity|].
    destruct (query cl (db this) q (store w)) as [[r|e] s']; reflexivity.
  - rewrite L. destruct (String.eqb id ""); [reflexivity|].
    destruct (delete_ cl (db this) rid (store w)) as [[r|e] s']; reflexivity.
  - unfold w1. rewrite D. destruct (String.eqb id ""); [simpl; eauto|].
    destruct (query cl (db this) q (store w)) as [[r|e] s']; simpl;
      [discriminate | eauto].
  - unfold l1. rewrite L. destruct (String.eqb id ""); [simpl; eauto|].
    destruct (delete_ cl (db this) rid (store w)) as [[r|e] s']; simpl;
      [discriminate | eauto].
  - intros R. unfold w1. rewrite D.
    destruct (String.eqb id "") eqn:I; [discriminate|].
    destruct (query cl (db this) q (store w)) as [[r|e] s'] eqn:Q; [|discriminate].
    intros _. simpl snd.
    rewrite ServiceFacts.findById_spec. cbv zeta. rewrite I. fold rid.
    simpl store.
    destruct (query cl (db this) ("SELECT * FROM " ++ rid) s') as [[res|e] s'']
      eqn:F; [|reflexivity].
    now rewrite (R (db this) rid (store w) r s' Q res s'' F).
  - intros R. unfold l1. rewrite L.
    destruct (String.eqb id "") eqn:I; [discriminate|].
    destruct (delete_ cl (db this) rid (store w)) as [[r|e] s'] eqn:Q; [|discriminate].
    intros _. simpl snd.
    rewrite LegacyFacts.legacy_findById_spec. cbv zeta. rewrite I. fold rid.
    simpl store.
    destruct (select cl (db this) rid s') as [[v|e] s''] eqn:F; [|reflexivity].
    now rewrite (R (db this) rid (store w) r s' Q v s'' F).
Qed.

End Delete.

(** C5 fails as stated: on a store that, like SurrealDB, completes the
    [DELETE] of a record that is not there, the second [delete] of the same
    id answers [true].  The record is created, deleted, looked up and
    deleted again. *)
Lemma delete_twice_answers_true :
  let w0 := snd (Service.add MemStore.client MemStore.users MemStore.alice
                   (MemStore.connected MemStore.empty)) in
  let w1 := snd (Service.delete MemStore.client MemStore.users "user:r1" w0) in
  let w2 := snd (Service.findById MemStore.client MemStore.users "user:r1" w1) in
  fst (Service.delete MemStore.client MemStore.users "user:r1" w0) = Ok true
  /\ fst (Service.findById MemStore.client MemStore.users "user:r1" w1) = Ok None
  /\ fst (Service.delete MemStore.client MemStore.users "user:r1" w2) = Ok true
  /\ fst (Service.delete MemStore.client MemStore.users "user:r1" w2) <> Ok false.
Proof.
  vm_compute. repeat split; discriminate.
Qed.

Lemma strip_prefix_app (p rest : string) :
  MemStore.strip_prefix p (p ++ rest) = Some rest.
Proof.
  unfold MemStore.strip_prefix.
  pose proof (StringFacts.startsWith_app p rest) as P. unfold startsWith in P.
  rewrite P, StringFacts.length_app.
  replace (String.length p + String.length rest - String.length p)
    with (String.length rest) by lia.
  now rewrite StringFacts.substring_tail.
Qed.

Lemma assoc_remove_row (rid : string) (r : list (string * JsValue)) :
  assoc rid (MemStore.remove_row rid r) = None.
Proof.
  induction r as [|[k v] r IH]; [reflexivity|].
  unfold MemStore.remove_row in *. simpl.
  destruct (String.eqb k rid) eqn:E; simpl; [exact IH|].
  rewrite String.eqb_sym, E. exact IH.
Qed.

(** The in-memory store removes what it is told to delete. *)
Lemma MemStore_removes_deleted : removes_deleted MemStore.client.
Proof.
  intros h rid m r m' D res m'' F.
  change (query MemStore.client) with MemStore.run_query in D, F.
  unfold MemStore.run_query in D.
  revert D. destruct (MemStore.reachable m) eqn:A; intros D; [|discriminate D].
  cbn [negb] in D. rewrite strip_prefix_app in D.
  destruct (MemStore.is_record_id rid) eqn:I; [|discriminate D].
  inversion D; subst r m'. clear D.
  unfold MemStore.run_query in F. cbn [MemStore.reachable MemStore.with_rows] in F.
  rewrite A in F. cbn [negb] in F.
  change (MemStore.strip_prefix "DELETE " ("SELECT * FROM " ++ rid)) with (@None string) in F.
  rewrite strip_prefix_app in F.
  unfold MemStore.run_select in F. rewrite I in F.
  cbn [MemStore.rows MemStore.with_rows] in F.
  rewrite assoc_remove_row in F. now inversion F.
Qed.

Lemma MemStore_removes_deleted_thing : removes_deleted_thing MemStore.client.
Proof.
  intros h rid m r m' D v m'' F.
  change (delete_ MemStore.client) with MemStore.run_delete in D.
  change (select MemStore.client) with MemStore.run_select_thing in F.
  unfold MemStore.run_delete in D.
  revert D. destruct (MemStore.reachable m) eqn:A; intros D; [|discriminate D].
  cbn [negb] in D.
  destruct (MemStore.is_record_id rid) eqn:I; [|discriminate D].
  inversion D; subst r m'. clear D.
  unfold MemStore.run_select_thing in F.
  cbn [MemStore.reachable MemStore.with_rows MemStore.rows] in F.
  rewrite A, I in F. cbn [negb] in F.
  rewrite assoc_remove_row in F. now inversion F.
Qed.

(** C5 as amended, on the in-memory store: the empty id is answered with
    [false] and logged; after a [delete] the lookup finds nothing and a
    second [delete] is answered with [true]. *)
Lemma delete_contract_witness :
  (exists line,
      console (snd (Service.delete MemStore.client MemStore.users ""
                      (MemStore.connected MemStore.five_users))) = [line])
  /\ fst (Service.findById MemStore.client MemStore.users "user:r1"
            (snd (Service.delete MemStore.client MemStore.users "user:r1"
                    (MemStore.connected MemStore.five_users)))) = Ok None
  /\ fst (Legacy.findById MemStore.client MemStore.users "user:r1"
            (snd (Legacy.delete MemStore.client MemStore.users "user:r1"
                    (MemStore.connected MemStore.five_users)))) = Ok None
  /\ fst (Service.delete MemStore.client MemStore.users "user:r1"
            (snd (Service.delete MemStore.client MemStore.users "user:r1"
                    (MemStore.connected MemStore.five_users)))) = Ok true.
Proof.
  pose (w := MemStore.connected MemStore.five_users).
  assert (N : "user:r1" <> "") by discriminate.
  destruct (delete_contract MemStore.client MemStore.users "" w)
    as (_ & E & _).
  destruct (delete_contract MemStore.client MemStore.users "user:r1" w)
    as (_ & _ & _ & F & G & D).
  split; [exact (E eq_refl)|]. split; [|split].
  - exact (F MemStore_removes_deleted eq_refl).
  - exact (G MemStore_removes_deleted_thing eq_refl).
  - exact (proj1 (D [JArr []] (StoreError "") _ N) eq_refl).
Defined.

Section FindBy.
Context {S : Type} (cl : Client S).

(** C6, as the code has it.  [findBy] answers the empty sequence when the
    store reports no rows, and when the first answer of the store is an
    object without [result] whose [status] is ['ERR'] (the newer service
    logs it); an error the store call throws is logged and thrown on to the
    caller.  Both versions of the service. *)
Theorem findBy_contract (this : SurrealService) (c : Conditions) (w : World S) :
  let q := "SELECT * FROM " ++ table this ++ " WHERE " ++ buildWhereClause c in
  let w' := fun s' => with_call w (CallQuery (db this) q) s' in
  (forall s', query cl (db this) q (store w) = (Ok [JArr []], s') ->
      Service.findBy cl this c w = (Ok [], w' s')
      /\ Legacy.findBy cl this c w = (Ok (JArr []), w' s'))
  /\ (forall ps rest s',
        assoc "result" ps = None -> assoc "status" ps = Some (JStr "ERR") ->
        query cl (db this) q (store w) = (Ok (JObj ps :: rest), s') ->
        Service.findBy cl this c w =
          (Ok [], with_log (w' s')
                    (LogQueryError (toStr (or_else (get_prop "detail" (JObj ps))
                                                   (get_prop "message" (JObj ps))))))
        /\ Legacy.findBy cl this c w = (Ok (JArr []), w' s'))
  /\ (forall e s', query cl (db this) q (store w) = (Throw e, s') ->
        Service.findBy cl this c w =
          (Throw e, with_log (w' s') (LogFailed OpFindBy (table this) None e))
        /\ Legacy.findBy cl this c w =
             (Throw e, with_log (w' s') (LogFailed OpFindBy (table this) None e))).
Proof.
  intros q w'. split; [|split].
  - intros s' E. split.
    + now apply ServiceFacts.findBy_no_rows.
    + now apply (LegacyFacts.legacy_findBy_no_result cl this c w s' (JArr []) []).
  - intros ps rest s' R T E. split.
    + exact (ServiceFacts.findBy_status_err cl this c w s' ps rest R T E).
    + apply (LegacyFacts.legacy_findBy_no_result cl this c w s' (JObj ps) rest); [|exact E].
      simpl. now rewrite R.
  - intros e s' E. split.
    + now apply ServiceFacts.findBy_throw.
    + now apply LegacyFacts.legacy_findBy_throw.
Qed.

End FindBy.

(** C6 fails as stated: an error thrown by the store call reaches the caller
    of [findBy].  For the empty condition object the statement sent is
    [SELECT * FROM user WHERE ], which the store rejects; and a store that
    has become unreachable rejects every statement. *)
Lemma findBy_error_reaches_caller :
  fst (Service.findBy MemStore.client MemStore.users (ByFields [])
         (MemStore.connected MemStore.five_users))
  = Throw (StoreError "parse error")
  /\ fst (Legacy.findBy MemStore.client MemStore.users (ByFields [])
            (MemStore.connected MemStore.five_users))
     = Throw (StoreError "parse error")
  /\ fst (Service.findBy MemStore.client MemStore.users
            (ByFields [("age", JNum (Fin 25))]) (MemStore.connected MemStore.offline))
     = Throw (StoreError "connection closed").
Proof. repeat split; reflexivity. Qed.

(** C6 as amended, on the in-memory store: no record of age 25 gives the
    empty sequence; the error thrown for the empty condition object is
    logged and thrown on. *)
Lemma findBy_contract_witness :
  fst (Service.findBy MemStore.client MemStore.users
         (ByFields [("age", JNum (Fin 25))]) (MemStore.connected MemStore.five_users))
  = Ok []
  /\ exists w',
      Service.findBy MemStore.client MemStore.users (ByFields [])
        (MemStore.connected MemStore.five_users)
      = (Throw (StoreError "parse error"),
         with_log w' (LogFailed OpFindBy "user" None (StoreError "parse error"))).
Proof.
  destruct (findBy_contract MemStore.client MemStore.users
              (ByFields [("age", JNum (Fin 25))])
              (MemStore.connected MemStore.five_users)) as (N & _ & _).
  destruct (findBy_contract MemStore.client MemStore.users (ByFields [])
              (MemStore.connected MemStore.five_users)) as (_ & _ & T).
  split.
  - destruct (N MemStore.five_users eq_refl) as (E & _). now rewrite E.
  - eexists.
    exact (proj1 (T (StoreError "parse error") MemStore.five_users eq_refl)).
Defined.

Section Upsert.
Context {S : Type} (cl : Client S).

Lemma rethrown {A} (m : Res A * World S) (l : Err -> LogEntry) :
  let m' := match m with
            | (Ok a, w2) => (Ok a, w2)
            | (Throw e, w2) => (Throw e, with_log w2 (l e))
            end in
  fst m' = fst m /\ calls (snd m') = calls (snd m) /\ store (snd m') = store (snd m).
Proof. destruct m as [[a|e] w2]; simpl; auto. Qed.

(** C4.  [upsert] looks the id up with [findById], which always answers.
    When a record is found the outcome is that of [update(id, payload)];
    otherwise it is that of a create from a copy of the payload: the one
    call made to the store is [create(table, payload)], in which the id
    argument does not occur, and the record handed back is the one the store
    created, under the identifier the store gave it.  Both versions of the
    service. *)
Theorem upsert_contract (this : SurrealService) (id : string)
  (data : list (string * JsValue)) (w : World S) :
  let found := fst (Service.findById cl this id w) in
  let w1 := snd (Service.findById cl this id w) in
  let found' := fst (Legacy.findById cl this id w) in
  let l1 := snd (Legacy.findById cl this id w) in
  let made := CallCreate (db this) (table this) (JObj data) in
  (((exists r, found = Ok (Some r)) \/ found = Ok None)
   /\ ((exists r, found' = Ok (Some r)) \/ found' = Ok None))
  /\ (forall r, found = Ok (Some r) ->
      fst (Service.upsert cl this id data w) = fst (Service.update cl this id data w1)
      /\ calls (snd (Service.upsert cl this id data w))
         = calls (snd (Service.update cl this id data w1))
      /\ store (snd (Service.upsert cl this id data w))
         = store (snd (Service.update cl this id data w1)))
  /\ (forall r, found' = Ok (Some r) ->
      fst (Legacy.upsert cl this id data w) = fst (Legacy.update cl this id data l1)
      /\ calls (snd (Legacy.upsert cl this id data w))
         = calls (snd (Legacy.update cl this id data l1))
      /\ store (snd (Legacy.upsert cl this id data w))
         = store (snd (Legacy.update cl this id data l1)))
  /\ (found = Ok None ->
      fst (Service.upsert cl this id data w) = fst (Service.add cl this (JObj data) w1)
      /\ calls (snd (Service.upsert cl this id data w)) = (calls w1 ++ [made])%list
      /\ forall rec s',
           create cl (db this) (table this) (JObj data) (store w1)
           = (Ok (JArr [rec]), s') ->
           truthy rec = true ->
           fst (Service.upsert cl this id data w) = Ok (formatRecord rec))
  /\ (found' = Ok None ->
      fst (Legacy.upsert cl this id data w) = fst (Legacy.create cl this (JObj data) l1)
      /\ calls (snd (Legacy.upsert cl this id data w)) = (calls l1 ++ [made])%list
      /\ forall rec s',
           create cl (db this) (table this) (JObj data) (store l1)
           = (Ok (JArr [rec]), s') ->
           truthy rec = true ->
           fst (Legacy.upsert cl this id data w) = Ok rec).
Proof.
  intros found w1 found' l1 made.
  pose proof (ServiceFacts.upsert_spec cl this id data w) as U.
  pose proof (LegacyFacts.legacy_upsert_spec cl this id data w) as V.
  cbv zeta in U, V. subst found w1 found' l1.
  destruct (findById_answers cl this id w) as (T1 & T2).
  destruct T1 as (r1 & x1 & F1). destruct T2 as (r2 & x2 & F2).
  rewrite F1 in *. rewrite F2 in *. simpl fst. simpl snd.
  split; [split|split; [|split; [|split]]].
  - destruct r1; eauto.
  - destruct r2; eauto.
  - intros r E. inversion E. subst r1. rewrite U. apply rethrown.
  - intros r E. inversion E. subst r2. rewrite V. apply rethrown.
  - intros E. inversion E. subst r1. rewrite U.
    pose proof (ServiceFacts.add_spec cl this (JObj data) x1) as A. cbv zeta in A.
    fold made in A.
    destruct (rethrown (Service.add cl this (JObj data) x1)
                (LogFailed OpUpsert (table this) (Some id))) as (R1 & R2 & _).
    cbv zeta in R1, R2. rewrite R1, R2. split; [reflexivity|]. split.
    + rewrite A.
      destruct (create cl (db this) (table this) (JObj data) (store x1))
        as [[res|e] s']; [destruct (truthy (created res))|]; reflexivity.
    + intros rec s' C T. rewrite A, C.
      change (created (JArr [rec])) with rec. now rewrite T.
  - intros E. inversion E. subst r2. rewrite V.
    pose proof (LegacyFacts.legacy_create_spec cl this (JObj data) x2) as A. cbv zeta in A.
    fold made in A.
    destruct (rethrown (Legacy.create cl this (JObj data) x2)
                (LogFailed OpUpsert (table this) (Some id))) as (R1 & R2 & _).
    cbv zeta in R1, R2. rewrite R1, R2. split; [reflexivity|]. split.
    + rewrite A.
      destruct (create cl (db this) (table this) (JObj data) (store x2))
        as [[res|e] s']; [destruct (truthy (created res))|]; reflexivity.
    + intros rec s' C T. rewrite A, C.
      change (created (JArr [rec])) with rec. now rewrite T.
Qed.

End Upsert.

(** C4 on the in-memory store: an [upsert] under an id that is not stored
    creates the record under the store's fresh key, not under the id given;
    an [upsert] under a stored id updates that record. *)
Lemma upsert_contract_witness :
  fst (Service.upsert MemStore.client MemStore.users "user:zzz"
         [("name", JStr "Bob")] (MemStore.connected MemStore.empty))
  = Ok (JObj [("name", JStr "Bob"); ("id", JStr "user:r1")])
  /\ fst (Service.upsert MemStore.client MemStore.users "r2"
            [("age", JNum (Fin 31))] (MemStore.connected MemStore.five_users))
     = Ok (JObj [("name", JStr "Alice"); ("age", JNum (Fin 31));
                 ("id", JStr "user:r2")]).
Proof.
  destruct (upsert_contract MemStore.client MemStore.users "user:zzz"
              [("name", JStr "Bob")] (MemStore.connected MemStore.empty))
    as (_ & _ & _ & C & _).
  destruct (upsert_contract MemStore.client MemStore.users "r2"
              [("age", JNum (Fin 31))] (MemStore.connected MemStore.five_users))
    as (_ & U & _).
  split.
  - destruct (C eq_refl) as (_ & _ & R).
    exact (R (JObj [("name", JStr "Bob");
                    ("id", JObj [("tb", JStr "user"); ("id", JStr "r1")])])
             _ eq_refl eq_refl).
  - destruct (U (JObj [("name", JStr "Alice"); ("age", JNum (Fin 30));
                       ("id", JStr "user:r2")]) eq_refl) as (E & _).
    rewrite E. reflexivity.
Defined.

Section Format.
Context {S : Type} (cl : Client S).

Lemma has_assoc_set_assoc (k k' : string) (x : JsValue)
  (ps : list (string * JsValue)) :
  assoc k ps <> None ->
  (assoc k' (set_assoc k x ps) = None <-> assoc k' ps = None).
Proof.
  induction ps as [|[k0 v] ps IH]; simpl; [congruence|].
  destruct (String.eqb k k0) eqn:E; simpl.
  - intros _. destruct (String.eqb k' k0); [split; discriminate | reflexivity].
  - intros H. destruct (String.eqb k' k0); [split; discriminate | auto].
Qed.

Lemma formatRecord_keeps_id (r : JsValue) :
  has_prop "id" (formatRecord r) = has_prop "id" r.
Proof.
  destruct (has_prop "id" r) eqn:E.
  - destruct r; try discriminate. simpl in E.
    destruct (assoc "id" props) as [rid|] eqn:A; [|discriminate].
    rewrite (ServiceFacts.formatRecord_object props rid A). simpl.
    now rewrite ServiceFacts.assoc_set_assoc.
  - now rewrite (ServiceFacts.formatRecord_other r E).
Qed.

(** C10.  Every record that [add], [findById], [findBy], [update] and
    [updateBy] of the db-backed service hand to the caller has gone through
    [formatRecord], and so its [id] is a string: [formatRecord] keeps a
    record without [id] as it is, replaces a composite [{tb, id}] identifier
    by ['tb:id'], and any other [id] by [String(id)]. *)
Theorem returned_ids_are_strings (this : SurrealService) :
  (forall data w r w',
      Service.add cl this data w = (Ok r, w') -> formatted r /\ stringId r)
  /\ (forall id w r w',
        Service.findById cl this id w = (Ok (Some r), w') ->
        formatted r /\ stringId r)
  /\ (forall c w l w',
        Service.findBy cl this c w = (Ok l, w') ->
        Forall (fun r => formatted r /\ stringId r) l)
  /\ (forall id data w r w',
        Service.update cl this id data w = (Ok r, w') -> formatted r /\ stringId r)
  /\ (forall c data w l w',
        Service.updateBy cl this c data w = (Ok l, w') ->
        Forall (fun r => formatted r /\ stringId r) l)
  /\ (forall r0, has_prop "id" (formatRecord r0) = has_prop "id" r0)
  /\ (forall ps tb key,
        assoc "id" ps = Some (JObj [("tb", JStr tb); ("id", JStr key)]) ->
        get_prop "id" (formatRecord (JObj ps)) = JStr (tb ++ ":" ++ key))
  /\ (forall ps rid,
        assoc "id" ps = Some rid -> composite rid = false ->
        get_prop "id" (formatRecord (JObj ps)) = JStr (toStr rid)).
Proof.
  assert (P : forall r, formatted r -> formatted r /\ stringId r)
    by (intros r F; split; [exact F | now apply ServiceFacts.formatted_stringId]).
  assert (Q : forall l, Forall formatted l ->
                        Forall (fun r => formatted r /\ stringId r) l)
    by (intros l F; eapply Forall_impl; [exact P | exact F]).
  split; [|split; [|split; [|split; [|split; [|split; [|split]]]]]].
  - intros data w r w' H. apply P. eapply ServiceFacts.add_formatted; eauto.
  - intros id w r w' H. apply P. eapply ServiceFacts.findById_formatted; eauto.
  - intros c w l w' H. apply Q. eapply ServiceFacts.findBy_formatted; eauto.
  - intros id data w r w' H. apply P. eapply ServiceFacts.update_formatted; eauto.
  - intros c data w l w' H. apply Q. eapply ServiceFacts.updateBy_formatted; eauto.
  - exact formatRecord_keeps_id.
  - intros ps tb key A. rewrite (ServiceFacts.formatRecord_object ps _ A).
    simpl. now rewrite ServiceFacts.assoc_set_assoc.
  - intros ps rid A C. rewrite (ServiceFacts.formatRecord_object ps _ A), C.
    simpl. now rewrite ServiceFacts.assoc_set_assoc.
Qed.

End Format.

(** C10 on the in-memory store, which files records under composite
    identifiers: the record [add] hands back carries ["user:r1"]. *)
Lemma returned_ids_are_strings_witness :
  (exists s,
      get_prop "id" (JObj [("name", JStr "Alice"); ("age", JNum (Fin 30));
                           ("id", JStr "user:r1")]) = JStr s)
  /\ get_prop "id" (formatRecord
                      (JObj [("id", JObj [("tb", JStr "user"); ("id", JStr "r1")])]))
     = JStr "user:r1"
  /\ get_prop "id" (formatRecord (JObj [("id", JNum (Fin 7))])) = JStr "7".
Proof.
  destruct (returned_ids_are_strings MemStore.client MemStore.users)
    as (A & _ & _ & _ & _ & _ & C & O).
  split; [|split].
  - destruct (A MemStore.alice (MemStore.connected MemStore.empty) _ _ eq_refl)
      as (_ & I).
    exact (I eq_refl).
  - exact (C [("id", JObj [("tb", JStr "user"); ("id", JStr "r1")])]
             "user" "r1" eq_refl).
  - exact (O [("id", JNum (Fin 7))] (JNum (Fin 7)) eq_refl eq_refl).
Defined.

Section Paginate.
Context {S : Type} (cl : Client S).
Variable StringToNumber : string -> JsNum.



End Paginate.


End Contract.

(** ** The Active-Record wrapper *)

Module ModelFacts.
Import Js Eff Query Model.

Section WithClient.
Context {S : Type} (cl : Client S).





End WithClient.


End ModelFacts.

(* ================================================================== *)
(** * Further properties of the code *)
(* ================================================================== *)

(** ** Conditions, record ids and short ids *)

Module QueryMore.
Import Js Query.

Lemma includes_colon_cons (a : ascii) (s : string) :
  includes (String a s) ":" = Ascii.eqb a ":" || includes s ":".
Proof.
  unfold includes.
  change (String.index 0 ":" (String a s))
    with (if (if ascii_dec ":" a then prefix "" s else false) then Some 0
          else match String.index 0 ":" s with
               | Some n => Some (Datatypes.S n)
               | None => None
               end).
  destruct (ascii_dec ":" a) as [<-|N].
  - replace (prefix "" s) with true by (destruct s; reflexivity). reflexivity.
  - replace (Ascii.eqb a ":") with false
      by (symmetry; apply Ascii.eqb_neq; congruence).
    cbv iota. rewrite orb_false_l.
    destruct (String.index 0 ":" s); reflexivity.
Qed.

Lemma includes_colon_app (t rest : string) :
  includes (t ++ ":" ++ rest) ":" = true.
Proof.
  induction t as [|a t IH]; simpl.
  - now rewrite includes_colon_cons.
  - rewrite includes_colon_cons. simpl in IH. rewrite IH. apply orb_true_r.
Qed.

Lemma nonempty_app_colon (t rest : string) :
  String.eqb (t ++ ":" ++ rest) "" = false.
Proof. destruct t; reflexivity. Qed.

Lemma split_head (t rest : string) :
  includes t ":" = false ->
  split ":"%char (t ++ ":" ++ rest) = t :: split ":"%char rest.
Proof.
  induction t as [|a t IH]; intros H; simpl.
  - reflexivity.
  - rewrite includes_colon_cons in H. apply orb_false_iff in H.
    destruct H as [A T]. rewrite A. simpl in IH. now rewrite (IH T).
Qed.

Lemma split_whole (k : string) :
  includes k ":" = false -> split ":"%char k = [k].
Proof.
  induction k as [|a k IH]; intros H; simpl.
  - reflexivity.
  - rewrite includes_colon_cons in H. apply orb_false_iff in H.
    destruct H as [A T]. now rewrite A, (IH T).
Qed.

(** X1.  The mapping form of a condition is the list of its entries taken as
    triples without an operator (or with the operator [=]): both forms give
    the same clause. *)
Theorem fields_are_equality_triples (entries : list (string * JsValue)) :
  buildWhereClause (ByFields entries)
  = buildWhereClause
      (ByTriples (map (fun kv => {| field := fst kv; operator := None;
                                    value := snd kv |}) entries))
  /\ buildWhereClause (ByFields entries)
     = buildWhereClause
         (ByTriples (map (fun kv => {| field := fst kv; operator := Some OpEq;
                                       value := snd kv |}) entries)).
Proof.
  unfold buildWhereClause. rewrite !map_map. split; reflexivity.
Qed.

(** X2.  For [IN] and [NOT IN] a value that is not an array is taken as the
    one-element array holding it: the condition renders as
    [field IN [<JSON value>]]. *)
Theorem in_scalar_is_singleton (f : string) (v : JsValue) :
  isArray v = false ->
  let c := fun op x => {| field := f; operator := Some op; value := x |} in
  renderCondition (c OpIn v) = renderCondition (c OpIn (JArr [v]))
  /\ renderCondition (c OpNotIn v) = renderCondition (c OpNotIn (JArr [v]))
  /\ renderCondition (c OpIn v) = f ++ " IN [" ++ join_item (stringify v) ++ "]"
  /\ renderCondition (c OpNotIn v)
     = f ++ " NOT IN [" ++ join_item (stringify v) ++ "]".
Proof.
  intros A c. destruct v; try discriminate A; repeat split; reflexivity.
Qed.

Lemma in_scalar_is_singleton_witness :
  renderCondition {| field := "age"; operator := Some OpIn; value := JNum (Fin 3) |}
  = "age IN [3]".
Proof.
  destruct (in_scalar_is_singleton "age" (JNum (Fin 3)) eq_refl) as (_ & _ & E & _).
  exact E.
Defined.

(** Normalising an id is idempotent: the record id of a record id is
    itself, because it always contains a [':']. *)
Lemma recordIdOf_idempotent (table id : string) :
  includes (recordIdOf table id) ":" = true
  /\ recordIdOf table (recordIdOf table id) = recordIdOf table id
  /\ String.eqb (recordIdOf table id) "" = String.eqb id "" && includes id ":".
Proof.
  unfold recordIdOf. destruct (includes id ":") eqn:E.
  - rewrite E. split; [reflexivity|]. split; [reflexivity|].
    rewrite andb_true_r.
    destruct id; [discriminate E | reflexivity].
  - rewrite includes_colon_app. split; [reflexivity|]. split; [reflexivity|].
    now rewrite nonempty_app_colon, andb_false_r.
Qed.

End QueryMore.

Module ModelMore.
Import Js Model QueryMore.

(** X4.  [shortId] undoes the table prefix: for an id [table:key] whose two
    parts contain no [':'] it is [key]; an id without [':'] is its own short
    id; of an id with more segments only the second is kept; an unset or
    empty id has none. *)
Theorem shortId_strips_table (this : BaseModel) :
  (forall t k, id this = Some (t ++ ":" ++ k) ->
               includes t ":" = false -> includes k ":" = false ->
               shortId this = Some k)
  /\ (forall k, id this = Some k -> k <> "" -> includes k ":" = false ->
                shortId this = Some k)
  /\ (forall t k rest, id this = Some (t ++ ":" ++ k ++ ":" ++ rest) ->
                       includes t ":" = false -> includes k ":" = false ->
                       shortId this = Some k)
  /\ (id this = None \/ id this = Some "" -> shortId this = None).
Proof.
  unfold shortId, idValue. split; [|split; [|split]].
  - intros t k E T K. rewrite E. cbn [truthy toStr].
    rewrite nonempty_app_colon, includes_colon_app. cbn [negb].
    rewrite (split_head t k T), (split_whole k K). reflexivity.
  - intros k E N K. rewrite E. cbn [truthy toStr].
    rewrite (proj2 (String.eqb_neq k "") N), K. reflexivity.
  - intros t k rest E T K. rewrite E. cbn [truthy toStr].
    rewrite nonempty_app_colon, includes_colon_app. cbn [negb].
    rewrite (split_head t _ T), (split_head k rest K). reflexivity.
  - intros [E|E]; rewrite E; reflexivity.
Qed.

Lemma shortId_strips_table_witness :
  shortId MemStore.saved = Some "r1"
  /\ shortId MemStore.unsaved = None.
Proof.
  destruct (shortId_strips_table MemStore.saved) as (A & _).
  destruct (shortId_strips_table MemStore.unsaved) as (_ & _ & _ & D).
  split.
  - exact (A "user" "r1" eq_refl eq_refl eq_refl).
  - exact (D (or_introl eq_refl)).
Defined.

End ModelMore.

(** ** Opening and releasing the connection *)

Module ConnMore.
Import Js Eff Conn.

Section WithClient.
Context {S : Type} (cl : Client S).

Lemma getDb_outcome (c : DbConfig) (w : World S) :
  let h := fst (new_surreal cl (store w)) in
  let opened := [CallNew h; CallConnect h (url c) (username c) (password c)] in
  let used := CallUse h (namespace c) (database c) in
  match getDb cl c w with
  | (Ok h', w') =>
      h' = h /\ console w' = console w
      /\ calls w' = (calls w ++ opened ++ [used])%list
  | (Throw e, w') =>
      console w' = (console w ++ [LogConnectFailed e])%list
      /\ (calls w' = (calls w ++ opened ++ [CallClose h])%list
          \/ calls w' = (calls w ++ opened ++ [used; CallClose h])%list)
  end.
Proof.
  unfold getDb, bind, newSurreal, try_catch, call, closeHandle, log, throw, ret.
  destruct (new_surreal cl (store w)) as [h s1]. simpl.
  destruct (connect cl h (url c) (username c) (password c) s1) as [[[]|e] s2]; simpl.
  - destruct (use cl h (namespace c) (database c) s2) as [[[]|e] s3]; simpl.
    + repeat split. now rewrite <- !app_assoc.
    + split; [reflexivity|]. right. now rewrite <- !app_assoc.
  - split; [reflexivity|]. left. now rewrite <- !app_assoc.
Qed.

(** X5.  An [init] on an uninitialised manager opens a fresh client object
    with the default configuration.  When connecting or selecting the
    namespace fails, that object is closed again, the manager stays
    uninitialised, two console lines are written (the one of [getDb], then
    the one of [initSurrealDB]) and the error is thrown on; when it succeeds
    the object is kept open and becomes the instance. *)
Theorem init_releases_on_failure (w : World S) :
  dbInstance w = None ->
  let h := fst (new_surreal cl (store w)) in
  let opened := [CallNew h; CallConnect h "ws://localhost:8000/rpc" "root" "root"] in
  let used := CallUse h "test" "test" in
  match initSurrealDB cl w with
  | (Ok h', w') =>
      h' = h /\ dbInstance w' = Some h /\ console w' = console w
      /\ calls w' = (calls w ++ opened ++ [used])%list
  | (Throw e, w') =>
      dbInstance w' = None
      /\ console w' = (console w ++ [LogConnectFailed e; LogInitFailed e])%list
      /\ (calls w' = (calls w ++ opened ++ [CallClose h])%list
          \/ calls w' = (calls w ++ opened ++ [used; CallClose h])%list)
  end.
Proof.
  intros N h opened used.
  pose proof (getDb_outcome DEFAULT_CONFIG w) as G. cbv zeta in G.
  change (url DEFAULT_CONFIG) with "ws://localhost:8000/rpc" in G.
  change (username DEFAULT_CONFIG) with "root" in G.
  change (password DEFAULT_CONFIG) with "root" in G.
  change (namespace DEFAULT_CONFIG) with "test" in G.
  change (database DEFAULT_CONFIG) with "test" in G.
  fold h in G. fold opened in G. fold used in G.
  unfold initSurrealDB, bind, get_instance, try_catch, set_instance, log, throw, ret.
  rewrite N.
  destruct (getDb cl DEFAULT_CONFIG w) as [[h'|e] w1]; simpl.
  - destruct G as (-> & C & K). auto.
  - destruct G as (C & K). split; [reflexivity|]. split; [|exact K].
    rewrite C. now rewrite <- app_assoc.
Qed.

End WithClient.

Lemma init_releases_on_failure_witness :
  calls (snd (initSurrealDB MemStore.client (boot MemStore.offline)))
  = [CallNew 0; CallConnect 0 "ws://localhost:8000/rpc" "root" "root"; CallClose 0]
  /\ dbInstance (snd (initSurrealDB MemStore.client (boot MemStore.offline))) = None
  /\ dbInstance (snd (initSurrealDB MemStore.client (boot MemStore.empty))) = Some 0.
Proof.
  pose proof (init_releases_on_failure MemStore.client (boot MemStore.offline) eq_refl)
    as F.
  pose proof (init_releases_on_failure MemStore.client (boot MemStore.empty) eq_refl)
    as G.
  cbv zeta in F, G.
  destruct (initSurrealDB MemStore.client (boot MemStore.offline)) as [[h|e] w1] eqn:E1;
    [discriminate E1|].
  destruct (initSurrealDB MemStore.client (boot MemStore.empty)) as [[h|e'] w2] eqn:E2;
    [|discriminate E2].
  destruct F as (D & _ & [K|K]); destruct G as (_ & I & _).
  - split; [exact K|]. split; [exact D|exact I].
  - exfalso. vm_compute in E1. inversion E1. subst w1. discriminate K.
Defined.

End ConnMore.

(** ** More of the db-backed service *)

Module ServiceMore.
Import Js Eff Query.
Import Service (SurrealService, db, table, formatRecord, firstRecord, created,
                formatted).

Section WithClient.
Context {S : Type} (cl : Client S).

Lemma nonempty_recordId (t id : string) :
  id <> "" -> String.eqb (recordIdOf t id) "" = false.
Proof.
  intros N. destruct (QueryMore.recordIdOf_idempotent t id) as (_ & _ & E).
  rewrite E. now rewrite (proj2 (String.eqb_neq id "") N).
Qed.

(** X3.  A bare key and the full id it stands for are interchangeable: for a
    non-empty [id], [findById] and [delete] called with [table:id] send the
    same statement, leave the same store and give the same answer as when
    called with [id]. *)
Theorem full_id_is_interchangeable (this : SurrealService) (id : string)
  (w : World S) :
  id <> "" ->
  let full := recordIdOf (table this) id in
  (fst (Service.findById cl this full w) = fst (Service.findById cl this id w)
   /\ store (snd (Service.findById cl this full w))
      = store (snd (Service.findById cl this id w))
   /\ calls (snd (Service.findById cl this full w))
      = calls (snd (Service.findById cl this id w)))
  /\ (fst (Service.delete cl this full w) = fst (Service.delete cl this id w)
      /\ store (snd (Service.delete cl this full w))
         = store (snd (Service.delete cl this id w))
      /\ calls (snd (Service.delete cl this full w))
         = calls (snd (Service.delete cl this id w))).
Proof.
  intros N full.
  destruct (QueryMore.recordIdOf_idempotent (table this) id) as (_ & I & _).
  pose proof (nonempty_recordId (table this) id N) as F.
  pose proof (proj2 (String.eqb_neq id "") N) as E.
  fold full in I, F. split.
  - rewrite !ServiceFacts.findById_spec. cbv zeta. rewrite I, F, E.
    destruct (query cl (db this) _ (store w)) as [[r|e] s']; auto.
  - rewrite !ServiceFacts.delete_spec. cbv zeta. rewrite I, F, E.
    destruct (query cl (db this) _ (store w)) as [[r|e] s']; auto.
Qed.

Lemma add_calls (this : SurrealService) (d : JsValue) (w : World S) :
  calls (snd (Service.add cl this d w))
  = (calls w ++ [CallCreate (db this) (table this) d])%list.
Proof.
  rewrite ServiceFacts.add_spec. cbv zeta.
  destruct (create cl (db this) (table this) d (store w)) as [[r|e] s'];
    [destruct (truthy (created r))|]; reflexivity.
Qed.

Lemma all_adds_calls (this : SurrealService) (ds : list JsValue) (w : World S) :
  calls (snd (promise_all (map (fun d => Service.add cl this d) ds) w))
  = (calls w ++ map (CallCreate (db this) (table this)) ds)%list.
Proof.
  revert w. induction ds as [|d ds IH]; intros w; simpl.
  - now rewrite app_nil_r.
  - pose proof (add_calls this d w) as A.
    destruct (Service.add cl this d w) as [r w1]. simpl in A.
    specialize (IH w1).
    destruct (promise_all _ w1) as [rs w2]. simpl in *.
    rewrite IH, A. now rewrite <- app_assoc.
Qed.

Lemma all_adds_results (this : SurrealService) (ds : list JsValue)
  (w w' : World S) (rs : list JsValue) :
  promise_all (map (fun d => Service.add cl this d) ds) w = (Ok rs, w') ->
  List.length rs = List.length ds /\ Forall formatted rs.
Proof.
  revert w w' rs. induction ds as [|d ds IH]; intros w w' rs; simpl.
  - unfold ret. intros H. inversion H. auto.
  - destruct (Service.add cl this d w) as [r w1] eqn:A.
    destruct (promise_all _ w1) as [l w2] eqn:P.
    destruct r as [a|e], l as [l|e']; intros H; inversion H; subst.
    destruct (IH _ _ _ P) as (L & F). split; [simpl; now rewrite L|].
    constructor; [eapply ServiceFacts.add_formatted; eauto | exact F].
Qed.

(** X6.  [addMany] sends one [create] per payload, in order, whether or not
    some of them fail (nothing is rolled back and nothing is skipped); when
    it resolves, it hands back one formatted record per payload. *)
Theorem addMany_creates_every_payload (this : SurrealService)
  (ds : list JsValue) (w : World S) :
  calls (snd (Service.addMany cl this ds w))
  = (calls w ++ map (CallCreate (db this) (table this)) ds)%list
  /\ (forall rs w', Service.addMany cl this ds w = (Ok rs, w') ->
        List.length rs = List.length ds /\ Forall formatted rs).
Proof.
  unfold Service.addMany. rewrite ServiceFacts.rethrow_spec.
  pose proof (all_adds_calls this ds w) as C.
  destruct (promise_all _ w) as [[rs|e] w1] eqn:P; simpl in *.
  - split; [exact C|]. intros rs' w' H. inversion H. subst.
    eapply all_adds_results; eauto.
  - split; [exact C|]. discriminate.
Qed.

Lemma findOne_spec (this : SurrealService) (c : Conditions) (w : World S) :
  Service.findOne cl this c w =
    match Service.findBy cl this c w with
    | (Ok l, w') => (Ok (if truthy (index 0 l) then Some (index 0 l) else None), w')
    | (Throw e, w') => (Throw e, with_log w' (LogFailed OpFindOne (table this) None e))
    end.
Proof.
  unfold Service.findOne. rewrite ServiceFacts.rethrow_spec. unfold bind, ret.
  destruct (Service.findBy cl this c w) as [[l|e] w']; reflexivity.
Qed.

Lemma findBy_rows (this : SurrealService) (c : Conditions) (w : World S)
  (rows : list JsValue) (s' : S) :
  let q := "SELECT * FROM " ++ table this ++ " WHERE " ++ buildWhereClause c in
  query cl (db this) q (store w) = (Ok [JArr rows], s') ->
  Service.findBy cl this c w
  = (Ok (map formatRecord rows), with_call w (CallQuery (db this) q) s').
Proof.
  intros q E. subst q.
  unfold Service.findBy, Service.dbQuery, try_catch, bind, call. cbv zeta.
  now rewrite E.
Qed.

(** X7.  [findOne] is the first record [findBy] returns, or [null] when it
    returns none, and [existsBy] tells which; an error the store throws is
    thrown on by both, after two console lines, the one of [findBy] and the
    one of [findOne]. *)
Theorem findOne_is_first_of_findBy (this : SurrealService) (c : Conditions)
  (w : World S) :
  let q := "SELECT * FROM " ++ table this ++ " WHERE " ++ buildWhereClause c in
  let sent := fun s' => with_call w (CallQuery (db this) q) s' in
  (forall l w', Service.findBy cl this c w = (Ok l, w') ->
      Service.findOne cl this c w
      = (Ok (if truthy (index 0 l) then Some (index 0 l) else None), w'))
  /\ (forall s', query cl (db this) q (store w) = (Ok [JArr []], s') ->
        Service.findOne cl this c w = (Ok None, sent s')
        /\ Service.existsBy cl this c w = (Ok false, sent s'))
  /\ (forall r rest s', truthy r = true ->
        query cl (db this) q (store w) = (Ok [JArr (r :: rest)], s') ->
        Service.findOne cl this c w = (Ok (Some (formatRecord r)), sent s')
        /\ Service.existsBy cl this c w = (Ok true, sent s'))
  /\ (forall e s', query cl (db this) q (store w) = (Throw e, s') ->
        let w' := with_log (with_log (sent s') (LogFailed OpFindBy (table this) None e))
                           (LogFailed OpFindOne (table this) None e) in
        Service.findOne cl this c w = (Throw e, w')
        /\ Service.existsBy cl this c w = (Throw e, w')).
Proof.
  intros q sent. split; [|split; [|split]].
  - intros l w' E. now rewrite findOne_spec, E.
  - intros s' E.
    assert (O : Service.findOne cl this c w = (Ok None, sent s')).
    { rewrite findOne_spec, (findBy_rows this c w [] s' E). reflexivity. }
    split; [exact O|]. unfold Service.existsBy, bind, ret. now rewrite O.
  - intros r rest s' T E.
    assert (O : Service.findOne cl this c w
                = (Ok (Some (formatRecord r)), sent s')).
    { rewrite findOne_spec, (findBy_rows this c w (r :: rest) s' E).
      change (index 0 (map formatRecord (r :: rest))) with (formatRecord r).
      now rewrite (ServiceFacts.formatRecord_truthy r T). }
    split; [exact O|]. unfold Service.existsBy, bind, ret. now rewrite O.
  - intros e s' E w'.
    assert (O : Service.findOne cl this c w = (Throw e, w')).
    { rewrite findOne_spec, (ServiceFacts.findBy_throw cl this c w e s' E).
      reflexivity. }
    split; [exact O|]. unfold Service.existsBy, bind, ret. now rewrite O.
Qed.

(** X8.  [exists] never raises: it is [false] for the empty id and when the
    store call throws (where [existsBy] throws), [false] when the answer
    holds no record and [true] when it holds one. *)
Theorem exists_never_raises (this : SurrealService) (id : string) (w : World S) :
  let q := "SELECT * FROM " ++ recordIdOf (table this) id in
  (exists b w', Service.exists_ cl this id w = (Ok b, w'))
  /\ (id = "" -> Service.exists_ cl this id w = (Ok false, with_log w (LogInvalidId id)))
  /\ (id <> "" -> forall e s', query cl (db this) q (store w) = (Throw e, s') ->
        fst (Service.exists_ cl this id w) = Ok false)
  /\ (id <> "" -> forall s', query cl (db this) q (store w) = (Ok [JArr []], s') ->
        fst (Service.exists_ cl this id w) = Ok false)
  /\ (id <> "" -> forall r rest s', truthy r = true ->
        query cl (db this) q (store w) = (Ok [JArr (r :: rest)], s') ->
        fst (Service.exists_ cl this id w) = Ok true).
Proof.
  intros q. unfold Service.exists_, bind, ret.
  rewrite ServiceFacts.findById_spec. cbv zeta. fold q.
  split; [|split; [|split; [|split]]].
  - destruct (String.eqb id ""); [eauto|].
    destruct (query cl (db this) q (store w)) as [[r|e] s']; eauto.
  - intros ->. reflexivity.
  - intros N e s' E. now rewrite (proj2 (String.eqb_neq id "") N), E.
  - intros N s' E. now rewrite (proj2 (String.eqb_neq id "") N), E.
  - intros N r rest s' T E. rewrite (proj2 (String.eqb_neq id "") N), E.
    unfold firstRecord.
    cbn [index nth truthy typeof_object has_prop isArray Js.elem0 andb].
    now rewrite T.
Qed.

End WithClient.

Lemma full_id_is_interchangeable_witness :
  fst (Service.findById MemStore.client MemStore.users "user:r2"
         (MemStore.connected MemStore.five_users))
  = fst (Service.findById MemStore.client MemStore.users "r2"
           (MemStore.connected MemStore.five_users)).
Proof.
  assert (N : "r2" <> "") by discriminate.
  destruct (full_id_is_interchangeable MemStore.client MemStore.users "r2"
              (MemStore.connected MemStore.five_users) N) as ((E & _) & _).
  exact E.
Defined.

Lemma addMany_creates_every_payload_witness :
  List.length (MemStore.rows MemStore.five_users) = 5
  /\ exists rs w',
      Service.addMany MemStore.client MemStore.users [MemStore.alice; MemStore.alice]
        (MemStore.connected MemStore.empty) = (Ok rs, w')
      /\ List.length rs = 2.
Proof.
  split; [reflexivity|].
  destruct (Service.addMany MemStore.client MemStore.users
              [MemStore.alice; MemStore.alice] (MemStore.connected MemStore.empty))
    as [[rs|e] w'] eqn:E; [|discriminate E].
  exists rs, w'. split; [reflexivity|].
  destruct (addMany_creates_every_payload MemStore.client MemStore.users
              [MemStore.alice; MemStore.alice] (MemStore.connected MemStore.empty))
    as (_ & L).
  exact (proj1 (L rs w' E)).
Defined.

Lemma findOne_is_first_of_findBy_witness :
  fst (Service.findOne MemStore.client MemStore.users
         (ByFields [("age", JNum (Fin 30))]) (MemStore.connected MemStore.five_users))
  = Ok (Some (JObj [("name", JStr "Alice"); ("age", JNum (Fin 30));
                    ("id", JStr "user:r1")]))
  /\ fst (Service.existsBy MemStore.client MemStore.users
            (ByFields [("age", JNum (Fin 25))]) (MemStore.connected MemStore.five_users))
     = Ok false
  /\ fst (Service.existsBy MemStore.client MemStore.users (ByFields [])
            (MemStore.connected MemStore.five_users))
     = Throw (StoreError "parse error").
Proof.
  pose (w := MemStore.connected MemStore.five_users).
  destruct (findOne_is_first_of_findBy MemStore.client MemStore.users
              (ByFields [("age", JNum (Fin 30))]) w) as (_ & _ & F & _).
  destruct (findOne_is_first_of_findBy MemStore.client MemStore.users
              (ByFields [("age", JNum (Fin 25))]) w) as (_ & N & _).
  destruct (findOne_is_first_of_findBy MemStore.client MemStore.users
              (ByFields []) w) as (_ & _ & _ & T).
  split; [|split].
  - destruct (F (JObj [("name", JStr "Alice"); ("age", JNum (Fin 30));
                       ("id", JObj [("tb", JStr "user"); ("id", JStr "r1")])])
                (List.tl (MemStore.of_table "user" (MemStore.rows MemStore.five_users)))
                MemStore.five_users eq_refl eq_refl) as (E & _).
    fold w. now rewrite E.
  - destruct (N MemStore.five_users eq_refl) as (_ & E). fold w. now rewrite E.
  - destruct (T (StoreError "parse error") MemStore.five_users eq_refl) as (_ & E).
    fold w. now rewrite E.
Defined.

Lemma exists_never_raises_witness :
  fst (Service.exists_ MemStore.client MemStore.users ""
         (MemStore.connected MemStore.five_users)) = Ok false
  /\ fst (Service.exists_ MemStore.client MemStore.users "r9"
            (MemStore.connected MemStore.five_users)) = Ok false
  /\ fst (Service.exists_ MemStore.client MemStore.users "r1"
            (MemStore.connected MemStore.offline)) = Ok false.
Proof.
  pose (w := MemStore.connected MemStore.five_users).
  assert (N9 : "r9" <> "") by discriminate.
  assert (N1 : "r1" <> "") by discriminate.
  destruct (exists_never_raises MemStore.client MemStore.users "" w) as (_ & E & _).
  destruct (exists_never_raises MemStore.client MemStore.users "r9" w)
    as (_ & _ & _ & M & _).
  destruct (exists_never_raises MemStore.client MemStore.users "r1"
              (MemStore.connected MemStore.offline)) as (_ & _ & T & _).
  split; [|split].
  - fold w. now rewrite (E eq_refl).
  - exact (M N9 MemStore.five_users eq_refl).
  - exact (T N1 (StoreError "connection closed") MemStore.offline eq_refl).
Defined.

End ServiceMore.

(** ** Reads, counts and deletions by condition *)

Module ServiceEdges.
Import Js Eff Query.
Import Service (SurrealService, db, table, formatRecord, created, formatted).

Lemma append_cancel (a x y : string) : a ++ x = a ++ y -> x = y.
Proof.
  induction a as [|c a IH]; simpl; intros H; [exact H|].
  inversion H. auto.
Qed.

Section WithClient.
Context {S : Type} (cl : Client S).
Variable StringToNumber : string -> JsNum.

(** X9.  [findAll] hands back the rows of the table exactly as the store
    gave them, without [formatRecord]; an answer that is not an array gives
    the empty sequence; an error of the store is logged and thrown on. *)
Theorem findAll_hands_rows_back (this : SurrealService) (w : World S) :
  let sent := fun s' => with_call w (CallSelect (db this) (table this)) s' in
  (forall rows s',
      select cl (db this) (table this) (store w) = (Ok (JArr rows), s') ->
      Service.findAll cl this w = (Ok rows, sent s'))
  /\ (forall v s',
        select cl (db this) (table this) (store w) = (Ok v, s') ->
        isArray v = false ->
        Service.findAll cl this w = (Ok [], sent s'))
  /\ (forall e s',
        select cl (db this) (table this) (store w) = (Throw e, s') ->
        Service.findAll cl this w
        = (Throw e, with_log (sent s') (LogFailed OpFindAll (table this) None e))).
Proof.
  intros sent. unfold Service.findAll. rewrite ServiceFacts.rethrow_spec.
  unfold bind, call, ret. split; [|split].
  - intros rows s' E. now rewrite E.
  - intros v s' E A. rewrite E. destruct v; try reflexivity; discriminate A.
  - intros e s' E. now rewrite E.
Qed.

(** X10.  [deleteAll] never raises: it sends [DELETE FROM table] and answers
    [true] when the store completes the call, [false] with a console line
    when the store throws. *)
Theorem deleteAll_never_raises (this : SurrealService) (w : World S) :
  let q := "DELETE FROM " ++ table this in
  let sent := fun s' => with_call w (CallQuery (db this) q) s' in
  (exists b w', Service.deleteAll cl this w = (Ok b, w'))
  /\ (forall r s', query cl (db this) q (store w) = (Ok r, s') ->
        Service.deleteAll cl this w = (Ok true, sent s'))
  /\ (forall e s', query cl (db this) q (store w) = (Throw e, s') ->
        Service.deleteAll cl this w
        = (Ok false, with_log (sent s') (LogFailed OpDeleteAll (table this) None e))).
Proof.
  intros q sent.
  unfold Service.deleteAll, Service.dbQuery, try_catch, bind, call, log, ret.
  cbv zeta. fold q.
  destruct (query cl (db this) q (store w)) as [[r|e] s'] eqn:E.
  - split; [eauto|]. split; intros ? ? H; inversion H; subst; reflexivity.
  - split; [eauto|]. split; intros ? ? H; inversion H; subst; reflexivity.
Qed.

(** X11.  [deleteBy] reports the number of deleted rows only for an answer
    wrapped in a [result] field; for an answer that is the array of deleted
    rows itself, which [findBy] and [updateBy] read, it reports [0].  An
    error of the store is logged and thrown on. *)
Theorem deleteBy_counts_wrapped_answers (this : SurrealService) (c : Conditions)
  (w : World S) :
  let q := Service.deleteByQuery this c in
  let sent := fun s' => with_call w (CallQuery (db this) q) s' in
  (forall rows rest s',
      query cl (db this) q (store w)
      = (Ok (JObj [("result", JArr rows)] :: rest), s') ->
      Service.deleteBy cl this c w
      = (Ok (JNum (Fin (Z.of_nat (List.length rows)))), sent s'))
  /\ (forall rows rest s',
        query cl (db this) q (store w) = (Ok (JArr rows :: rest), s') ->
        Service.deleteBy cl this c w = (Ok (JNum (Fin 0)), sent s'))
  /\ (forall e s',
        query cl (db this) q (store w) = (Throw e, s') ->
        Service.deleteBy cl this c w
        = (Throw e, with_log (sent s') (LogFailed OpDeleteBy (table this) None e))).
Proof.
  intros q sent. unfold Service.deleteBy. rewrite ServiceFacts.rethrow_spec.
  unfold bind, Service.dbQuery, call, ret. cbv zeta. fold q.
  split; [|split]; intros; match goal with H : query _ _ _ _ = _ |- _ => rewrite H end;
    reflexivity.
Qed.

(** X12.  [count] answers [0] when the store returns no row, and the [count]
    field of the first row otherwise, whether the rows come as the answer
    itself or wrapped in [result]; the legacy service reads only the wrapped
    form and answers [0] for the other.  An error of the store is logged and
    thrown on. *)
Theorem count_reads_the_first_row (this : SurrealService)
  (conditions : option Conditions) (w : World S) :
  let q := Service.countQuery this conditions in
  let q' := Legacy.countQuery this conditions in
  (forall s', query cl (db this) q (store w) = (Ok [JArr []], s') ->
      fst (Service.count cl StringToNumber this conditions w) = Ok (JNum (Fin 0)))
  /\ (forall n ps more rest s',
        assoc "count" ps = Some (JNum (Fin n)) -> n <> 0%Z ->
        (query cl (db this) q (store w) = (Ok (JArr (JObj ps :: more) :: rest), s') ->
         fst (Service.count cl StringToNumber this conditions w) = Ok (JNum (Fin n)))
        /\ (query cl (db this) q (store w)
            = (Ok (JObj [("result", JArr (JObj ps :: more))] :: rest), s') ->
            fst (Service.count cl StringToNumber this conditions w) = Ok (JNum (Fin n)))
        /\ (query cl (db this) q' (store w)
            = (Ok (JObj [("result", JArr (JObj ps :: more))] :: rest), s') ->
            fst (Legacy.count cl this conditions w) = Ok (JNum (Fin n)))
        /\ (query cl (db this) q' (store w) = (Ok (JArr (JObj ps :: more) :: rest), s') ->
            fst (Legacy.count cl this conditions w) = Ok (JNum (Fin 0))))
  /\ (forall e s', query cl (db this) q (store w) = (Throw e, s') ->
        Service.count cl StringToNumber this conditions w
        = (Throw e, with_log (with_call w (CallQuery (db this) q) s')
                             (LogFailed OpCount (table this) None e))).
Proof.
  intros q q'.
  pose proof (ServiceFacts.count_spec cl StringToNumber this conditions w) as C.
  pose proof (LegacyFacts.legacy_count_spec cl this conditions w) as L.
  cbv zeta in C, L. fold q in C. fold q' in L.
  split; [|split].
  - intros s' E. rewrite C, E. reflexivity.
  - intros n ps more rest s' A N.
    assert (T : truthy (JNum (Fin n)) = true).
    { simpl. now rewrite (proj2 (Z.eqb_neq n 0) N). }
    assert (G : gt_zero StringToNumber
                  (JNum (Fin (Z.of_nat (List.length (JObj ps :: more))))) = true).
    { unfold gt_zero, ToNumber. apply Z.ltb_lt. simpl List.length. lia. }
    split; [|split; [|split]]; intros E.
    + rewrite C, E. unfold fst, Service.readCount.
      cbn [index nth truthy typeof_object has_prop isArray andb elem0 length_of
           is_null negb get_prop assoc String.eqb Ascii.eqb Bool.eqb or_else].
      rewrite G, A. unfold or_else. now rewrite T.
    + rewrite C, E. unfold fst, Service.readCount.
      cbn [index nth truthy typeof_object has_prop isArray andb elem0 length_of
           is_null negb get_prop assoc String.eqb Ascii.eqb Bool.eqb or_else].
      rewrite G, A. unfold or_else. now rewrite T.
    + rewrite L, E. unfold fst, Legacy.readCount.
      cbn [index nth truthy typeof_object has_prop isArray andb elem0 length_of
           is_null negb get_prop assoc String.eqb Ascii.eqb Bool.eqb or_else].
      rewrite A. unfold or_else. now rewrite T.
    + rewrite L, E. reflexivity.
  - intros e s' E. now rewrite C, E.
Qed.

End WithClient.

Lemma findAll_hands_rows_back_witness :
  fst (Service.findAll MemStore.client MemStore.users
         (MemStore.connected MemStore.five_users))
  = Ok (MemStore.of_table "user" (MemStore.rows MemStore.five_users))
  /\ fst (Service.findAll MemStore.client MemStore.users
            (MemStore.connected MemStore.offline))
     = Throw (StoreError "connection closed")
  /\ fst (Service.findAll Canned.client MemStore.users (Canned.world (Ok [])))
     = Ok [].
Proof.
  destruct (findAll_hands_rows_back MemStore.client MemStore.users
              (MemStore.connected MemStore.five_users)) as (R & _ & _).
  destruct (findAll_hands_rows_back MemStore.client MemStore.users
              (MemStore.connected MemStore.offline)) as (_ & _ & T).
  split; [|split].
  - now rewrite (R _ MemStore.five_users eq_refl).
  - now rewrite (T (StoreError "connection closed") MemStore.offline eq_refl).
  - reflexivity.
Defined.

Lemma deleteAll_never_raises_witness :
  fst (Service.deleteAll Canned.client MemStore.users (Canned.world (Ok [JArr []])))
  = Ok true
  /\ fst (Service.deleteAll MemStore.client MemStore.users
            (MemStore.connected MemStore.offline)) = Ok false.
Proof.
  destruct (deleteAll_never_raises Canned.client MemStore.users
              (Canned.world (Ok [JArr []]))) as (_ & K & _).
  destruct (deleteAll_never_raises MemStore.client MemStore.users
              (MemStore.connected MemStore.offline)) as (_ & _ & T).
  split.
  - now rewrite (K [JArr []] (Ok [JArr []]) eq_refl).
  - now rewrite (T (StoreError "connection closed") MemStore.offline eq_refl).
Defined.

Lemma deleteBy_counts_wrapped_answers_witness :
  let c := ByFields [("age", JNum (Fin 30))] in
  fst (Service.deleteBy Canned.client MemStore.users c
         (Canned.world (Ok [JObj [("result", JArr [MemStore.alice; MemStore.alice])]])))
  = Ok (JNum (Fin 2))
  /\ fst (Service.deleteBy Canned.client MemStore.users c
            (Canned.world (Ok [JArr [MemStore.alice; MemStore.alice]])))
     = Ok (JNum (Fin 0))
  /\ fst (Service.deleteBy MemStore.client MemStore.users c
            (MemStore.connected MemStore.offline))
     = Throw (StoreError "connection closed").
Proof.
  intros c.
  destruct (deleteBy_counts_wrapped_answers Canned.client MemStore.users c
              (Canned.world (Ok [JObj [("result",
                                        JArr [MemStore.alice; MemStore.alice])]])))
    as (W & _ & _).
  destruct (deleteBy_counts_wrapped_answers Canned.client MemStore.users c
              (Canned.world (Ok [JArr [MemStore.alice; MemStore.alice]])))
    as (_ & D & _).
  destruct (deleteBy_counts_wrapped_answers MemStore.client MemStore.users c
              (MemStore.connected MemStore.offline)) as (_ & _ & T).
  split; [|split].
  - now rewrite (W [MemStore.alice; MemStore.alice] [] _ eq_refl).
  - now rewrite (D [MemStore.alice; MemStore.alice] [] _ eq_refl).
  - now rewrite (T (StoreError "connection closed") MemStore.offline eq_refl).
Defined.

Lemma count_reads_the_first_row_witness :
  fst (Service.count MemStore.client MemStore.string_to_number MemStore.users None
         (MemStore.connected MemStore.five_users)) = Ok (JNum (Fin 5))
  /\ fst (Service.count MemStore.client MemStore.string_to_number MemStore.users None
            (MemStore.connected MemStore.empty)) = Ok (JNum (Fin 0))
  /\ fst (Legacy.count Canned.client MemStore.users None
            (Canned.world (Ok [JArr [JObj [("count", JNum (Fin 5))]]])))
     = Ok (JNum (Fin 0)).
Proof.
  assert (N : 5%Z <> 0%Z) by discriminate.
  destruct (count_reads_the_first_row MemStore.client MemStore.string_to_number
              MemStore.users None (MemStore.connected MemStore.five_users))
    as (_ & R & _).
  destruct (count_reads_the_first_row MemStore.client MemStore.string_to_number
              MemStore.users None (MemStore.connected MemStore.empty))
    as (Z0 & _ & _).
  destruct (count_reads_the_first_row Canned.client MemStore.string_to_number
              MemStore.users None
              (Canned.world (Ok [JArr [JObj [("count", JNum (Fin 5))]]])))
    as (_ & L & _).
  split; [|split].
  - exact (proj1 (R 5%Z [("count", JNum (Fin 5))] [] [] MemStore.five_users
                    eq_refl N) eq_refl).
  - exact (Z0 MemStore.empty eq_refl).
  - destruct (L 5%Z [("count", JNum (Fin 5))] [] []
                (Ok [JArr [JObj [("count", JNum (Fin 5))]]]) eq_refl N)
      as (_ & _ & _ & D).
    exact (D eq_refl).
Defined.

End ServiceEdges.

(** ** Updates, pages and service objects *)

Module ServiceCompose.
Import Js Eff Query.
Import Service (SurrealService, db, table, formatRecord, created, formatted).

Lemma append_assoc (a b c : string) : (a ++ b) ++ c = a ++ b ++ c.
Proof. induction a as [|x a IH]; simpl; [reflexivity | now rewrite IH]. Qed.

Section WithClient.
Context {S : Type} (cl : Client S).
Variable StringToNumber : string -> JsNum.

(** X13.  [paginate] reports as [total] what [count] answers right after the
    data statement, and hands the rows of the page back as the store gave
    them, without the [formatRecord] that [findBy] applies to the same
    answer.  When the data statement fails the error is thrown on with one
    console line although the count succeeded; when the count fails there
    are two, the one of [count] and the one of [paginate]. *)
Theorem paginate_total_is_count (this : SurrealService) (page pageSize : JsNum)
  (conditions : option Conditions) (orderBy : option Service.OrderBy)
  (w : World S) :
  let q := Service.paginateQuery this page pageSize conditions orderBy in
  let cq := Service.countQuery this conditions in
  let w1 := fun s1 => with_call w (CallQuery (db this) q) s1 in
  let run := Service.paginate cl StringToNumber this (Some page) (Some pageSize)
               conditions orderBy w in
  (forall rows rest s1 r w',
      query cl (db this) q (store w) = (Ok (JArr rows :: rest), s1) ->
      run = (Ok r, w') ->
      Service.data r = JArr rows
      /\ Ok (Service.total r)
         = fst (Service.count cl StringToNumber this conditions (w1 s1)))
  /\ (forall rows s', 
        query cl (db this)
          ("SELECT * FROM " ++ table this ++ " WHERE " ++ buildWhereClause
             (match conditions with Some c => c | None => ByFields [] end))
          (store w) = (Ok [JArr rows], s') ->
        fst (Service.findBy cl this
               (match conditions with Some c => c | None => ByFields [] end) w)
        = Ok (map formatRecord rows))
  /\ (forall e s1 c s2,
        query cl (db this) q (store w) = (Throw e, s1) ->
        query cl (db this) cq s1 = (Ok c, s2) ->
        run = (Throw e,
               with_log (with_call (w1 s1) (CallQuery (db this) cq) s2)
                        (LogFailed OpPaginate (table this) None e)))
  /\ (forall d s1 e s2,
        query cl (db this) q (store w) = (Ok d, s1) ->
        query cl (db this) cq s1 = (Throw e, s2) ->
        run = (Throw e,
               with_log (with_log (with_call (w1 s1) (CallQuery (db this) cq) s2)
                                  (LogFailed OpCount (table this) None e))
                        (LogFailed OpPaginate (table this) None e))).
Proof.
  intros q cq w1 run.
  pose proof (ServiceFacts.paginate_spec cl StringToNumber this page pageSize
                conditions orderBy w) as P.
  cbv zeta in P. fold q in P. fold run in P.
  split; [|split; [|split]].
  - intros rows rest s1 r w' E R. rewrite P, E in R. unfold w1.
    destruct (Service.count cl StringToNumber this conditions _) as [[c|e] w2];
      [|discriminate R].
    inversion R. split; reflexivity.
  - intros rows s' E. now rewrite (ServiceMore.findBy_rows cl this _ w rows s' E).
  - intros e s1 c s2 E1 E2. rewrite P, E1, ServiceFacts.count_spec. cbv zeta.
    fold cq. simpl store. now rewrite E2.
  - intros d s1 e s2 E1 E2. rewrite P, E1, ServiceFacts.count_spec. cbv zeta.
    fold cq. simpl store. now rewrite E2.
Qed.

(** X14.  [update] with an empty id throws InvalidId without calling the
    store; with a non-empty id it sends one [UPDATE] under the normalised
    id and throws NotFound, naming that id, when the answer holds no row;
    otherwise it hands back the first row, formatted.  Every failure is
    logged once and thrown on. *)
Theorem update_failures (this : SurrealService) (id : string)
  (data : list (string * JsValue)) (w : World S) :
  let rid := recordIdOf (table this) id in
  let q := "UPDATE " ++ rid ++ " SET " ++ renderAssignments data ++ " RETURN AFTER" in
  let sent := fun s' => with_call w (CallQuery (db this) q) s' in
  let failed := fun w' e => with_log w' (LogFailed OpUpdate (table this) (Some id) e) in
  (id = "" ->
   Service.update cl this id data w = (Throw (InvalidId id), failed w (InvalidId id)))
  /\ (id <> "" -> forall s',
        (query cl (db this) q (store w) = (Ok [JArr []], s') ->
         Service.update cl this id data w
         = (Throw (RecordNotFound rid), failed (sent s') (RecordNotFound rid)))
        /\ (query cl (db this) q (store w) = (Ok [], s') ->
            Service.update cl this id data w
            = (Throw (RecordNotFound rid), failed (sent s') (RecordNotFound rid))))
  /\ (id <> "" -> forall r rest s',
        query cl (db this) q (store w) = (Ok [JArr (r :: rest)], s') ->
        Service.update cl this id data w = (Ok (formatRecord r), sent s'))
  /\ (id <> "" -> forall e s',
        query cl (db this) q (store w) = (Throw e, s') ->
        Service.update cl this id data w = (Throw e, failed (sent s') e)).
Proof.
  intros rid q sent failed. unfold Service.update.
  rewrite ServiceFacts.rethrow_spec, ServiceFacts.truthy_str, negb_involutive.
  split; [|split; [|split]].
  - intros ->. reflexivity.
  - intros N s'. rewrite (proj2 (String.eqb_neq id "") N).
    unfold bind, Service.dbQuery, call, throw, ret. cbv zeta.
    fold rid. fold q. split; intros E; now rewrite E.
  - intros N r rest s' E. rewrite (proj2 (String.eqb_neq id "") N).
    unfold bind, Service.dbQuery, call, throw, ret. cbv zeta.
    fold rid. fold q. now rewrite E.
  - intros N e s' E. rewrite (proj2 (String.eqb_neq id "") N).
    unfold bind, Service.dbQuery, call, throw, ret. cbv zeta.
    fold rid. fold q. now rewrite E.
Qed.

(** X15.  [upsert] with an empty id makes no lookup: [findById] logs the
    invalid id and answers [null], so the payload is created. *)
Theorem upsert_without_id_creates (this : SurrealService)
  (data : list (string * JsValue)) (w : World S) :
  let w1 := with_log w (LogInvalidId "") in
  fst (Service.upsert cl this "" data w) = fst (Service.add cl this (JObj data) w1)
  /\ store (snd (Service.upsert cl this "" data w))
     = store (snd (Service.add cl this (JObj data) w1))
  /\ calls (snd (Service.upsert cl this "" data w))
     = (calls w ++ [CallCreate (db this) (table this) (JObj data)])%list.
Proof.
  intros w1. rewrite ServiceFacts.upsert_spec. cbv zeta.
  rewrite ServiceFacts.findById_spec. cbv zeta.
  change (String.eqb "" "") with true. cbv iota. fold w1.
  pose proof (ServiceMore.add_calls cl this (JObj data) w1) as C.
  destruct (Service.add cl this (JObj data) w1) as [[a|e] w2]; simpl in *;
    auto.
Qed.

(** X16.  The two services read the answer to [findBy]'s statement
    differently: when the rows come as the answer itself, the legacy service
    returns the empty sequence where the db-backed one returns the rows,
    formatted; when they come wrapped in [result], the legacy service
    returns them as they are. *)
Theorem legacy_findBy_reads_wrapped_only (this : SurrealService) (c : Conditions)
  (w : World S) :
  let q := "SELECT * FROM " ++ table this ++ " WHERE " ++ buildWhereClause c in
  (forall rows rest s',
      query cl (db this) q (store w) = (Ok (JArr rows :: rest), s') ->
      fst (Legacy.findBy cl this c w) = Ok (JArr [])
      /\ fst (Service.findBy cl this c w) = Ok (map formatRecord rows))
  /\ (forall rows rest s',
        query cl (db this) q (store w)
        = (Ok (JObj [("result", JArr rows)] :: rest), s') ->
        fst (Legacy.findBy cl this c w) = Ok (JArr rows)
        /\ fst (Service.findBy cl this c w) = Ok (map formatRecord rows)).
Proof.
  intros q. split; intros rows rest s' E.
  - split.
    + now rewrite (LegacyFacts.legacy_findBy_no_result cl this c w s' (JArr rows)
                     rest eq_refl E).
    + unfold Service.findBy, Service.dbQuery, try_catch, bind, call. cbv zeta.
      fold q. now rewrite E.
  - split.
    + unfold Legacy.findBy, Legacy.dbQuery, try_catch, bind, call. cbv zeta.
      fold q. now rewrite E.
    + unfold Service.findBy, Service.dbQuery, try_catch, bind, call. cbv zeta.
      fold q. now rewrite E.
Qed.

(** X17.  A condition that is present is never taken for an absent one: the
    statements of [count] and [paginate] carry a [WHERE] for it even when it
    is the empty list or the empty object, whose clause is empty. *)
Theorem present_conditions_always_filter (this : SurrealService) (c : Conditions) :
  buildWhereClause (ByTriples []) = "" /\ buildWhereClause (ByFields []) = ""
  /\ Service.countQuery this (Some c) <> Service.countQuery this None
  /\ Service.countQuery this (Some (ByTriples []))
     = "SELECT count() FROM " ++ table this ++ " WHERE  GROUP ALL"
  /\ (forall page pageSize,
        Service.paginateQuery this page pageSize (Some c) None
        <> Service.paginateQuery this page pageSize None None).
Proof.
  split; [reflexivity|]. split; [reflexivity|]. split; [|split].
  - unfold Service.countQuery. intros H.
    apply ServiceEdges.append_cancel in H. apply ServiceEdges.append_cancel in H.
    discriminate H.
  - reflexivity.
  - intros page pageSize. unfold Service.paginateQuery. intros H.
    rewrite !append_assoc in H.
    apply ServiceEdges.append_cancel in H. apply ServiceEdges.append_cancel in H.
    discriminate H.
Qed.

(** X18.  A service object captures the instance of the moment it is built:
    building one succeeds exactly when the manager is initialised.  Closing
    the manager afterwards does not reach the object, which keeps sending on
    the handle it captured, while building another one fails. *)
Theorem service_keeps_its_handle (this : SurrealService) (tb id : string)
  (w : World S) :
  (forall h, dbInstance w = Some h ->
             Service.construct tb w = (Ok {| Service.db := h; Service.table := tb |}, w))
  /\ (dbInstance w = None -> Service.construct tb w = (Throw NotInitialized, w))
  /\ (let w1 := snd (Conn.closeSurrealDB cl w) in
      fst (Service.construct tb w1) = Throw NotInitialized
      /\ (id <> "" ->
          calls (snd (Service.delete cl this id w1))
          = (calls w1 ++ [CallQuery (db this)
                            ("DELETE " ++ recordIdOf (table this) id)])%list)).
Proof.
  unfold Service.construct, bind, ret. split; [|split].
  - intros h H. now rewrite ConnFacts.get_spec, H.
  - intros H. now rewrite ConnFacts.get_spec, H.
  - cbv zeta. destruct (ConnFacts.close_spec cl w) as (w' & E & N & _).
    rewrite E. simpl snd. split.
    + now rewrite ConnFacts.get_spec, N.
    + intros I. rewrite ServiceFacts.delete_spec. cbv zeta.
      rewrite (proj2 (String.eqb_neq id "") I).
      destruct (query cl (db this) _ (store w')) as [[r|e] s']; reflexivity.
Qed.

End WithClient.

Lemma present_conditions_always_filter_witness :
  Service.countQuery MemStore.users (Some (ByFields []))
  <> Service.countQuery MemStore.users None
  /\ Service.countQuery MemStore.users (Some (ByFields []))
     = "SELECT count() FROM user WHERE  GROUP ALL".
Proof.
  destruct (present_conditions_always_filter MemStore.users (ByFields []))
    as (_ & _ & N & _).
  split; [exact N | reflexivity].
Defined.

Lemma paginate_total_is_count_witness :
  exists r w',
    Service.paginate MemStore.client MemStore.string_to_number MemStore.users
      (Some (Fin 1)) (Some (Fin 2)) None None (MemStore.connected MemStore.five_users)
    = (Ok r, w')
    /\ Service.data r = JArr MemStore.first_two
    /\ Service.total r = JNum (Fin 5).
Proof.
  pose (w := MemStore.connected MemStore.five_users).
  destruct (Service.paginate MemStore.client MemStore.string_to_number MemStore.users
              (Some (Fin 1)) (Some (Fin 2)) None None w) as [[r|e] w'] eqn:E;
    [|discriminate E].
  exists r, w'. split; [exact E|].
  destruct (paginate_total_is_count MemStore.client MemStore.string_to_number
              MemStore.users (Fin 1) (Fin 2) None None w) as (P & _).
  destruct (P MemStore.first_two [] MemStore.five_users r w' eq_refl E) as (D & T).
  split; [exact D|]. vm_compute in T. now inversion T.
Defined.

Lemma update_failures_witness :
  fst (Service.update MemStore.client MemStore.users "" [("age", JNum (Fin 31))]
         (MemStore.connected MemStore.five_users)) = Throw (InvalidId "")
  /\ fst (Service.update MemStore.client MemStore.users "r9" [("age", JNum (Fin 31))]
            (MemStore.connected MemStore.five_users))
     = Throw (RecordNotFound "user:r9")
  /\ fst (Service.update MemStore.client MemStore.users "r1" [("age", JNum (Fin 31))]
            (MemStore.connected MemStore.offline))
     = Throw (StoreError "connection closed").
Proof.
  pose (w := MemStore.connected MemStore.five_users).
  assert (N9 : "r9" <> "") by discriminate.
  assert (N1 : "r1" <> "") by discriminate.
  destruct (update_failures MemStore.client MemStore.users ""
              [("age", JNum (Fin 31))] w) as (I & _).
  destruct (update_failures MemStore.client MemStore.users "r9"
              [("age", JNum (Fin 31))] w) as (_ & M & _).
  destruct (update_failures MemStore.client MemStore.users "r1"
              [("age", JNum (Fin 31))] (MemStore.connected MemStore.offline))
    as (_ & _ & _ & T).
  split; [|split].
  - fold w. now rewrite (I eq_refl).
  - fold w. now rewrite (proj1 (M N9 MemStore.five_users) eq_refl).
  - now rewrite (T N1 (StoreError "connection closed") MemStore.offline eq_refl).
Defined.

Lemma legacy_findBy_reads_wrapped_only_witness :
  let c := ByFields [("age", JNum (Fin 30))] in
  fst (Legacy.findBy Canned.client MemStore.users c
         (Canned.world (Ok [JArr [MemStore.alice]]))) = Ok (JArr [])
  /\ fst (Legacy.findBy Canned.client MemStore.users c
            (Canned.world (Ok [JObj [("result", JArr [MemStore.alice])]])))
     = Ok (JArr [MemStore.alice]).
Proof.
  intros c.
  destruct (legacy_findBy_reads_wrapped_only Canned.client MemStore.users c
              (Canned.world (Ok [JArr [MemStore.alice]]))) as (D & _).
  destruct (legacy_findBy_reads_wrapped_only Canned.client MemStore.users c
              (Canned.world (Ok [JObj [("result", JArr [MemStore.alice])]])))
    as (_ & W).
  split.
  - exact (proj1 (D [MemStore.alice] [] _ eq_refl)).
  - exact (proj1 (W [MemStore.alice] [] _ eq_refl)).
Defined.

Lemma service_keeps_its_handle_witness :
  Service.construct "user" (Conn.boot MemStore.empty)
  = (Throw NotInitialized, Conn.boot MemStore.empty)
  /\ fst (Service.construct "user" (MemStore.connected MemStore.empty))
     = Ok MemStore.users
  /\ calls (snd (Service.delete MemStore.client MemStore.users "r1"
                   (snd (Conn.closeSurrealDB MemStore.client
                           (MemStore.connected MemStore.five_users)))))
     = [CallClose 0; CallQuery 0 "DELETE user:r1"].
Proof.
  assert (N : "r1" <> "") by discriminate.
  destruct (service_keeps_its_handle MemStore.client MemStore.users "user" "r1"
              (Conn.boot MemStore.empty)) as (_ & U & _).
  destruct (service_keeps_its_handle MemStore.client MemStore.users "user" "r1"
              (MemStore.connected MemStore.empty)) as (C & _).
  destruct (service_keeps_its_handle MemStore.client MemStore.users "user" "r1"
              (MemStore.connected MemStore.five_users)) as (_ & _ & K).
  split; [exact (U eq_refl)|]. split.
  - now rewrite (C 0 eq_refl).
  - exact (proj2 K N).
Defined.

End ServiceCompose.

(** ** More of the Active-Record wrapper *)

Module ModelEdges.
Import Js Eff Query Model.

Section WithClient.
Context {S : Type} (cl : Client S).

(** X19.  [add()] sends [toJSON()] of the instance, the [id] among its
    properties, [undefined] when it is not set, and when the store files the
    record under a [{tb, id}] identifier, and returns it as a plain record,
    the instance comes back carrying ['tb:id'] as its [id] and the service
    it used: its next [delete()] passes the id guard and goes to that service
    under that id. *)
Theorem model_add_backfills_id (this : BaseModel) (w : World S)
  (svc : Service.SurrealService) (tb key : string)
  (ps : list (string * JsValue)) (s' : S) :
  service this w = (Ok svc, w) ->
  create cl (Service.db svc) (Service.table svc) (JObj (toJSON this)) (store w)
  = (Ok (JArr [JObj ps]), s') ->
  assoc "id" ps = Some (JObj [("tb", JStr tb); ("id", JStr key)]) ->
  plain_record ps ->
  assoc "id" (toJSON this) = Some (idValue this)
  /\ exists this',
    add cl this w
    = (Ok this',
       with_call w (CallCreate (Service.db svc) (Service.table svc)
                               (JObj (toJSON this))) s')
    /\ id this' = Some (tb ++ ":" ++ key)
    /\ _service this' = Some svc
    /\ forall w2, delete cl this' w2 = Service.delete cl svc (tb ++ ":" ++ key) w2.
Proof.
  intros V C A _.
  split; [unfold toJSON, ownProps; destruct this as [t [i|] sv f]; reflexivity|].
  pose proof (ServiceFacts.formatRecord_object ps _ A) as F.
  change (Service.composite (JObj [("tb", JStr tb); ("id", JStr key)])) with true in F.
  cbv iota in F.
  change (toStr (get_prop "tb" (JObj [("tb", JStr tb); ("id", JStr key)]))) with tb in F.
  change (toStr (get_prop "id" (JObj [("tb", JStr tb); ("id", JStr key)]))) with key in F.
  eexists. split; [|split; [|split]].
  - unfold add. unfold bind at 1. rewrite V. unfold bind, ret.
    rewrite ServiceFacts.add_spec. cbv zeta. rewrite C.
    change (Service.created (JArr [JObj ps])) with (JObj ps).
    change (truthy (JObj ps)) with true. cbv iota. reflexivity.
  - unfold assignResult. cbn [id]. rewrite F. cbn [get_prop].
    now rewrite ServiceFacts.assoc_set_assoc.
  - reflexivity.
  - intros w2. unfold delete, idValue, assignResult. cbn [id _service].
    rewrite F. cbn [get_prop]. rewrite ServiceFacts.assoc_set_assoc.
    cbn [truthy toStr]. rewrite QueryMore.nonempty_app_colon. cbn [negb].
    unfold service. cbn [_service]. unfold bind, ret. reflexivity.
Qed.

(** X20.  [delete()] on an instance without an id answers [false] and does
    nothing.  With an id it needs a service: when there is one it is the
    service's [delete] of that id, which never raises; when there is none
    cached and the connection is not initialised it throws NotInitialized. *)
Theorem model_delete_guards (this : BaseModel) (w : World S) :
  (truthy (idValue this) = false -> delete cl this w = (Ok false, w))
  /\ (forall s svc, id this = Some s -> s <> "" -> service this w = (Ok svc, w) ->
        delete cl this w = Service.delete cl svc s w
        /\ exists b w', delete cl this w = (Ok b, w'))
  /\ (forall s, id this = Some s -> s <> "" -> _service this = None ->
        dbInstance w = None ->
        delete cl this w = (Throw NotInitialized, w)).
Proof.
  split; [|split].
  - intros H. unfold delete. now rewrite H.
  - intros s svc I N V.
    assert (E : delete cl this w = Service.delete cl svc s w).
    { unfold delete, idValue. rewrite I. cbn [truthy toStr].
      rewrite (proj2 (String.eqb_neq s "") N). cbn [negb].
      unfold bind. now rewrite V. }
    split; [exact E|]. rewrite E. apply ServiceFacts.delete_total.
  - intros s I N C D. unfold delete, idValue. rewrite I. cbn [truthy toStr].
    rewrite (proj2 (String.eqb_neq s "") N). cbn [negb].
    unfold bind, service. rewrite C.
    unfold Service.construct, bind. now rewrite ConnFacts.get_spec, D.
Qed.

End WithClient.

Lemma model_add_backfills_id_witness :
  toJSON MemStore.unsaved = [("id", JUndefined); ("name", JStr "Alice")]
  /\ exists this' w',
      add MemStore.client MemStore.unsaved (MemStore.connected MemStore.empty)
      = (Ok this', w')
      /\ id this' = Some "user:r1".
Proof.
  split; [reflexivity|].
  assert (P : plain_record
                [("id", JObj [("tb", JStr "user"); ("id", JStr "r1")]);
                 ("name", JStr "Alice")]).
  { intros k I. simpl in I.
    repeat (destruct I as [<-|I]; [reflexivity|]). destruct I. }
  destruct (model_add_backfills_id MemStore.client MemStore.unsaved
              (MemStore.connected MemStore.empty) MemStore.users "user" "r1"
              [("id", JObj [("tb", JStr "user"); ("id", JStr "r1")]);
               ("name", JStr "Alice")]
              (snd (MemStore.run_create 0 "user" (JObj (toJSON MemStore.unsaved))
                      MemStore.empty))
              eq_refl eq_refl eq_refl P) as (_ & this' & E & I & _).
  exists this'. eexists. split; [exact E | exact I].
Defined.

Lemma model_delete_guards_witness :
  delete MemStore.client MemStore.unsaved (Conn.boot MemStore.empty)
  = (Ok false, Conn.boot MemStore.empty)
  /\ delete MemStore.client MemStore.saved (Conn.boot MemStore.empty)
     = (Throw NotInitialized, Conn.boot MemStore.empty)
  /\ fst (delete MemStore.client MemStore.saved
            (MemStore.connected MemStore.five_users)) = Ok true.
Proof.
  assert (N : "user:r1" <> "") by discriminate.
  destruct (model_delete_guards MemStore.client MemStore.unsaved
              (Conn.boot MemStore.empty)) as (U & _).
  destruct (model_delete_guards MemStore.client MemStore.saved
              (Conn.boot MemStore.empty)) as (_ & _ & T).
  destruct (model_delete_guards MemStore.client MemStore.saved
              (MemStore.connected MemStore.five_users)) as (_ & D & _).
  split; [exact (U eq_refl)|]. split.
  - exact (T "user:r1" eq_refl N eq_refl eq_refl).
  - destruct (D "user:r1" MemStore.users eq_refl N eq_refl) as (E & _).
    now rewrite E.
Defined.

End ModelEdges.

(** ** Batches *)

Module BatchMore.
Import Js Eff Query.
Import Service (SurrealService, db, table).

Section WithClient.
Context {S : Type} (cl : Client S).

(** The statements a batch of deletes sends: one per non-empty id. *)
Lemma delete_calls (this : SurrealService) (id : string) (w : World S) :
  calls (snd (Service.delete cl this id w))
  = (calls w ++ (if String.eqb id "" then []
                 else [CallQuery (db this)
                         ("DELETE " ++ recordIdOf (table this) id)]))%list.
Proof.
  rewrite ServiceFacts.delete_spec. cbv zeta.
  destruct (String.eqb id ""); [simpl; now rewrite app_nil_r|].
  destruct (query cl (db this) _ (store w)) as [[r|e] s']; reflexivity.
Qed.

Lemma all_deletes_calls (this : SurrealService) (ids : list string) (w : World S) :
  calls (snd (promise_all (map (fun id => Service.delete cl this id) ids) w))
  = (calls w ++ map (fun id => CallQuery (db this)
                                 ("DELETE " ++ recordIdOf (table this) id))
                    (filter (fun id => negb (String.eqb id "")) ids))%list.
Proof.
  revert w. induction ids as [|id ids IH]; intros w; simpl.
  - now rewrite app_nil_r.
  - pose proof (delete_calls this id w) as D.
    destruct (Service.delete cl this id w) as [r w1]. simpl in D.
    specialize (IH w1).
    destruct (promise_all _ w1) as [rs w2]. simpl in *.
    rewrite IH, D. destruct (String.eqb id ""); simpl;
      now rewrite <- app_assoc.
Qed.

(** X21.  [deleteMany] sends one [DELETE] for every non-empty id of the
    batch, in order and under the normalised id, whatever the store answers
    to the earlier ones; an empty id sends nothing; and the batch itself
    writes no console line of its own. *)
Theorem deleteMany_deletes_every_id (this : SurrealService) (ids : list string)
  (w : World S) :
  calls (snd (Service.deleteMany cl this ids w))
  = (calls w ++ map (fun id => CallQuery (db this)
                                 ("DELETE " ++ recordIdOf (table this) id))
                    (filter (fun id => negb (String.eqb id "")) ids))%list
  /\ snd (Service.deleteMany cl this ids w)
     = snd (promise_all (map (fun id => Service.delete cl this id) ids) w).
Proof.
  pose proof (all_deletes_calls this ids w) as C.
  assert (T : exists l w',
             promise_all (map (fun id => Service.delete cl this id) ids) w = (Ok l, w')).
  { apply ServiceFacts.promise_all_total. intros m I.
    apply in_map_iff in I. destruct I as (id & <- & _).
    apply ServiceFacts.delete_total. }
  destruct T as (l & w' & E).
  unfold Service.deleteMany, try_catch, bind, ret. rewrite E in *.
  simpl in *. auto.
Qed.

End WithClient.
End BatchMore.

(** ** Batches of updates and updates by condition *)

Module UpdateMore.
Import Js Eff Query.
Import Service (SurrealService, db, table, formatRecord, formatted).

Section WithClient.
Context {S : Type} (cl : Client S).

Lemma update_sends (this : SurrealService) (id : string)
  (data : list (string * JsValue)) (w : World S) :
  calls (snd (Service.update cl this id data w))
  = (calls w ++ (if String.eqb id "" then []
                 else [CallQuery (db this)
                         ("UPDATE " ++ recordIdOf (table this) id ++ " SET "
                          ++ renderAssignments data ++ " RETURN AFTER")]))%list.
Proof.
  unfold Service.update. rewrite ServiceFacts.truthy_str, negb_involutive.
  destruct (String.eqb id "").
  - unfold try_catch, throw, bind, log. simpl. now rewrite app_nil_r.
  - unfold Service.dbQuery, try_catch, bind, call, throw, log, ret. cbv zeta.
    match goal with
    | |- context [query cl ?h ?q ?st] =>
        destruct (query cl h q st) as [[res|e] s']; [|reflexivity]
    end.
    repeat match goal with
           | |- context [if ?b then _ else _] => destruct b
           end; reflexivity.
Qed.

Lemma all_updates_calls (this : SurrealService) (ids : list string)
  (data : list (string * JsValue)) (w : World S) :
  calls (snd (promise_all (map (fun id => Service.update cl this id data) ids) w))
  = (calls w ++ map (fun id => CallQuery (db this)
                                 ("UPDATE " ++ recordIdOf (table this) id ++ " SET "
                                  ++ renderAssignments data ++ " RETURN AFTER"))
                    (filter (fun id => negb (String.eqb id "")) ids))%list.
Proof.
  revert w. induction ids as [|id ids IH]; intros w; simpl.
  - now rewrite app_nil_r.
  - pose proof (update_sends this id data w) as D.
    destruct (Service.update cl this id data w) as [r w1]. simpl in D.
    specialize (IH w1).
    destruct (promise_all _ w1) as [rs w2]. simpl in *.
    rewrite IH, D. destruct (String.eqb id ""); simpl;
      now rewrite <- app_assoc.
Qed.

Lemma all_updates_results (this : SurrealService) (ids : list string)
  (data : list (string * JsValue)) (w w' : World S) (rs : list JsValue) :
  promise_all (map (fun id => Service.update cl this id data) ids) w = (Ok rs, w') ->
  List.length rs = List.length ids /\ Forall formatted rs.
Proof.
  revert w w' rs. induction ids as [|id ids IH]; intros w w' rs; simpl.
  - unfold ret. intros H. inversion H. auto.
  - destruct (Service.update cl this id data w) as [r w1] eqn:A.
    destruct (promise_all _ w1) as [l w2] eqn:P.
    destruct r as [a|e], l as [l|e']; intros H; inversion H; subst.
    destruct (IH _ _ _ P) as (L & F). split; [simpl; now rewrite L|].
    constructor; [eapply ServiceFacts.update_formatted; eauto | exact F].
Qed.

Lemma update_empty_id (this : SurrealService) (data : list (string * JsValue))
  (w : World S) :
  Service.update cl this "" data w
  = (Throw (InvalidId ""),
     with_log w (LogFailed OpUpdate (table this) (Some "") (InvalidId ""))).
Proof. reflexivity. Qed.

Lemma batch_with_empty_id (this : SurrealService) (ids : list string)
  (data : list (string * JsValue)) :
  In "" ids -> forall w : World S,
  exists e w',
    promise_all (map (fun id => Service.update cl this id data) ids) w = (Throw e, w').
Proof.
  induction ids as [|id ids IH]; intros I w; [destruct I|]. simpl.
  destruct I as [->|I].
  - rewrite update_empty_id. destruct (promise_all _ _) as [rs w2]. eauto.
  - destruct (Service.update cl this id data w) as [[r|e] w1];
      destruct (IH I w1) as (e' & w2 & E); rewrite E; eauto.
Qed.

Lemma batch_error_is_a_member (this : SurrealService) (ids : list string)
  (data : list (string * JsValue)) :
  forall (w w' : World S) (e : Err),
    promise_all (map (fun id => Service.update cl this id data) ids) w = (Throw e, w') ->
    exists id w0 w1,
      In id ids /\ Service.update cl this id data w0 = (Throw e, w1).
Proof.
  induction ids as [|id ids IH]; intros w w' e; simpl.
  - unfold ret. discriminate.
  - destruct (Service.update cl this id data w) as [r w1] eqn:U.
    destruct (promise_all _ w1) as [rs w2] eqn:P.
    destruct r as [a|e1].
    + destruct rs as [l|e2]; intros H; inversion H; subst.
      destruct (IH _ _ _ P) as (id' & w0 & w3 & I & E).
      exists id', w0, w3. split; [now right | exact E].
    + intros H. inversion H; subst.
      exists id, w, w1. split; [now left | exact U].
Qed.

(** X22.  [updateMany] sends one [UPDATE] for every non-empty id of the
    batch, in order, whether or not some of them fail: nothing is rolled back
    and nothing is skipped.  When it resolves it hands back one formatted
    record per id.  A batch that holds an empty id is rejected as a whole,
    and the error a batch is rejected with is the error of one of its
    updates. *)
Theorem updateMany_sends_every_update (this : SurrealService) (ids : list string)
  (data : list (string * JsValue)) (w : World S) :
  calls (snd (Service.updateMany cl this ids data w))
  = (calls w ++ map (fun id => CallQuery (db this)
                                 ("UPDATE " ++ recordIdOf (table this) id ++ " SET "
                                  ++ renderAssignments data ++ " RETURN AFTER"))
                    (filter (fun id => negb (String.eqb id "")) ids))%list
  /\ (forall rs w', Service.updateMany cl this ids data w = (Ok rs, w') ->
        List.length rs = List.length ids /\ Forall formatted rs)
  /\ (In "" ids -> exists e w', Service.updateMany cl this ids data w = (Throw e, w'))
  /\ (forall e w', Service.updateMany cl this ids data w = (Throw e, w') ->
        exists id w0 w1,
          In id ids /\ Service.update cl this id data w0 = (Throw e, w1)).
Proof.
  unfold Service.updateMany. rewrite ServiceFacts.rethrow_spec.
  pose proof (all_updates_calls this ids data w) as C.
  split; [|split; [|split]].
  - destruct (promise_all _ w) as [[rs|e] w1]; exact C.
  - intros rs w' H.
    destruct (promise_all _ w) as [[rs'|e] w1] eqn:P; inversion H; subst.
    eapply all_updates_results; eauto.
  - intros I. destruct (batch_with_empty_id this ids data I w) as (e & w' & E).
    rewrite E. eauto.
  - intros e w' H.
    destruct (promise_all _ w) as [[rs|e1] w1] eqn:P; inversion H; subst.
    eapply batch_error_is_a_member; eauto.
Qed.

(** X23.  [updateBy] sends one [UPDATE table SET ... WHERE ... RETURN AFTER]
    and hands back the rows of the answer, formatted, whether they come as
    the answer itself or wrapped in [result]; no row is no error.  The legacy
    service reads only the wrapped form, hands those rows back as they are,
    and answers the empty sequence for the other.  An error of the store is
    logged and thrown on by both. *)
Theorem updateBy_reads_both_shapes (this : SurrealService) (c : Conditions)
  (data : list (string * JsValue)) (w : World S) :
  let q := "UPDATE " ++ table this ++ " SET " ++ renderAssignments data
           ++ " WHERE " ++ buildWhereClause c ++ " RETURN AFTER" in
  let sent := fun s' => with_call w (CallQuery (db this) q) s' in
  (forall rows rest s',
      query cl (db this) q (store w) = (Ok (JArr rows :: rest), s') ->
      Service.updateBy cl this c data w = (Ok (map formatRecord rows), sent s')
      /\ Legacy.updateBy cl this c data w = (Ok (JArr []), sent s'))
  /\ (forall ps rows rest s',
        assoc "result" ps = Some (JArr rows) ->
        query cl (db this) q (store w) = (Ok (JObj ps :: rest), s') ->
        Service.updateBy cl this c data w = (Ok (map formatRecord rows), sent s')
        /\ Legacy.updateBy cl this c data w = (Ok (JArr rows), sent s'))
  /\ (forall e s',
        query cl (db this) q (store w) = (Throw e, s') ->
        let w' := with_log (sent s') (LogFailed OpUpdateBy (table this) None e) in
        Service.updateBy cl this c data w = (Throw e, w')
        /\ Legacy.updateBy cl this c data w = (Throw e, w')).
Proof.
  intros q sent.
  unfold Service.updateBy, Legacy.updateBy.
  rewrite !ServiceFacts.rethrow_spec.
  unfold bind, Service.dbQuery, Legacy.dbQuery, call, ret. cbv zeta. fold q.
  split; [|split].
  - intros rows rest s' E. rewrite E. split; reflexivity.
  - intros ps rows rest s' A E. rewrite E.
    unfold index. cbn [nth truthy typeof_object has_prop get_prop andb].
    rewrite A. split; reflexivity.
  - intros e s' E. rewrite E. split; reflexivity.
Qed.

(** X24.  The db-backed [add] is the legacy [create] followed by
    [formatRecord]: the same call to the store, the same failures and the
    same console lines, and on success the same record with its [id] turned
    into a string. *)
Theorem add_is_formatted_create (this : SurrealService) (d : JsValue)
  (w : World S) :
  Service.add cl this d w
  = match Legacy.create cl this d w with
    | (Ok r, w') => (Ok (formatRecord r), w')
    | (Throw e, w') => (Throw e, w')
    end.
Proof.
  rewrite ServiceFacts.add_spec, LegacyFacts.legacy_create_spec. cbv zeta.
  destruct (create cl (db this) (table this) d (store w)) as [[r|e] s'];
    [destruct (truthy (Service.created r))|]; reflexivity.
Qed.

End WithClient.

Lemma updateMany_sends_every_update_witness :
  calls (snd (Service.updateMany MemStore.client MemStore.users ["r1"; ""; "r2"]
                [("age", JNum (Fin 31))] (MemStore.connected MemStore.five_users)))
  = [CallQuery 0 "UPDATE user:r1 SET age = 31 RETURN AFTER";
     CallQuery 0 "UPDATE user:r2 SET age = 31 RETURN AFTER"]
  /\ exists e w',
      Service.updateMany MemStore.client MemStore.users ["r1"; ""; "r2"]
        [("age", JNum (Fin 31))] (MemStore.connected MemStore.five_users)
      = (Throw e, w').
Proof.
  destruct (updateMany_sends_every_update MemStore.client MemStore.users
              ["r1"; ""; "r2"] [("age", JNum (Fin 31))]
              (MemStore.connected MemStore.five_users)) as (C & _ & T & _).
  split; [exact C|]. exact (T (or_intror (or_introl eq_refl))).
Defined.

Lemma updateBy_reads_both_shapes_witness :
  let c := ByFields [("age", JNum (Fin 30))] in
  let d := [("age", JNum (Fin 31))] in
  fst (Service.updateBy Canned.client MemStore.users c d (Canned.world (Ok [JArr []])))
  = Ok []
  /\ fst (Legacy.updateBy Canned.client MemStore.users c d
            (Canned.world (Ok [JObj [("result", JArr [MemStore.alice])]])))
     = Ok (JArr [MemStore.alice])
  /\ fst (Service.updateBy MemStore.client MemStore.users c d
            (MemStore.connected MemStore.offline))
     = Throw (StoreError "connection closed").
Proof.
  intros c d.
  destruct (updateBy_reads_both_shapes Canned.client MemStore.users c d
              (Canned.world (Ok [JArr []]))) as (D & _ & _).
  destruct (updateBy_reads_both_shapes Canned.client MemStore.users c d
              (Canned.world (Ok [JObj [("result", JArr [MemStore.alice])]])))
    as (_ & W & _).
  destruct (updateBy_reads_both_shapes MemStore.client MemStore.users c d
              (MemStore.connected MemStore.offline)) as (_ & _ & T).
  split; [|split].
  - now rewrite (proj1 (D [] [] _ eq_refl)).
  - now rewrite (proj2 (W [("result", JArr [MemStore.alice])] [MemStore.alice] []
                          _ eq_refl eq_refl)).
  - now rewrite (proj1 (T (StoreError "connection closed") MemStore.offline eq_refl)).
Defined.

End UpdateMore.

(** ** The clause of a list of conditions *)

Module WhereMore.
Import Js Query.

Lemma join_app (sep : string) (a b : list string) :
  a <> [] -> b <> [] ->
  join sep (a ++ b) = join sep a ++ sep ++ join sep b.
Proof.
  unfold join. induction a as [|x a IH]; intros A B; [contradiction|].
  destruct a as [|y a].
  - simpl. destruct b; [contradiction|reflexivity].
  - change (String.concat sep ((x :: y :: a) ++ b))
      with (x ++ sep ++ String.concat sep ((y :: a) ++ b)).
    rewrite IH by (discriminate || exact B).
    change (String.concat sep (x :: y :: a))
      with (x ++ sep ++ String.concat sep (y :: a)).
    now rewrite !ServiceCompose.append_assoc.
Qed.

(** X25.  Conditions are joined with [AND] in the order given: the clause of
    two lists of conditions put one after the other is the clause of the
    first, [AND], the clause of the second; a single condition is rendered
    without any [AND].  The same holds for the entries of the mapping
    form. *)
Theorem where_clause_joins_in_order (a b : list QueryCondition)
  (fa fb : list (string * JsValue)) :
  (a <> [] -> b <> [] ->
   buildWhereClause (ByTriples (a ++ b))
   = buildWhereClause (ByTriples a) ++ " AND " ++ buildWhereClause (ByTriples b))
  /\ (fa <> [] -> fb <> [] ->
      buildWhereClause (ByFields (fa ++ fb))
      = buildWhereClause (ByFields fa) ++ " AND " ++ buildWhereClause (ByFields fb))
  /\ (forall c, buildWhereClause (ByTriples [c]) = renderCondition c).
Proof.
  unfold buildWhereClause. split; [|split].
  - intros A B. rewrite map_app. apply join_app.
    + destruct a; [contradiction|discriminate].
    + destruct b; [contradiction|discriminate].
  - intros A B. rewrite map_app. apply join_app.
    + destruct fa; [contradiction|discriminate].
    + destruct fb; [contradiction|discriminate].
  - reflexivity.
Qed.

Lemma where_clause_joins_in_order_witness :
  buildWhereClause
    (ByTriples [{| field := "age"; operator := Some OpGe; value := JNum (Fin 18) |};
                {| field := "age"; operator := Some OpLt; value := JNum (Fin 65) |}])
  = "age >= 18 AND age < 65".
Proof.
  assert (A : [{| field := "age"; operator := Some OpGe; value := JNum (Fin 18) |}]
              <> []) by discriminate.
  assert (B : [{| field := "age"; operator := Some OpLt; value := JNum (Fin 65) |}]
              <> []) by discriminate.
  destruct (where_clause_joins_in_order
              [{| field := "age"; operator := Some OpGe; value := JNum (Fin 18) |}]
              [{| field := "age"; operator := Some OpLt; value := JNum (Fin 65) |}]
              [] []) as (T & _).
  exact (T A B).
Defined.

End WhereMore.

(** ** The custom query *)

Module CustomFacts.
Import Js Eff Query.
Import Service (SurrealService, db, table, formatRecord).

Section WithClient.
Context {S : Type} (cl : Client S).
Variable query_vars :
  Handle -> string -> list (string * JsValue) -> S -> Res (list JsValue) * S.

(** X26.  The custom [query] hands back, unformatted, the [result] field of
    the first answer when it has one, whatever it holds; the first answer
    itself when it is an array; the empty sequence, with a console line, for
    an answer of status [ERR]; and the whole answer when there is no first
    answer.  The legacy service hands back the [result] field or else the
    empty sequence, silently.  An error of the store is logged and thrown on
    by both. *)
Theorem query_reads_the_answer (this : SurrealService) (q : string)
  (vars : option (list (string * JsValue))) (w : World S) :
  let run := Custom.query cl query_vars this q vars w in
  let run' := Custom.legacy_query cl query_vars this q vars w in
  (forall ps v rest w1,
      Custom.send cl query_vars this q vars w = (Ok (JObj ps :: rest), w1) ->
      assoc "result" ps = Some v ->
      run = (Ok v, w1) /\ run' = (Ok v, w1))
  /\ (forall rows rest w1,
        Custom.send cl query_vars this q vars w = (Ok (JArr rows :: rest), w1) ->
        run = (Ok (JArr rows), w1) /\ run' = (Ok (JArr []), w1))
  /\ (forall ps rest w1,
        Custom.send cl query_vars this q vars w = (Ok (JObj ps :: rest), w1) ->
        assoc "result" ps = None -> assoc "status" ps = Some (JStr "ERR") ->
        run = (Ok (JArr []),
               with_log w1 (LogQueryError
                              (toStr (or_else (get_prop "detail" (JObj ps))
                                              (get_prop "message" (JObj ps))))))
        /\ run' = (Ok (JArr []), w1))
  /\ (forall w1,
        Custom.send cl query_vars this q vars w = (Ok [], w1) ->
        run = (Ok (JArr []), w1) /\ run' = (Ok (JArr []), w1))
  /\ (forall e w1,
        Custom.send cl query_vars this q vars w = (Throw e, w1) ->
        run = (Throw e, with_log w1 (LogFailed OpQuery "" None e))
        /\ run' = (Throw e, with_log w1 (LogFailed OpQuery "" None e))).
Proof.
  intros run run'. subst run run'.
  unfold Custom.query, Custom.legacy_query.
  rewrite !ServiceFacts.rethrow_spec. unfold bind.
  split; [|split; [|split; [|split]]].
  - intros ps v rest w1 E A. rewrite E.
    unfold index. cbn [nth truthy typeof_object has_prop get_prop andb].
    rewrite A. split; reflexivity.
  - intros rows rest w1 E. rewrite E. split; reflexivity.
  - intros ps rest w1 E R T. rewrite E.
    unfold index. cbn [nth truthy typeof_object has_prop get_prop andb isArray].
    rewrite R, T. split; reflexivity.
  - intros w1 E. rewrite E. split; reflexivity.
  - intros e w1 E. rewrite E. split; reflexivity.
Qed.

(** X27.  [findBy] reads the answer to its statement as the custom [query]
    does: whenever [query], given the statement [findBy] sends, answers an
    array, [findBy] answers the same rows, each formatted, and leaves the
    same world; and when [query] throws, so does [findBy], with the same
    error. *)
Theorem findBy_is_formatted_query (this : SurrealService) (c : Conditions)
  (w : World S) :
  let q := "SELECT * FROM " ++ table this ++ " WHERE " ++ buildWhereClause c in
  (forall rows w',
      Custom.query cl query_vars this q None w = (Ok (JArr rows), w') ->
      Service.findBy cl this c w = (Ok (map formatRecord rows), w'))
  /\ (forall e w',
        Custom.query cl query_vars this q None w = (Throw e, w') ->
        fst (Service.findBy cl this c w) = Throw e).
Proof.
  intros q.
  unfold Custom.query, Custom.send, Service.findBy, Service.dbQuery.
  rewrite !ServiceFacts.rethrow_spec. unfold bind, call. cbv zeta. fold q.
  destruct (query cl (db this) q (store w)) as [[res|e] s'];
    [|split; intros ? ? H; inversion H; subst; reflexivity].
  destruct res as [|first rest];
    [split; intros ? ? H; inversion H; subst; reflexivity|].
  unfold index. cbn [nth].
  destruct first as [| |b|n|s|items|ps|src];
    cbn [truthy typeof_object has_prop get_prop isArray];
    rewrite ?andb_false_r; cbn [andb];
    try (split; intros ? ? H; inversion H; subst; reflexivity).
  destruct (assoc "result" ps) as [v|];
    [split; intros ? ? H; inversion H; subst; reflexivity|].
  destruct (assoc "status" ps) as [st|]; cbn [andb];
    [|split; intros ? ? H; inversion H; subst; reflexivity].
  destruct st as [| |b|n|s|items|ps'|src];
    try (split; intros ? ? H; inversion H; subst; reflexivity).
  destruct (String.eqb s "ERR");
    split; intros ? ? H; inversion H; subst; reflexivity.
Qed.

End WithClient.

Lemma query_reads_the_answer_witness :
  fst (Custom.query MemStore.client (fun h q _ => MemStore.run_query h q)
         MemStore.users "SELECT * FROM user:r9" None
         (MemStore.connected MemStore.five_users))
  = Ok (JArr [])
  /\ fst (Custom.query MemStore.client (fun h q _ => MemStore.run_query h q)
            MemStore.users "SELECT * FROM user:r9" None
            (MemStore.connected MemStore.offline))
     = Throw (StoreError "connection closed").
Proof.
  pose (qv := fun (h : Handle) (q : string) (_ : list (string * JsValue)) =>
                MemStore.run_query h q).
  destruct (query_reads_the_answer MemStore.client qv MemStore.users
              "SELECT * FROM user:r9" None (MemStore.connected MemStore.five_users))
    as (_ & A & _).
  destruct (query_reads_the_answer MemStore.client qv MemStore.users
              "SELECT * FROM user:r9" None (MemStore.connected MemStore.offline))
    as (_ & _ & _ & _ & T).
  split.
  - fold qv. now rewrite (proj1 (A [] [] _ eq_refl)).
  - fold qv. now rewrite (proj1 (T (StoreError "connection closed") _ eq_refl)).
Defined.

Lemma findBy_is_formatted_query_witness :
  fst (Service.findBy MemStore.client MemStore.users
         (ByFields [("age", JNum (Fin 25))]) (MemStore.connected MemStore.five_users))
  = Ok [].
Proof.
  pose (qv := fun (h : Handle) (q : string) (_ : list (string * JsValue)) =>
                MemStore.run_query h q).
  destruct (findBy_is_formatted_query MemStore.client qv MemStore.users
              (ByFields [("age", JNum (Fin 25))])
              (MemStore.connected MemStore.five_users)) as (A & _).
  now rewrite (A [] _ eq_refl).
Defined.

End CustomFacts.

(** ** Formatting records *)

Module FormatMore.
Import Js Eff Query.
Import Service (SurrealService, db, table, formatRecord, composite).

Lemma set_assoc_idem (k : string) (x : JsValue) (ps : list (string * JsValue)) :
  set_assoc k x (set_assoc k x ps) = set_assoc k x ps.
Proof.
  induction ps as [|[k' v] ps IH]; simpl.
  - now rewrite String.eqb_refl.
  - destruct (String.eqb k k') eqn:E; simpl; rewrite E; [reflexivity|].
    now rewrite IH.
Qed.

Lemma assoc_set_other (k k' : string) (x : JsValue) (ps : list (string * JsValue)) :
  k <> k' -> assoc k (set_assoc k' x ps) = assoc k ps.
Proof.
  intros N. apply String.eqb_neq in N.
  induction ps as [|[k0 v] ps IH]; simpl.
  - now rewrite N.
  - destruct (String.eqb k' k0) eqn:E; simpl.
    + apply String.eqb_eq in E. subst k0. now rewrite N.
    + now rewrite IH.
Qed.

Lemma formatRecord_shape (r : JsValue) :
  formatRecord r = r
  \/ exists ps s, r = JObj ps /\ formatRecord r = JObj (set_assoc "id" (JStr s) ps)
                  /\ has_prop "id" r = true.
Proof.
  destruct (has_prop "id" r) eqn:H.
  - right. destruct r; try discriminate H. simpl in H.
    destruct (assoc "id" props) as [rid|] eqn:A; [|discriminate H].
    exists props. eexists. split; [reflexivity|]. split; [|reflexivity].
    exact (ServiceFacts.formatRecord_object props rid A).
  - left. now apply ServiceFacts.formatRecord_other.
Qed.

(** X28.  [formatRecord] is idempotent and touches nothing but [id]: a
    record already formatted is handed back as it is, every property other
    than [id] keeps its value, and no property is added or removed. *)
Theorem formatRecord_idempotent (r : JsValue) :
  formatRecord (formatRecord r) = formatRecord r
  /\ (forall k, k <> "id" -> get_prop k (formatRecord r) = get_prop k r)
  /\ (forall k, has_prop k (formatRecord r) = has_prop k r).
Proof.
  destruct (formatRecord_shape r) as [E|(ps & s & -> & E & H)].
  - rewrite !E. auto.
  - rewrite E. split; [|split].
    + rewrite (ServiceFacts.formatRecord_object _ (JStr s)
                 (ServiceFacts.assoc_set_assoc "id" (JStr s) ps)).
      change (composite (JStr s)) with false. cbv iota.
      change (toStr (JStr s)) with s. now rewrite set_assoc_idem.
    + intros k N. cbn [get_prop]. now rewrite (assoc_set_other k "id" _ ps N).
    + intros k. cbn [has_prop].
      destruct (String.eqb k "id") eqn:K.
      * apply String.eqb_eq in K. subst k.
        rewrite ServiceFacts.assoc_set_assoc.
        simpl in H. destruct (assoc "id" ps); [reflexivity|discriminate H].
      * apply String.eqb_neq in K. now rewrite (assoc_set_other k "id" _ ps K).
Qed.

Lemma formatRecord_idempotent_witness :
  get_prop "name"
    (formatRecord (JObj [("name", JStr "Alice");
                         ("id", JObj [("tb", JStr "user"); ("id", JStr "r1")])]))
  = JStr "Alice".
Proof.
  assert (N : "name" <> "id") by discriminate.
  destruct (formatRecord_idempotent
              (JObj [("name", JStr "Alice");
                     ("id", JObj [("tb", JStr "user"); ("id", JStr "r1")])]))
    as (_ & K & _).
  exact (K "name" N).
Defined.

Section WithClient.
Context {S : Type} (cl : Client S).

Lemma prefixed (t id : string) : includes id ":" = true -> recordIdOf t id = id.
Proof. intros H. unfold recordIdOf. now rewrite H. Qed.

(** X29.  An id that carries a table is used as it is, whatever the table of
    the service: [findById], [delete] and [update] called with such an id on
    two services over the same connection send the same statement, leave the
    same store and give the same answer, so a service reaches the records of
    every table. *)
Theorem prefixed_id_ignores_table (this other : SurrealService) (id : string)
  (data : list (string * JsValue)) (w : World S) :
  includes id ":" = true -> db this = db other ->
  (fst (Service.findById cl this id w) = fst (Service.findById cl other id w)
   /\ store (snd (Service.findById cl this id w))
      = store (snd (Service.findById cl other id w))
   /\ calls (snd (Service.findById cl this id w))
      = calls (snd (Service.findById cl other id w)))
  /\ (fst (Service.delete cl this id w) = fst (Service.delete cl other id w)
      /\ store (snd (Service.delete cl this id w))
         = store (snd (Service.delete cl other id w))
      /\ calls (snd (Service.delete cl this id w))
         = calls (snd (Service.delete cl other id w)))
  /\ (fst (Service.update cl this id data w) = fst (Service.update cl other id data w)
      /\ store (snd (Service.update cl this id data w))
         = store (snd (Service.update cl other id data w))
      /\ calls (snd (Service.update cl this id data w))
         = calls (snd (Service.update cl other id data w))).
Proof.
  intros P D. split; [|split].
  - rewrite !ServiceFacts.findById_spec. cbv zeta.
    rewrite !(prefixed _ id P), D.
    destruct (String.eqb id ""); [auto|].
    destruct (query cl (db other) _ (store w)) as [[r|e] s']; auto.
  - rewrite !ServiceFacts.delete_spec. cbv zeta.
    rewrite !(prefixed _ id P), D.
    destruct (String.eqb id ""); [auto|].
    destruct (query cl (db other) _ (store w)) as [[r|e] s']; auto.
  - unfold Service.update. rewrite !ServiceFacts.rethrow_spec. cbv zeta.
    rewrite !(prefixed _ id P).
    destruct (negb (truthy (JStr id))); [unfold throw; auto|].
    unfold bind, Service.dbQuery, call. rewrite D.
    destruct (query cl (db other) _ (store w)) as [[r|e] s']; [|auto].
    unfold throw, ret. cbv zeta.
    repeat match goal with
           | |- context [if ?b then _ else _] => destruct b
           end; auto.
Qed.

(** X30.  The legacy [update] with an empty id throws InvalidId without
    calling the store; with a non-empty id it calls the client's [update]
    under the normalised id with the payload, throws NotFound, naming that
    id, when the client answers nothing or an empty array, and otherwise
    hands back the record as the client gave it, unformatted.  Every failure
    is logged once and thrown on. *)
Theorem legacy_update_failures (this : SurrealService) (id : string)
  (data : list (string * JsValue)) (w : World S) :
  let rid := recordIdOf (table this) id in
  let sent := fun s' => with_call w (CallUpdate (db this) rid (JObj data)) s' in
  let failed := fun w' e => with_log w' (LogFailed OpUpdate (table this) (Some id) e) in
  (id = "" ->
   Legacy.update cl this id data w = (Throw (InvalidId id), failed w (InvalidId id)))
  /\ (id <> "" -> forall s',
        (update_ cl (db this) rid (JObj data) (store w) = (Ok JUndefined, s') ->
         Legacy.update cl this id data w
         = (Throw (RecordNotFound rid), failed (sent s') (RecordNotFound rid)))
        /\ (update_ cl (db this) rid (JObj data) (store w) = (Ok (JArr []), s') ->
            Legacy.update cl this id data w
            = (Throw (RecordNotFound rid), failed (sent s') (RecordNotFound rid))))
  /\ (id <> "" -> forall ps s',
        update_ cl (db this) rid (JObj data) (store w) = (Ok (JObj ps), s') ->
        Legacy.update cl this id data w = (Ok (JObj ps), sent s'))
  /\ (id <> "" -> forall e s',
        update_ cl (db this) rid (JObj data) (store w) = (Throw e, s') ->
        Legacy.update cl this id data w = (Throw e, failed (sent s') e)).
Proof.
  intros rid sent failed. unfold Legacy.update.
  rewrite ServiceFacts.rethrow_spec, ServiceFacts.truthy_str, negb_involutive.
  split; [|split; [|split]].
  - intros ->. reflexivity.
  - intros N s'. rewrite (proj2 (String.eqb_neq id "") N).
    unfold bind, call, throw, ret. cbv zeta. fold rid.
    split; intros E; now rewrite E.
  - intros N ps s' E. rewrite (proj2 (String.eqb_neq id "") N).
    unfold bind, call, throw, ret. cbv zeta. fold rid. now rewrite E.
  - intros N e s' E. rewrite (proj2 (String.eqb_neq id "") N).
    unfold bind, call, throw, ret. cbv zeta. fold rid. now rewrite E.
Qed.

End WithClient.

Lemma prefixed_id_ignores_table_witness :
  fst (Service.findById MemStore.client
         {| Service.db := 0; Service.table := "post" |} "user:r1"
         (MemStore.connected MemStore.five_users))
  = fst (Service.findById MemStore.client MemStore.users "user:r1"
           (MemStore.connected MemStore.five_users)).
Proof.
  destruct (prefixed_id_ignores_table MemStore.client
              {| Service.db := 0; Service.table := "post" |} MemStore.users
              "user:r1" [] (MemStore.connected MemStore.five_users)
              eq_refl eq_refl) as ((E & _) & _).
  exact E.
Defined.

Lemma legacy_update_failures_witness :
  fst (Legacy.update MemStore.client MemStore.users "" [("age", JNum (Fin 31))]
         (MemStore.connected MemStore.five_users)) = Throw (InvalidId "")
  /\ fst (Legacy.update MemStore.client MemStore.users "r1" [("age", JNum (Fin 31))]
            (MemStore.connected MemStore.offline))
     = Throw (StoreError "connection closed").
Proof.
  assert (N1 : "r1" <> "") by discriminate.
  destruct (legacy_update_failures MemStore.client MemStore.users ""
              [("age", JNum (Fin 31))] (MemStore.connected MemStore.five_users))
    as (I & _).
  destruct (legacy_update_failures MemStore.client MemStore.users "r1"
              [("age", JNum (Fin 31))] (MemStore.connected MemStore.offline))
    as (_ & _ & _ & T).
  split.
  - now rewrite (I eq_refl).
  - now rewrite (T N1 (StoreError "connection closed") MemStore.offline eq_refl).
Defined.

End FormatMore.
